(** * A shallow embedding of the object-storage abstraction

    The development follows the Go sources of the repository:
    - src/amazon.go: the S3 backend (directory pages, rename, conditional HTTP
      delivery) and, in its second part, the data model, [GetObjectSliceDiff]
      and the path helpers [cleanPrefix], [removePrefixFromObjectPath] and
      [objectPathIsInvalid];
    - src/unnamed/part_000: the sentinel errors;
    - src/unnamed/part_003: the local filesystem backend with its directory
      pages.

    Go strings are byte strings ([string], one [ascii] per byte); Go maps are
    [gmap]s; [int], [int64] and [time.Duration] are [Z]. A function returning
    [(T, error)] returns a pair of options or a sum, a function returning
    [error] an [option error] ([None] is [nil]). What a backend talks to (the
    S3 client, the operating system) is a type class of operations on a state
    of the world; the backend's functions are computations in a state monad
    over that world, the log of the requests sent, and the heap of the pages
    allocated. *)

From Stdlib Require Import ZArith Lia List Ascii String Bool.
From stdpp Require Import base option list gmap strings fin_maps sorting.

Local Open Scope string_scope.
Local Open Scope list_scope.

(* ===================================================================== *)
(** * The Go standard library functions the sources call                   *)
(* ===================================================================== *)

(** These packages are not part of the repository. Each function is written
    after its documentation in the Go standard library and checked, further
    down, on the examples of that documentation (path.Clean on the table of
    the library's own test). *)

(** ** package strings *)
Module strings.

(** [stripPrefix s prefix] is [Some rest] when [s = prefix ++ rest]. *)
Fixpoint stripPrefix (s prefix : string) {struct prefix} : option string :=
  match prefix with
  | EmptyString => Some s
  | String p prefix' =>
      match s with
      | EmptyString => None
      | String c s' => if Ascii.eqb c p then stripPrefix s' prefix' else None
      end
  end.

(** strings.HasPrefix *)
Definition HasPrefix (s prefix : string) : bool :=
  match stripPrefix s prefix with Some _ => true | None => false end.

(** strings.TrimPrefix: [s] without the leading [prefix]; [s] itself when it
    does not start with [prefix]. *)
Definition TrimPrefix (s prefix : string) : string :=
  match stripPrefix s prefix with Some rest => rest | None => s end.

(** strings.HasSuffix: some tail of [s] is [suffix]. *)
Fixpoint HasSuffix (s suffix : string) : bool :=
  if String.eqb s suffix then true
  else match s with
       | EmptyString => false
       | String _ s' => HasSuffix s' suffix
       end.

(** strings.Contains: [substr] starts at some position of [s]. *)
Fixpoint Contains (s substr : string) : bool :=
  if HasPrefix s substr then true
  else match s with
       | EmptyString => false
       | String _ s' => Contains s' substr
       end.

(** Membership of a byte in a cutset (the sources only pass ASCII cutsets). *)
Fixpoint inCutset (c : ascii) (cutset : string) : bool :=
  match cutset with
  | EmptyString => false
  | String d cutset' => Ascii.eqb c d || inCutset c cutset'
  end.

Fixpoint TrimLeft (s cutset : string) : string :=
  match s with
  | EmptyString => EmptyString
  | String c s' => if inCutset c cutset then TrimLeft s' cutset else s
  end.

Fixpoint TrimRight (s cutset : string) : string :=
  match s with
  | EmptyString => EmptyString
  | String c s' =>
      match TrimRight s' cutset with
      | EmptyString => if inCutset c cutset then EmptyString else String c EmptyString
      | r => String c r
      end
  end.

(** strings.Trim: leading and trailing bytes of the cutset removed. *)
Definition Trim (s cutset : string) : string :=
  TrimRight (TrimLeft s cutset) cutset.

(** strings.Split with a one-byte separator (every call site passes "/"):
    the pieces between separators; the empty string splits into [[""]]. *)
Fixpoint Split (s : string) (sep : ascii) : list string :=
  match s with
  | EmptyString => [EmptyString]
  | String c s' =>
      if Ascii.eqb c sep then EmptyString :: Split s' sep
      else match Split s' sep with
           | piece :: pieces => String c piece :: pieces
           | [] => [String c EmptyString]
           end
  end.

(** strings.Join with a one-byte separator. *)
Fixpoint Join (elems : list string) (sep : ascii) : string :=
  match elems with
  | [] => EmptyString
  | [e] => e
  | e :: rest => String.append e (String sep (Join rest sep))
  end.

(** The white space of unicode.IsSpace, as UTF-8 byte sequences. *)
Definition ofBytes (l : list nat) : string :=
  fold_right (fun n s => String (ascii_of_nat n) s) EmptyString l.

Definition spaces : list string :=
  map ofBytes
    [ [9]; [10]; [11]; [12]; [13]; [32];
      [194; 133]; [194; 160]; [225; 154; 128];
      [226; 128; 128]; [226; 128; 129]; [226; 128; 130]; [226; 128; 131];
      [226; 128; 132]; [226; 128; 133]; [226; 128; 134]; [226; 128; 135];
      [226; 128; 136]; [226; 128; 137]; [226; 128; 138];
      [226; 128; 168]; [226; 128; 169]; [226; 128; 175];
      [226; 129; 159]; [227; 128; 128] ]%nat.

(** The rest of [s] after one leading white-space rune, if it has one. *)
Definition dropSpace (s : string) : option string :=
  list_find (fun sp => HasPrefix s sp = true) spaces
    ≫= fun '(_, sp) => stripPrefix s sp.

Fixpoint trimSpaceLeft (fuel : nat) (s : string) : string :=
  match fuel with
  | O => s
  | S fuel' =>
      match dropSpace s with
      | Some rest => trimSpaceLeft fuel' rest
      | None => s
      end
  end.

(** The rest of [s] before one trailing white-space rune, if it has one. *)
Fixpoint dropSpaceRight (s : string) : option string :=
  if bool_decide (s ∈ spaces) then Some EmptyString
  else match s with
       | EmptyString => None
       | String c s' => String c <$> dropSpaceRight s'
       end.

Fixpoint trimSpaceRight (fuel : nat) (s : string) : string :=
  match fuel with
  | O => s
  | S fuel' =>
      match dropSpaceRight s with
      | Some rest => trimSpaceRight fuel' rest
      | None => s
      end
  end.

(** strings.TrimSpace (on valid UTF-8). Every step removes at least one
    byte, so [String.length s] steps are enough on each side. *)
Definition TrimSpace (s : string) : string :=
  let l := trimSpaceLeft (String.length s) s in
  trimSpaceRight (String.length l) l.

End strings.

(** ** package path *)
Module path.

(** One element of the input against the output built so far (its last
    element first), by Clean's rules: an empty element or "." is dropped; ".."
    removes the element before it when that is an ordinary one, is dropped at
    the root of a rooted path, and is kept otherwise; any other element is
    appended. *)
Definition cleanStep (rooted : bool) (out : list string) (elem : string) : list string :=
  if String.eqb elem "" || String.eqb elem "." then out
  else if String.eqb elem ".." then
    match out with
    | last :: out' =>
        if String.eqb last ".." then (if rooted then out else ".." :: out) else out'
    | [] => if rooted then [] else [".."]
    end
  else elem :: out.

(** The elements of the cleaned path, last first. *)
Definition cleanElems (rooted : bool) (p : string) : list string :=
  fold_left (cleanStep rooted) (strings.Split p "/") [].

(** path.Clean: the shortest equivalent path; "." for the empty path. *)
Definition Clean (p : string) : string :=
  if String.eqb p "" then "."
  else
    let rooted := strings.HasPrefix p "/" in
    let body := strings.Join (rev (cleanElems rooted p)) "/" in
    if rooted then String "/" body
    else if String.eqb body "" then "." else body.

(** path.Join: the non-empty elements joined by "/" and cleaned; the empty
    string when every element is empty. *)
Definition Join (elem : list string) : string :=
  match filter (fun e => e <> "") elem with
  | [] => ""
  | es => Clean (strings.Join es "/")
  end.

End path.

(** ** package strconv *)
Module strconv.

Definition minInt64 : Z := (- 2 ^ 63)%Z.
Definition maxInt64 : Z := (2 ^ 63 - 1)%Z.

Definition digit (c : ascii) : option Z :=
  let n := Z.of_nat (nat_of_ascii c) in
  if ((48 <=? n) && (n <=? 57))%Z then Some (n - 48)%Z else None.

Fixpoint digits (s : string) (acc : Z) : option Z :=
  match s with
  | EmptyString => Some acc
  | String c s' =>
      match digit c with
      | Some d => digits s' (10 * acc + d)%Z
      | None => None
      end
  end.

(** strconv.ParseInt(s, 10, 64): an optional sign and at least one decimal
    digit; [None] stands for a syntax or range error. *)
Definition ParseInt (s : string) : option Z :=
  let '(neg, body) :=
    match s with
    | String "+" s' => (false, s')
    | String "-" s' => (true, s')
    | _ => (false, s)
    end in
  match body with
  | EmptyString => None
  | _ =>
      match digits body 0 with
      | Some n =>
          let v := if neg then (- n)%Z else n in
          if ((minInt64 <=? v) && (v <=? maxInt64))%Z then Some v else None
      | None => None
      end
  end.

Fixpoint formatPos (fuel : nat) (n : Z) (acc : string) : string :=
  match fuel with
  | O => acc
  | S fuel' =>
      let acc' := String (ascii_of_nat (Z.to_nat (48 + n mod 10))) acc in
      if (n <? 10)%Z then acc' else formatPos fuel' (n / 10)%Z acc'
  end.

(** strconv.FormatInt(i, 10) *)
Definition FormatInt (i : Z) : string :=
  if (i <? 0)%Z then String "-" (formatPos 20 (- i) "") else formatPos 20 i "".

End strconv.

(** ** package time *)
Module time.

(** An instant, in nanoseconds on a common time line (the wall clock reading;
    the listings carry no monotonic reading). *)
Definition Time : Type := Z.

(** time.Duration: a signed 64-bit count of nanoseconds. *)
Definition Duration : Type := Z.

(** The zero value of Time. *)
Definition zero : Time := 0%Z.

Definition minDuration : Duration := (- 2 ^ 63)%Z.
Definition maxDuration : Duration := (2 ^ 63 - 1)%Z.
Definition Second : Duration := 1000000000%Z.

(** t.Sub(u): the duration t-u, or the minimum or maximum duration when t-u
    does not fit a Duration. *)
Definition Sub (t u : Time) : Duration :=
  Z.max minDuration (Z.min maxDuration (t - u)).

End time.

(** ** package errors, io, os and the AWS SDK's awserr *)

Inductive Errno : Type := ENOENT | EACCES | ENOTDIR | EIO.

(** Go error values. The package-level sentinels of src/unnamed/part_000 and io.EOF are
    each one value; [errors_New] is a value made by a call of errors.New inside
    a function, equal to no sentinel; [awserr_Error] is an error of the AWS SDK
    that carries a code; [PathError] and [os_ErrInvalid] are what package os
    returns; [wrapError] is an error that wraps another one. *)
Inductive error : Type :=
| ErrPrefixIsAnObject
| ErrNotImplemented
| ErrNewPathNotEmpty
| io_EOF
| errors_New (text : string)
| awserr_Error (code message : string)
| PathError (op name : string) (errno : Errno)
| os_ErrInvalid
| wrapError (text : string) (inner : error).

#[global] Instance Errno_eq_dec : EqDecision Errno.
Proof. solve_decision. Defined.

#[global] Instance error_eq_dec : EqDecision error.
Proof. solve_decision. Defined.

(** errors.Is: the error or one it wraps is the target. *)
Fixpoint errors_Is (err target : error) : bool :=
  if bool_decide (err = target) then true
  else match err with
       | wrapError _ inner => errors_Is inner target
       | _ => false
       end.

(** os.IsNotExist *)
Definition os_IsNotExist (err : error) : bool :=
  match err with
  | PathError _ _ ENOENT => true
  | _ => false
  end.

(* ===================================================================== *)
(** * src/amazon.go, second part: data model, snapshot diff, path helpers  *)
(* ===================================================================== *)

(** Metadata represents the meta information of the object. *)
Record Metadata : Type := mkMetadata {
  Path : string;
  LastModified : time.Time
}.

(** Object embeds Metadata: [Path o] reads through the coercion. *)
Record Object : Type := mkObject {
  Object_Metadata :> Metadata;
  Content : list Byte.byte
}.

(** ObjectSliceDiff: what has changed since the last listing. *)
Record ObjectSliceDiff : Type := mkObjectSliceDiff {
  Change : bool;
  Removed : list Object;
  Added : list Object;
  Updated : list Object
}.

Definition withRemoved (d : ObjectSliceDiff) (v : list Object) : ObjectSliceDiff :=
  {| Change := Change d; Removed := v; Added := Added d; Updated := Updated d |}.
Definition withAdded (d : ObjectSliceDiff) (v : list Object) : ObjectSliceDiff :=
  {| Change := Change d; Removed := Removed d; Added := v; Updated := Updated d |}.
Definition withUpdated (d : ObjectSliceDiff) (v : list Object) : ObjectSliceDiff :=
  {| Change := Change d; Removed := Removed d; Added := Added d; Updated := v |}.
Definition withChange (d : ObjectSliceDiff) (v : bool) : ObjectSliceDiff :=
  {| Change := v; Removed := Removed d; Added := Added d; Updated := Updated d |}.

(** [for _, o := range objs { m[o.Path] = o }] from the empty map. *)
Definition indexByPath (objs : list Object) : gmap string Object :=
  fold_left (fun (m : gmap string Object) (o : Object) => <[Path o := o]> m) objs ∅.

(** The body of the loop over the previous slice. *)
Definition diffPrevStep (cos : gmap string Object) (timestampTolerance : time.Duration)
    (diff : ObjectSliceDiff) (p : Object) : ObjectSliceDiff :=
  match (cos !! Path p : option Object) with
  | Some c =>
      if (time.Sub (LastModified c) (LastModified p) >? timestampTolerance)%Z
      then withUpdated diff (Updated diff ++ [c])
      else diff
  | None => withRemoved diff (Removed diff ++ [p])
  end.

(** The body of the loop over the current slice. *)
Definition diffCurrStep (pos : gmap string Object)
    (diff : ObjectSliceDiff) (c : Object) : ObjectSliceDiff :=
  match (pos !! Path c : option Object) with
  | Some _ => diff
  | None => withAdded diff (Added diff ++ [c])
  end.

(** GetObjectSliceDiff takes two objects slices and returns an ObjectSliceDiff. *)
Definition GetObjectSliceDiff (prev curr : list Object)
    (timestampTolerance : time.Duration) : ObjectSliceDiff :=
  let diff := {| Change := false; Removed := []; Added := []; Updated := [] |} in
  let pos := indexByPath prev in
  let cos := indexByPath curr in
  let diff := fold_left (diffPrevStep cos timestampTolerance) prev diff in
  let diff := fold_left (diffCurrStep pos) curr diff in
  withChange diff
    (0 <? length (Removed diff) + length (Added diff) + length (Updated diff))%nat.

Arguments GetObjectSliceDiff prev curr timestampTolerance%_Z.

Definition cleanPrefix (prefix : string) : string :=
  strings.Trim prefix "/".

Definition removePrefixFromObjectPath (prefix path : string) : string :=
  if String.eqb prefix "" then path
  else
    let prefix :=
      if negb (strings.HasSuffix prefix "/") then String.append prefix "/" else prefix in
    strings.TrimPrefix path prefix.

Definition objectPathIsInvalid (path : string) : bool :=
  strings.Contains path "/" || String.eqb path "".

(** The paths of a slice of objects. *)
Definition paths (objs : list Object) : list string :=
  map (fun o : Object => Path o) objs.

Definition obj (p : string) (t : time.Time) : Object :=
  {| Object_Metadata := {| Path := p; LastModified := t |}; Content := [] |}.
Arguments obj p%_string t%_Z.

(** The key of [path] under the backend's root prefix, as every operation of
    the S3 backend computes it: [cleanPrefix(pathutil.Join(b.Prefix, path))]. *)
Definition objectKey (prefix path : string) : string :=
  cleanPrefix (path.Join [prefix; path]).

(** An ordinary path element: not empty, not "." and not "..". *)
Definition ordinary (e : string) : bool :=
  negb (String.eqb e "") && negb (String.eqb e ".") && negb (String.eqb e "..").

(** A path made of ordinary elements only: it is not empty, neither starts
    nor ends with a separator and has no empty, "." or ".." element. *)
Definition ordinaryPath (s : string) : bool :=
  forallb ordinary (strings.Split s "/").

(* ===================================================================== *)
(** * Effects: a state monad over what a backend talks to                  *)
(* ===================================================================== *)

(** A computation that reads and changes a state [S] and returns an [A]. *)
Definition M (S A : Type) : Type := S -> A * S.

Definition ret {S A : Type} (a : A) : M S A := fun s => (a, s).

Definition bind {S A B : Type} (m : M S A) (k : A -> M S B) : M S B :=
  fun s => let r := m s in k r.1 r.2.

Declare Scope monad_scope.
Delimit Scope monad_scope with monad.
Notation "x <- m ;; k" := (bind m (fun x => k))
  (at level 100, m at next level, right associativity) : monad_scope.
Local Open Scope monad_scope.

(** ** package net/url *)
Module url.

(** shouldEscape for a path segment: letters, digits and [-_.~$&+:=@] stay. *)
Definition shouldEscape (c : ascii) : bool :=
  let n := nat_of_ascii c in
  let alnum := ((97 <=? n) && (n <=? 122) || (65 <=? n) && (n <=? 90)
                || (48 <=? n) && (n <=? 57))%nat in
  negb (alnum || strings.inCutset c "-_.~$&+:=@").

Definition upperhex (n : nat) : ascii :=
  match String.get n "0123456789ABCDEF" with Some c => c | None => "0"%char end.

(** url.PathEscape *)
Fixpoint PathEscape (s : string) : string :=
  match s with
  | EmptyString => EmptyString
  | String c s' =>
      if shouldEscape c
      then let n := nat_of_ascii c in
           String "%" (String (upperhex (n / 16)) (String (upperhex (n mod 16)) (PathEscape s')))
      else String c (PathEscape s')
  end.

Definition unhex (c : ascii) : option nat :=
  let n := nat_of_ascii c in
  if ((48 <=? n) && (n <=? 57))%nat then Some (n - 48)%nat
  else if ((97 <=? n) && (n <=? 102))%nat then Some (n - 97 + 10)%nat
  else if ((65 <=? n) && (n <=? 70))%nat then Some (n - 65 + 10)%nat
  else None.

(** url.PathUnescape; [None] stands for an escape error. *)
Fixpoint PathUnescape (s : string) : option string :=
  match s with
  | EmptyString => Some EmptyString
  | String c s' =>
      if Ascii.eqb c "%" then
        match s' with
        | String h (String l s'') =>
            match unhex h, unhex l with
            | Some a, Some b =>
                match PathUnescape s'' with
                | Some r => Some (String (ascii_of_nat (16 * a + b)) r)
                | None => None
                end
            | _, _ => None
            end
        | _ => None
        end
      else
        match PathUnescape s' with
        | Some r => Some (String c r)
        | None => None
        end
  end.

End url.

(* ===================================================================== *)
(** * The AWS SDK's S3 client, as the S3 backend uses it                   *)
(* ===================================================================== *)

Module s3.

Record HeadObjectInput : Type := mkHeadObjectInput {
  head_Bucket : string;
  head_Key : string
}.

Record ListObjectsV2Input : Type := mkListObjectsV2Input {
  list_Bucket : string;
  list_Prefix : string;
  list_Delimiter : option string;
  list_MaxKeys : option Z;
  list_ContinuationToken : option string
}.

Record CommonPrefix : Type := mkCommonPrefix {
  Prefix : option string
}.

Record Object : Type := mkObject {
  Key : option string;
  LastModified : option time.Time
}.

Record ListObjectsV2Output : Type := mkListObjectsV2Output {
  CommonPrefixes : list CommonPrefix;
  Contents : list Object;
  IsTruncated : option bool;
  KeyCount : option Z;
  ContinuationToken : option string;
  NextContinuationToken : option string
}.

Record CopyObjectInput : Type := mkCopyObjectInput {
  copy_Bucket : string;
  copy_CopySource : string;
  copy_Key : string
}.

Record DeleteObjectInput : Type := mkDeleteObjectInput {
  delete_Bucket : string;
  delete_Key : string
}.

Record GetObjectInput : Type := mkGetObjectInput {
  get_Bucket : string;
  get_Key : string;
  IfModifiedSince : option time.Time;
  IfUnmodifiedSince : option time.Time;
  IfMatch : option string;
  IfNoneMatch : option string
}.

(** The body of a response: the bytes it yields and the error, if any, that
    reading it ends with. *)
Record Body : Type := mkBody {
  bodyData : string;
  bodyErr : option error
}.

Record GetObjectOutput : Type := mkGetObjectOutput {
  ResponseBody : Body;
  CacheControl : option string;
  Expires : option string;
  ContentDisposition : option string;
  ContentEncoding : option string;
  ContentLanguage : option string;
  ContentLength : option Z;
  ContentRange : option string;
  ContentType : option string;
  ETag : option string;
  ObjectLastModified : option time.Time
}.

Definition ErrCodeNoSuchKey : string := "NoSuchKey".

(** A request sent to the service. *)
Inductive Call : Type :=
| CallHeadObject (input : HeadObjectInput)
| CallListObjectsV2 (input : ListObjectsV2Input)
| CallCopyObject (input : CopyObjectInput)
| CallDeleteObject (input : DeleteObjectInput)
| CallGetObject (input : GetObjectInput).

(** The requests that change what the service stores. *)
Definition mutating (c : Call) : bool :=
  match c with
  | CallCopyObject _ | CallDeleteObject _ => true
  | _ => false
  end.

(** The client [*s3.S3]: each operation answers from the state [W] of the
    service and the network and leaves a new state. An operation returns its
    output or an error. *)
Class API (W : Type) : Type := {
  HeadObject : HeadObjectInput -> W -> option error * W;
  ListObjectsV2 : ListObjectsV2Input -> W -> (ListObjectsV2Output + error) * W;
  CopyObject : CopyObjectInput -> W -> option error * W;
  DeleteObject : DeleteObjectInput -> W -> option error * W;
  GetObject : GetObjectInput -> W -> (GetObjectOutput + error) * W
}.

(** What the service stores: the content of each key of each bucket. A
    service answers by these rules: a request that fails, a HeadObject and a
    ListObjectsV2 change nothing; a CopyObject that succeeds has found its
    source and stored its content at the destination. *)
Class Model (W : Type) `{API W} : Type := {
  objects : W -> string -> gmap string (list Byte.byte);
  HeadObject_objects : forall i w bucket,
    objects (HeadObject i w).2 bucket = objects w bucket;
  ListObjectsV2_objects : forall i w bucket,
    objects (ListObjectsV2 i w).2 bucket = objects w bucket;
  CopyObject_failed : forall i w e bucket,
    (CopyObject i w).1 = Some e -> objects (CopyObject i w).2 bucket = objects w bucket;
  CopyObject_done : forall bucket src dst w,
    let i := {| copy_Bucket := bucket;
                copy_CopySource := url.PathEscape (bucket +:+ "/" +:+ src);
                copy_Key := dst |} in
    (CopyObject i w).1 = None ->
    exists content,
      objects w bucket !! src = Some content /\
      objects (CopyObject i w).2 bucket = <[dst := content]> (objects w bucket);
  DeleteObject_failed : forall i w e bucket,
    (DeleteObject i w).1 = Some e -> objects (DeleteObject i w).2 bucket = objects w bucket
}.

End s3.

(* ===================================================================== *)
(** * package net/http, as the handlers use it                             *)
(* ===================================================================== *)

Module http.

Definition StatusOK : Z := 200.
Definition StatusPartialContent : Z := 206.
Definition StatusNotModified : Z := 304.
Definition StatusBadRequest : Z := 400.
Definition StatusNotFound : Z := 404.
Definition StatusPreconditionFailed : Z := 412.
Definition StatusInternalServerError : Z := 500.
Definition MethodHead : string := "HEAD".

(** A request: its method and its header fields, by canonical name. *)
Record Request : Type := mkRequest {
  Method : string;
  Header : list (string * string)
}.

(** Header.Get: the first value of the field, "" when it is absent. *)
Definition Get (h : list (string * string)) (key : string) : string :=
  match List.find (fun kv => String.eqb kv.1 key) h with
  | Some kv => kv.2
  | None => ""
  end.

(** What a handler does to its ResponseWriter, in order. *)
Inductive Event : Type :=
| HeaderAdd (key value : string)
| Write (data : string)
| WriteHeader (statusCode : Z).

(** A ResponseWriter: the calls made on it so far, and the error its Write
    returns, if it fails. *)
Record ResponseWriter : Type := mkResponseWriter {
  events : list Event;
  writeErr : option error
}.

Definition record (w : ResponseWriter) (e : Event) : ResponseWriter :=
  {| events := events w ++ [e]; writeErr := writeErr w |}.

(** The status codes passed to WriteHeader, in order. *)
Definition statusCalls (w : ResponseWriter) : list Z :=
  omap (fun e => match e with WriteHeader c => Some c | _ => None end) (events w).

(** What each call would make the status line, were it the first to decide:
    a WriteHeader its code, a Write the implicit 200. *)
Definition statusDecisions (w : ResponseWriter) : list Z :=
  omap (fun e => match e with
                 | WriteHeader c => Some c
                 | Write _ => Some StatusOK
                 | HeaderAdd _ _ => None
                 end) (events w).

(** The status line a ResponseWriter sends, by the contract of the
    interface: that of the first WriteHeader, or 200 when a Write comes
    first; later calls of WriteHeader change nothing. *)
Definition sentStatus (w : ResponseWriter) : option Z :=
  head (statusDecisions w).

End http.

(** io.Copy(w, body): the bytes of the body go to the writer in a Write; the
    result is the writer's error or the error that ends the body. Nothing is
    written for an empty body. *)
Definition io_Copy (w : http.ResponseWriter) (src : s3.Body) :
    http.ResponseWriter * option error :=
  if String.eqb (s3.bodyData src) "" then (w, s3.bodyErr src)
  else match http.writeErr w with
       | Some e => (http.record w (http.Write ""), Some e)
       | None => (http.record w (http.Write (s3.bodyData src)), s3.bodyErr src)
       end.

(* ===================================================================== *)
(** * src/amazon.go: the S3 backend                                        *)
(* ===================================================================== *)

Module Amazon.

(** AmazonS3Backend is a storage backend for Amazon S3. Its client is the
    state the operations run in. *)
Record AmazonS3Backend : Type := mkAmazonS3Backend {
  Bucket : string;
  Prefix : string;
  SSE : string
}.

(** NewAmazonS3Backend: the root prefix is stored cleaned. *)
Definition NewAmazonS3Backend (bucket prefix sse : string) : AmazonS3Backend :=
  {| Bucket := bucket; Prefix := cleanPrefix prefix; SSE := sse |}.

(** A page of a directory listing. *)
Record s3ListObjectsFromDirectoryOutput : Type := mkPage {
  backend : AmazonS3Backend;
  prefix : string;
  limit : Z;
  filesRead : list Metadata;
  directoriesRead : list Metadata;
  nextPageCalled : bool;
  isEOF : bool;
  continuationToken : string
}.

Definition GetDirectories (l : s3ListObjectsFromDirectoryOutput) : list Metadata :=
  directoriesRead l.

Definition GetFiles (l : s3ListObjectsFromDirectoryOutput) : list Metadata :=
  filesRead l.

Definition IsTruncated (l : s3ListObjectsFromDirectoryOutput) : bool :=
  negb (isEOF l).

Definition withFiles (l : s3ListObjectsFromDirectoryOutput) (v : list Metadata) :=
  {| backend := backend l; prefix := prefix l; limit := limit l; filesRead := v;
     directoriesRead := directoriesRead l; nextPageCalled := nextPageCalled l;
     isEOF := isEOF l; continuationToken := continuationToken l |}.

Definition withDirectories (l : s3ListObjectsFromDirectoryOutput) (v : list Metadata) :=
  {| backend := backend l; prefix := prefix l; limit := limit l; filesRead := filesRead l;
     directoriesRead := v; nextPageCalled := nextPageCalled l;
     isEOF := isEOF l; continuationToken := continuationToken l |}.

Definition withNextPageCalled (l : s3ListObjectsFromDirectoryOutput) (v : bool) :=
  {| backend := backend l; prefix := prefix l; limit := limit l; filesRead := filesRead l;
     directoriesRead := directoriesRead l; nextPageCalled := v;
     isEOF := isEOF l; continuationToken := continuationToken l |}.

Definition withEOF (l : s3ListObjectsFromDirectoryOutput) (v : bool) :=
  {| backend := backend l; prefix := prefix l; limit := limit l; filesRead := filesRead l;
     directoriesRead := directoriesRead l; nextPageCalled := nextPageCalled l;
     isEOF := v; continuationToken := continuationToken l |}.

Definition withToken (l : s3ListObjectsFromDirectoryOutput) (v : string) :=
  {| backend := backend l; prefix := prefix l; limit := limit l; filesRead := filesRead l;
     directoriesRead := directoriesRead l; nextPageCalled := nextPageCalled l;
     isEOF := isEOF l; continuationToken := v |}.

(** FreeFromMemory drops the entries and keeps the cursor. *)
Definition FreeFromMemory (l : s3ListObjectsFromDirectoryOutput) :=
  withFiles (withDirectories l []) [].

(** [&s3ListObjectsFromDirectoryOutput{backend: b, prefix: p, limit: n}] *)
Definition newPage (b : AmazonS3Backend) (p : string) (n : Z) :=
  {| backend := b; prefix := p; limit := n; filesRead := []; directoriesRead := [];
     nextPageCalled := false; isEOF := false; continuationToken := "" |}.

(** The zero value of the struct. *)
Definition zeroPage : s3ListObjectsFromDirectoryOutput :=
  newPage {| Bucket := ""; Prefix := ""; SSE := "" |} "" 0.

(** A pointer to a page: its index in the heap of pages. *)
Definition loc : Type := nat.

Section Backend.

Context {W : Type} `{s3.API W}.

(** What an operation runs in: the service behind the client, the requests
    sent so far, and the pages allocated so far. *)
Record State : Type := mkState {
  world : W;
  calls : list s3.Call;
  pages : list s3ListObjectsFromDirectoryOutput
}.

Definition called (c : s3.Call) (w : W) (st : State) : State :=
  {| world := w; calls := calls st ++ [c]; pages := pages st |}.

Definition Client_HeadObject (i : s3.HeadObjectInput) : M State (option error) :=
  fun st => let r := s3.HeadObject i (world st) in
            (r.1, called (s3.CallHeadObject i) r.2 st).

Definition Client_ListObjectsV2 (i : s3.ListObjectsV2Input)
    : M State (s3.ListObjectsV2Output + error) :=
  fun st => let r := s3.ListObjectsV2 i (world st) in
            (r.1, called (s3.CallListObjectsV2 i) r.2 st).

Definition Client_CopyObject (i : s3.CopyObjectInput) : M State (option error) :=
  fun st => let r := s3.CopyObject i (world st) in
            (r.1, called (s3.CallCopyObject i) r.2 st).

Definition Client_DeleteObject (i : s3.DeleteObjectInput) : M State (option error) :=
  fun st => let r := s3.DeleteObject i (world st) in
            (r.1, called (s3.CallDeleteObject i) r.2 st).

Definition Client_GetObject (i : s3.GetObjectInput)
    : M State (s3.GetObjectOutput + error) :=
  fun st => let r := s3.GetObject i (world st) in
            (r.1, called (s3.CallGetObject i) r.2 st).

(** Allocation of a page, and reading and writing through a pointer. A
    pointer the operations did not hand out reads as the zero page. *)
Definition alloc (pg : s3ListObjectsFromDirectoryOutput) : M State loc :=
  fun st => (length (pages st),
             {| world := world st; calls := calls st; pages := pages st ++ [pg] |}).

Definition load (l : loc) : M State s3ListObjectsFromDirectoryOutput :=
  fun st => (default zeroPage (pages st !! l), st).

Definition store (l : loc) (pg : s3ListObjectsFromDirectoryOutput) : M State unit :=
  fun st => (tt, {| world := world st; calls := calls st; pages := <[l := pg]> (pages st) |}).

(** The path of an entry of a page: the key without the backend's root
    prefix, with a leading "/". *)
Definition entryPath (backendPrefix key : string) : string :=
  let p := removePrefixFromObjectPath backendPrefix key in
  if negb (strings.HasPrefix p "/") then "/" +:+ p else p.

(** The body of [for _, d := range output.CommonPrefixes]. *)
Definition directoryStep (backendPrefix : string)
    (r : s3ListObjectsFromDirectoryOutput) (d : s3.CommonPrefix) :=
  match s3.Prefix d with
  | Some dPrefix =>
      if negb (String.eqb dPrefix "") then
        let p := entryPath backendPrefix dPrefix in
        if negb (String.eqb p "") && negb (String.eqb p "/") then
          withDirectories r (directoriesRead r ++ [{| Path := p; LastModified := time.zero |}])
        else r
      else r
  | None => r
  end.

(** The body of [for _, f := range output.Contents]. *)
Definition fileStep (backendPrefix : string)
    (r : s3ListObjectsFromDirectoryOutput) (f : s3.Object) :=
  match s3.Key f with
  | Some fKey =>
      if negb (String.eqb fKey "") then
        let p := entryPath backendPrefix fKey in
        if negb (String.eqb p "") && negb (String.eqb p "/") then
          let m := {| Path := p;
                      LastModified := match s3.LastModified f with
                                      | Some t => t
                                      | None => time.zero
                                      end |} in
          withFiles r (filesRead r ++ [m])
        else r
      else r
  | None => r
  end.

(** The request NextPage sends for the page [l]. *)
Definition nextPageRequest (l : s3ListObjectsFromDirectoryOutput) : s3.ListObjectsV2Input :=
  {| s3.list_Bucket := Bucket (backend l);
     s3.list_Prefix := cleanPrefix (path.Join [Prefix (backend l); prefix l]) +:+ "/";
     s3.list_Delimiter := Some "/";
     s3.list_MaxKeys := Some (limit l);
     s3.list_ContinuationToken :=
       if negb (String.eqb (continuationToken l) "") then Some (continuationToken l)
       else None |}.

(** The page NextPage builds from the service's answer. *)
Definition pageOfOutput (l : s3ListObjectsFromDirectoryOutput)
    (output : s3.ListObjectsV2Output) : s3ListObjectsFromDirectoryOutput :=
  let r := newPage (backend l) (prefix l) (limit l) in
  let r := match s3.NextContinuationToken output with
           | Some token => withToken r token
           | None => r
           end in
  let r := fold_left (directoryStep (Prefix (backend l))) (s3.CommonPrefixes output) r in
  let r := fold_left (fileStep (Prefix (backend l))) (s3.Contents output) r in
  withEOF r (match s3.IsTruncated output with
             | Some truncated => negb truncated
             | None => true
             end).

(** NextPage on the page at [l]. The successor is put on the heap where it is
    returned; a call that fetched a page marks [l]. *)
Definition NextPage (l : loc) : M State (option loc * option error) :=
  pg <- load l ;;
  if nextPageCalled pg then
    ret (None, Some (errors_New "you cannot call NextPage more than once"))
  else if isEOF pg then
    r <- alloc (withEOF (newPage (backend pg) (prefix pg) (limit pg)) true) ;;
    ret (Some r, Some io_EOF)
  else
    res <- Client_ListObjectsV2 (nextPageRequest pg) ;;
    match res with
    | inr err => ret (None, Some err)
    | inl output =>
        let page := pageOfOutput pg output in
        let err := if isEOF page then Some io_EOF else None in
        _ <- store l (withNextPageCalled pg true) ;;
        r <- alloc page ;;
        ret (Some r, err)
    end.

(** ListObjectsFromDirectory lists all objects under prefix, always with
    depth 1, returning at most limit objects (directories + files). *)
Definition ListObjectsFromDirectory (b : AmazonS3Backend) (prefix : string) (limit : Z)
    : M State (option loc * option error) :=
  err <- Client_HeadObject {| s3.head_Bucket := Bucket b;
                              s3.head_Key := objectKey (Prefix b) prefix |} ;;
  match err with
  | None => ret (None, Some ErrPrefixIsAnObject)
  | Some (awserr_Error code message) =>
      if negb (String.eqb code "NotFound") then ret (None, err)
      else output <- alloc (newPage b prefix limit) ;; NextPage output
  | Some _ =>
      output <- alloc (newPage b prefix limit) ;; NextPage output
  end.

(** DeleteObject removes an object from Amazon S3 bucket, at prefix. *)
Definition DeleteObject (b : AmazonS3Backend) (path : string) : M State (option error) :=
  Client_DeleteObject {| s3.delete_Bucket := Bucket b;
                         s3.delete_Key := objectKey (Prefix b) path |}.

Definition copyInput (b : AmazonS3Backend) (path newPath : string) : s3.CopyObjectInput :=
  {| s3.copy_Bucket := Bucket b;
     s3.copy_CopySource := url.PathEscape (Bucket b +:+ "/" +:+ path);
     s3.copy_Key := newPath |}.

Definition moveObject (b : AmazonS3Backend) (path newPath : string) : M State (option error) :=
  err <- Client_CopyObject (copyInput b path newPath) ;;
  match err with
  | Some e => ret (Some e)
  | None => DeleteObject b path
  end.

(** [for _, obj := range listObjectsOutput.Contents], which returns at the
    first move that fails. *)
Fixpoint moveContents (b : AmazonS3Backend) (prefix newPath : string)
    (contents : list s3.Object) : M State (option error) :=
  match contents with
  | [] => ret None
  | obj :: rest =>
      match s3.Key obj with
      | None => moveContents b prefix newPath rest
      | Some objKey =>
          if String.eqb objKey "" then moveContents b prefix newPath rest
          else
            let key := removePrefixFromObjectPath prefix objKey in
            if String.eqb key "" || String.eqb key "/" then moveContents b prefix newPath rest
            else
              err <- moveObject b objKey (cleanPrefix (path.Join [Prefix b; newPath; key])) ;;
              match err with
              | Some e => ret (Some e)
              | None => moveContents b prefix newPath rest
              end
      end
  end.

(** [for !isEof { ... }]: [fuel] bounds the number of listings; [None] says
    the loop was still running when the fuel ran out. *)
Fixpoint movePrefix (fuel : nat) (b : AmazonS3Backend) (prefix newPath : string)
    (continuationToken : string) : M State (option (option error)) :=
  match fuel with
  | O => ret None
  | S fuel' =>
      res <- Client_ListObjectsV2
               {| s3.list_Bucket := Bucket b;
                  s3.list_Prefix := prefix;
                  s3.list_Delimiter := None;
                  s3.list_MaxKeys := None;
                  s3.list_ContinuationToken :=
                    if negb (String.eqb continuationToken "") then Some continuationToken
                    else None |} ;;
      match res with
      | inr err => ret (Some (Some err))
      | inl output =>
          let continuationToken :=
            match s3.ContinuationToken output with
            | Some token => token
            | None => continuationToken
            end in
          let isEof := match s3.IsTruncated output with
                       | Some truncated => negb truncated
                       | None => true
                       end in
          err <- moveContents b prefix newPath (s3.Contents output) ;;
          match err with
          | Some e => ret (Some (Some e))
          | None =>
              if isEof then ret (Some None)
              else movePrefix fuel' b prefix newPath continuationToken
          end
      end
  end.

(** Is the error an awserr.Error with the code "NotFound"? *)
Definition isNotFound (e : error) : bool :=
  match e with
  | awserr_Error code _ => String.eqb code "NotFound"
  | _ => false
  end.

(** The two probes of the destination. *)
Definition newPathHead (b : AmazonS3Backend) (newPath : string) : s3.HeadObjectInput :=
  {| s3.head_Bucket := Bucket b; s3.head_Key := objectKey (Prefix b) newPath |}.

Definition newPathList (b : AmazonS3Backend) (newPath : string) : s3.ListObjectsV2Input :=
  {| s3.list_Bucket := Bucket b;
     s3.list_Prefix := objectKey (Prefix b) newPath +:+ "/";
     s3.list_Delimiter := None;
     s3.list_MaxKeys := Some 1%Z;
     s3.list_ContinuationToken := None |}.

(** RenamePrefixOrObject; [None] when the loop over the listing pages did
    not end within [fuel] listings. *)
Definition RenamePrefixOrObject (fuel : nat) (b : AmazonS3Backend) (path newPath : string)
    : M State (option (option error)) :=
  (* check if newPath is already occupied *)
  err <- Client_HeadObject (newPathHead b newPath) ;;
  match err with
  | None => ret (Some (Some ErrNewPathNotEmpty))
  | Some e =>
      if negb (isNotFound e) then ret (Some err)
      else
        res <- Client_ListObjectsV2 (newPathList b newPath) ;;
        match res with
        | inr err => ret (Some (Some err))
        | inl listObjectsOutput =>
            let occupied := match s3.KeyCount listObjectsOutput with
                            | Some n => (n >? 0)%Z
                            | None => false
                            end in
            if occupied then ret (Some (Some ErrNewPathNotEmpty))
            else
              (* check if path is an object or a prefix with objects *)
              err <- Client_HeadObject {| s3.head_Bucket := Bucket b;
                                          s3.head_Key := objectKey (Prefix b) path |} ;;
              match err with
              | Some e =>
                  if negb (isNotFound e) then ret (Some err)
                  else movePrefix fuel b (objectKey (Prefix b) path +:+ "/") newPath ""
              | None =>
                  err <- moveObject b (objectKey (Prefix b) path)
                                    (objectKey (Prefix b) newPath) ;;
                  ret (Some err)
              end
        end
  end.

End Backend.

Arguments State : clear implicits.

Section Download.

Context {W : Type} `{s3.API W}.

(** http.ParseTime ([None] for a value that is no HTTP date) and
    [t.UTC().Format(http.TimeFormat)]. *)
Variable http_ParseTime : string -> option time.Time.
Variable http_TimeFormat : time.Time -> string.

(** A date header of the request: [Some None] when it is absent, [Some (Some
    t)] when it parses, [None] when it does not. *)
Definition dateHeader (r : http.Request) (key : string) : option (option time.Time) :=
  let str := http.Get (http.Header r) key in
  if negb (String.eqb str "") then
    match http_ParseTime str with
    | Some t => Some (Some t)
    | None => None
    end
  else Some None.

Definition nonEmpty (s : string) : option string :=
  if negb (String.eqb s "") then Some s else None.

(** The GetObject request of a download; [None] when a date header of the
    request is malformed. *)
Definition downloadInput (b : AmazonS3Backend) (r : http.Request) (path : string)
    : option s3.GetObjectInput :=
  match dateHeader r "If-Modified-Since" with
  | None => None
  | Some ifModifiedSince =>
      let ifMatch := http.Get (http.Header r) "If-Match" in
      let ifNoneMatch := http.Get (http.Header r) "If-None-Match" in
      match dateHeader r "If-Unmodified-Since" with
      | None => None
      | Some ifUnmodifiedSince =>
          Some {| s3.get_Bucket := Bucket b;
                  s3.get_Key := objectKey (Prefix b) path;
                  s3.IfModifiedSince := ifModifiedSince;
                  s3.IfUnmodifiedSince := ifUnmodifiedSince;
                  s3.IfMatch := nonEmpty ifMatch;
                  s3.IfNoneMatch := nonEmpty ifNoneMatch |}
      end
  end.

(** [if v != nil { w.Header().Add(key, *v) }] *)
Definition addHeader (w : http.ResponseWriter) (key : string) (v : option string)
    : http.ResponseWriter :=
  match v with
  | Some value => http.record w (http.HeaderAdd key value)
  | None => w
  end.

(** The status of an error of GetObject. *)
Definition errorStatus (err : error) : Z :=
  match err with
  | awserr_Error code _ =>
      if String.eqb code s3.ErrCodeNoSuchKey then http.StatusNotFound
      else if String.eqb code "NotModified" then http.StatusNotModified
      else if String.eqb code "PreconditionFailed" then http.StatusPreconditionFailed
      else http.StatusBadRequest
  | _ => http.StatusBadRequest
  end.

(** The status the handler resolves from the Content-Range and the
    Content-Length of the answer, starting from [httpStatus]. *)
Definition rangeStatus (httpStatus : Z) (contentRange : string) (contentLength : option Z) : Z :=
  match contentLength with
  | Some length =>
      if (0 <? String.length contentRange)%nat then
        let s := strings.Split contentRange "/" in
        if (1 <? List.length s)%nat then
          let totalSizeString := nth 1 s "" in
          let totalSizeString := strings.TrimSpace totalSizeString in
          match strconv.ParseInt totalSizeString with
          | Some totalSize =>
              if negb (totalSize =? length)%Z then http.StatusPartialContent else httpStatus
          | None => httpStatus
          end
        else httpStatus
      else httpStatus
  | None => httpStatus
  end.

(** The headers and the status of an answer of GetObject. *)
Definition setHeaders (w : http.ResponseWriter) (s3Result : s3.GetObjectOutput)
    : http.ResponseWriter * Z :=
  let httpStatus := http.StatusOK in
  let w := addHeader w "Cache-Control" (s3.CacheControl s3Result) in
  let w := addHeader w "Expires" (s3.Expires s3Result) in
  let w := addHeader w "Content-Disposition" (s3.ContentDisposition s3Result) in
  let w := addHeader w "Content-Encoding" (s3.ContentEncoding s3Result) in
  let w := addHeader w "Content-Language" (s3.ContentLanguage s3Result) in
  let w := addHeader w "Content-Length" (strconv.FormatInt <$> s3.ContentLength s3Result) in
  let w := addHeader w "Content-Range" (s3.ContentRange s3Result) in
  let httpStatus :=
    match s3.ContentRange s3Result with
    | Some contentRange => rangeStatus httpStatus contentRange (s3.ContentLength s3Result)
    | None => httpStatus
    end in
  let w := addHeader w "Content-Type" (s3.ContentType s3Result) in
  let w := addHeader w "ETag" (s3.ETag s3Result) in
  let w := addHeader w "Last-Modified" (http_TimeFormat <$> s3.ObjectLastModified s3Result) in
  (w, httpStatus).

Definition HandleHttpFileDownload (b : AmazonS3Backend) (w : http.ResponseWriter)
    (r : http.Request) (path : string) : M (State W) http.ResponseWriter :=
  match downloadInput b r path with
  | None => ret (http.record w (http.WriteHeader http.StatusBadRequest))
  | Some s3Input =>
      res <- Client_GetObject s3Input ;;
      match res with
      | inr err => ret (http.record w (http.WriteHeader (errorStatus err)))
      | inl s3Result =>
          let wh := setHeaders w s3Result in
          let w := wh.1 in
          let httpStatus := wh.2 in
          if negb (String.eqb (http.Method r) http.MethodHead) then
            let copied := io_Copy w (s3.ResponseBody s3Result) in
            match copied.2 with
            | Some _ =>
                ret (http.record copied.1 (http.WriteHeader http.StatusInternalServerError))
            | None => ret (http.record copied.1 (http.WriteHeader httpStatus))
            end
          else ret (http.record w (http.WriteHeader httpStatus))
      end
  end.

End Download.

End Amazon.

(* ===================================================================== *)
(** * package os, as the local backend uses it                             *)
(* ===================================================================== *)

Module os.

Record DirEntry : Type := mkDirEntry {
  Name : string;
  IsDir : bool
}.

Record FileInfo : Type := mkFileInfo {
  info_IsDir : bool;
  ModTime : time.Time
}.

(** An open file: a handle of the operating system. *)
Definition File : Type := nat.

(** A call of the operating system. *)
Inductive Call : Type :=
| CallOpen (name : string)
| CallStat (f : File)
| CallReadDir (f : File) (n : Z).

(** The operating system: each call answers from the state [W] of the file
    system and the open files and leaves a new state. ReadDir returns the
    entries it read together with its error. *)
Class API (W : Type) : Type := {
  Open : string -> W -> (File + error) * W;
  Stat : File -> W -> (FileInfo + error) * W;
  ReadDir : File -> Z -> W -> (list DirEntry * option error) * W
}.

End os.

(* ===================================================================== *)
(** * src/unnamed/part_003: the local filesystem backend                   *)
(* ===================================================================== *)

Module Local.

(** LocalFilesystemBackend is a storage backend for local filesystem storage. *)
Record LocalFilesystemBackend : Type := mkLocalFilesystemBackend {
  RootDirectory : string
}.

(** A page of a directory listing; [directory] is [nil] for the page of a
    directory that does not exist. *)
Record localListObjectsFromDirectoryOutput : Type := mkPage {
  prefix : string;
  directory : option os.File;
  limit : Z;
  filesRead : list Metadata;
  directoriesRead : list Metadata;
  nextPageCalled : bool;
  isEOF : bool
}.

Definition GetDirectories (l : localListObjectsFromDirectoryOutput) : list Metadata :=
  directoriesRead l.

Definition GetFiles (l : localListObjectsFromDirectoryOutput) : list Metadata :=
  filesRead l.

Definition IsTruncated (l : localListObjectsFromDirectoryOutput) : bool :=
  negb (isEOF l).

Definition withFiles (l : localListObjectsFromDirectoryOutput) (v : list Metadata) :=
  {| prefix := prefix l; directory := directory l; limit := limit l; filesRead := v;
     directoriesRead := directoriesRead l; nextPageCalled := nextPageCalled l;
     isEOF := isEOF l |}.

Definition withDirectories (l : localListObjectsFromDirectoryOutput) (v : list Metadata) :=
  {| prefix := prefix l; directory := directory l; limit := limit l; filesRead := filesRead l;
     directoriesRead := v; nextPageCalled := nextPageCalled l; isEOF := isEOF l |}.

Definition withNextPageCalled (l : localListObjectsFromDirectoryOutput) (v : bool) :=
  {| prefix := prefix l; directory := directory l; limit := limit l; filesRead := filesRead l;
     directoriesRead := directoriesRead l; nextPageCalled := v; isEOF := isEOF l |}.

Definition withEOF (l : localListObjectsFromDirectoryOutput) (v : bool) :=
  {| prefix := prefix l; directory := directory l; limit := limit l; filesRead := filesRead l;
     directoriesRead := directoriesRead l; nextPageCalled := nextPageCalled l; isEOF := v |}.

Definition withDirectory (l : localListObjectsFromDirectoryOutput) (v : option os.File) :=
  {| prefix := prefix l; directory := v; limit := limit l; filesRead := filesRead l;
     directoriesRead := directoriesRead l; nextPageCalled := nextPageCalled l;
     isEOF := isEOF l |}.

(** [&localListObjectsFromDirectoryOutput{directory: d, prefix: p, limit: n}] *)
Definition newPage (d : option os.File) (p : string) (n : Z) :=
  {| prefix := p; directory := d; limit := n; filesRead := []; directoriesRead := [];
     nextPageCalled := false; isEOF := false |}.

Definition zeroPage : localListObjectsFromDirectoryOutput := newPage None "" 0.

(** A pointer to a page: its index in the heap of pages. *)
Definition loc : Type := nat.

Section Backend.

Context {W : Type} `{os.API W}.

Record State : Type := mkState {
  world : W;
  calls : list os.Call;
  pages : list localListObjectsFromDirectoryOutput
}.

Definition called (c : os.Call) (w : W) (st : State) : State :=
  {| world := w; calls := calls st ++ [c]; pages := pages st |}.

Definition os_Open (name : string) : M State (os.File + error) :=
  fun st => let r := os.Open name (world st) in (r.1, called (os.CallOpen name) r.2 st).

Definition File_Stat (f : os.File) : M State (os.FileInfo + error) :=
  fun st => let r := os.Stat f (world st) in (r.1, called (os.CallStat f) r.2 st).

(** ReadDir through a [*os.File]; a nil file answers os.ErrInvalid. *)
Definition File_ReadDir (f : option os.File) (n : Z) : M State (list os.DirEntry * option error) :=
  match f with
  | Some f =>
      fun st => let r := os.ReadDir f n (world st) in (r.1, called (os.CallReadDir f n) r.2 st)
  | None => ret ([], Some os_ErrInvalid)
  end.

Definition alloc (pg : localListObjectsFromDirectoryOutput) : M State loc :=
  fun st => (length (pages st),
             {| world := world st; calls := calls st; pages := pages st ++ [pg] |}).

Definition load (l : loc) : M State localListObjectsFromDirectoryOutput :=
  fun st => (default zeroPage (pages st !! l), st).

Definition store (l : loc) (pg : localListObjectsFromDirectoryOutput) : M State unit :=
  fun st => (tt, {| world := world st; calls := calls st; pages := <[l := pg]> (pages st) |}).

(** The body of [for _, e := range entries]. *)
Definition entryStep (prefix : string)
    (r : localListObjectsFromDirectoryOutput) (e : os.DirEntry) :=
  let m := {| Path := path.Join [prefix; os.Name e]; LastModified := time.zero |} in
  if os.IsDir e then withDirectories r (directoriesRead r ++ [m])
  else withFiles r (filesRead r ++ [m]).

(** The page NextPage builds from what ReadDir returned, and its error. *)
Definition pageOfEntries (l : localListObjectsFromDirectoryOutput)
    (entries : list os.DirEntry) (err : option error)
    : localListObjectsFromDirectoryOutput * option error :=
  let r := newPage (directory l) (prefix l) (limit l) in
  let r := fold_left (entryStep (prefix l)) entries r in
  let eof :=
    (0 <? limit l)%Z && match err with Some e => errors_Is e io_EOF | None => false end
    || (limit l <=? 0)%Z && match err with Some _ => false | None => true end in
  let r := withEOF r eof in
  let err := if eof && match err with Some _ => false | None => true end
             then Some io_EOF (* always returns io.EOF if EOF *)
             else err in
  (r, err).

Definition NextPage (l : loc) : M State (option loc * option error) :=
  pg <- load l ;;
  if nextPageCalled pg then
    ret (None, Some (errors_New "you cannot call NextPage more than once"))
  else if isEOF pg then
    r <- alloc (withEOF (newPage (directory pg) (prefix pg) (limit pg)) true) ;;
    ret (Some r, Some io_EOF)
  else
    read <- File_ReadDir (directory pg) (limit pg) ;;
    let page := pageOfEntries pg read.1 read.2 in
    _ <- store l (withNextPageCalled pg true) ;;
    r <- alloc page.1 ;;
    ret (Some r, page.2).

(** ListObjectsFromDirectory lists all objects under prefix, always with
    depth 1, returning at most limit objects (directories + files). *)
Definition ListObjectsFromDirectory (b : LocalFilesystemBackend) (prefix : string) (limit : Z)
    : M State (option loc * option error) :=
  let output := newPage None prefix limit in
  let fullPath := path.Join [RootDirectory b; prefix] in
  res <- os_Open fullPath ;;
  match res with
  | inr err =>
      if os_IsNotExist err then
        output <- alloc (withEOF output true) ;;
        ret (Some output, None)
      else ret (None, Some err)
  | inl f =>
      res <- File_Stat f ;;
      match res with
      | inr err => ret (None, Some err)
      | inl fi =>
          if negb (os.info_IsDir fi) then
            ret (None, Some (errors_New "prefix is not a directory"))
          else
            output <- alloc (withDirectory output (Some f)) ;;
            NextPage output
      end
  end.

End Backend.

Arguments State : clear implicits.

End Local.

(* ===================================================================== *)
(** * Reference services                                                   *)
(* ===================================================================== *)

(** ** An S3 service in memory

    One bucket of objects, answering by the documented behaviour of the
    operations the backend calls, behind a network that fails the requests a
    script says: the head of [faults] decides the next request, [Some e]
    fails it with [e] and leaves the bucket as it is. *)
Module S3Service.

Record Stored : Type := mkStored {
  content : list Byte.byte;
  modified : time.Time
}.

Record Service : Type := mkService {
  bucket : string;
  store : gmap string Stored;
  faults : list (option error)
}.

Definition withStore (w : Service) (v : gmap string Stored) : Service :=
  {| bucket := bucket w; store := v; faults := faults w |}.

(** The next request passes the network or fails. *)
Definition arrive (w : Service) : option error * Service :=
  match faults w with
  | fault :: rest => (fault, {| bucket := bucket w; store := store w; faults := rest |})
  | [] => (None, w)
  end.

Definition NoSuchBucket : error := awserr_Error "NoSuchBucket" "The specified bucket does not exist".
Definition NotFound : error := awserr_Error "NotFound" "Not Found".
Definition NoSuchKey : error := awserr_Error "NoSuchKey" "The specified key does not exist.".
Definition InvalidArgument : error := awserr_Error "InvalidArgument" "Invalid Argument".

Definition headObject (i : s3.HeadObjectInput) (w : Service) : option error * Service :=
  let a := arrive w in
  match a.1 with
  | Some e => (Some e, a.2)
  | None =>
      if negb (String.eqb (s3.head_Bucket i) (bucket w)) then (Some NoSuchBucket, a.2)
      else match store w !! s3.head_Key i with
           | Some _ => (None, a.2)
           | None => (Some NotFound, a.2)
           end
  end.

(** The keys of the bucket in the order of a listing. *)
Definition sortedKeys (w : Service) : list string :=
  merge_sort String.le (map fst (map_to_list (store w))).

(** An entry of a listing: a key, or the common prefix that rolls up the keys
    with a delimiter after the listing's prefix. *)
Inductive Entry : Type :=
| EntryKey (key : string)
| EntryPrefix (commonPrefix : string).

Definition entryName (e : Entry) : string :=
  match e with EntryKey k => k | EntryPrefix p => p end.

Definition entryOf (prefix : string) (delimiter : option string) (key : string) : option Entry :=
  match strings.stripPrefix key prefix with
  | None => None
  | Some rest =>
      match delimiter with
      | Some (String d EmptyString) =>
          match strings.Split rest d with
          | first :: _ :: _ => Some (EntryPrefix (prefix +:+ first +:+ String d ""))
          | _ => Some (EntryKey key)
          end
      | _ => Some (EntryKey key)
      end
  end.

(** Consecutive keys under one common prefix make one entry. *)
Fixpoint rollUp (entries : list Entry) : list Entry :=
  match entries with
  | [] => []
  | e :: rest =>
      match rollUp rest with
      | e' :: rest' =>
          if String.eqb (entryName e) (entryName e') then e' :: rest' else e :: e' :: rest'
      | [] => [e]
      end
  end.

(** The entries after the one a continuation token names. *)
Fixpoint after (token : string) (entries : list Entry) : list Entry :=
  match entries with
  | [] => []
  | e :: rest => if String.eqb (entryName e) token then rest else after token rest
  end.

Definition listObjectsV2 (i : s3.ListObjectsV2Input) (w : Service)
    : (s3.ListObjectsV2Output + error) * Service :=
  let a := arrive w in
  match a.1 with
  | Some e => (inr e, a.2)
  | None =>
      if negb (String.eqb (s3.list_Bucket i) (bucket w)) then (inr NoSuchBucket, a.2)
      else
        let maxKeys := match s3.list_MaxKeys i with Some n => n | None => 1000%Z end in
        if (maxKeys <? 0)%Z then (inr InvalidArgument, a.2)
        else
          let all := rollUp (omap (entryOf (s3.list_Prefix i) (s3.list_Delimiter i))
                                  (sortedKeys w)) in
          let pending := match s3.list_ContinuationToken i with
                         | Some token => after token all
                         | None => all
                         end in
          let n := Z.to_nat (Z.min maxKeys 1000) in
          let page := take n pending in
          let truncated := negb (bool_decide (drop n pending = [])) && (0 <? n)%nat in
          (inl {| s3.CommonPrefixes :=
                    omap (fun e => match e with
                                   | EntryPrefix p => Some {| s3.Prefix := Some p |}
                                   | EntryKey _ => None
                                   end) page;
                  s3.Contents :=
                    omap (fun e => match e with
                                   | EntryKey k =>
                                       Some {| s3.Key := Some k;
                                               s3.LastModified := modified <$> store w !! k |}
                                   | EntryPrefix _ => None
                                   end) page;
                  s3.IsTruncated := Some truncated;
                  s3.KeyCount := Some (Z.of_nat (length page));
                  s3.ContinuationToken := s3.list_ContinuationToken i;
                  s3.NextContinuationToken :=
                    if truncated then entryName <$> last page else None |},
           a.2)
  end.

(** The key a CopySource names in the bucket. *)
Definition sourceKey (w : Service) (copySource : string) : option string :=
  match url.PathUnescape copySource with
  | Some source => strings.stripPrefix source (bucket w +:+ "/")
  | None => None
  end.

Definition copyObject (i : s3.CopyObjectInput) (w : Service) : option error * Service :=
  let a := arrive w in
  match a.1 with
  | Some e => (Some e, a.2)
  | None =>
      if negb (String.eqb (s3.copy_Bucket i) (bucket w)) then (Some NoSuchBucket, a.2)
      else match sourceKey w (s3.copy_CopySource i) with
           | None => (Some InvalidArgument, a.2)
           | Some src =>
               match store w !! src with
               | None => (Some NoSuchKey, a.2)
               | Some o => (None, withStore a.2 (<[s3.copy_Key i := o]> (store w)))
               end
           end
  end.

Definition deleteObject (i : s3.DeleteObjectInput) (w : Service) : option error * Service :=
  let a := arrive w in
  match a.1 with
  | Some e => (Some e, a.2)
  | None =>
      if negb (String.eqb (s3.delete_Bucket i) (bucket w)) then (Some NoSuchBucket, a.2)
      else (None, withStore a.2 (delete (s3.delete_Key i) (store w)))
  end.

Definition bytesToString (l : list Byte.byte) : string := string_of_list_byte l.

Definition getObject (i : s3.GetObjectInput) (w : Service)
    : (s3.GetObjectOutput + error) * Service :=
  let a := arrive w in
  match a.1 with
  | Some e => (inr e, a.2)
  | None =>
      if negb (String.eqb (s3.get_Bucket i) (bucket w)) then (inr NoSuchBucket, a.2)
      else match store w !! s3.get_Key i with
           | None => (inr NoSuchKey, a.2)
           | Some o =>
               let unmodifiedOk := match s3.IfUnmodifiedSince i with
                                   | Some t => (modified o <=? t)%Z
                                   | None => true
                                   end in
               let modifiedOk := match s3.IfModifiedSince i with
                                 | Some t => (t <? modified o)%Z
                                 | None => true
                                 end in
               if negb unmodifiedOk
               then (inr (awserr_Error "PreconditionFailed" "Precondition Failed"), a.2)
               else if negb modifiedOk
               then (inr (awserr_Error "NotModified" "Not Modified"), a.2)
               else
                 (inl {| s3.ResponseBody := {| s3.bodyData := bytesToString (content o);
                                               s3.bodyErr := None |};
                         s3.CacheControl := None;
                         s3.Expires := None;
                         s3.ContentDisposition := None;
                         s3.ContentEncoding := None;
                         s3.ContentLanguage := None;
                         s3.ContentLength := Some (Z.of_nat (length (content o)));
                         s3.ContentRange := None;
                         s3.ContentType := Some "binary/octet-stream";
                         s3.ETag := None;
                         s3.ObjectLastModified := Some (modified o) |},
                  a.2)
           end
  end.

#[global] Instance api : s3.API Service := {|
  s3.HeadObject := headObject;
  s3.ListObjectsV2 := listObjectsV2;
  s3.CopyObject := copyObject;
  s3.DeleteObject := deleteObject;
  s3.GetObject := getObject
|}.

(** The content of the bucket, by key. *)
Definition objectsOf (w : Service) (b : string) : gmap string (list Byte.byte) :=
  if String.eqb b (bucket w) then content <$> store w else ∅.

(** A bucket from a list of keys with their content. *)
Definition serviceOf (b : string) (objs : list (string * list Byte.byte))
    (fs : list (option error)) : Service :=
  {| bucket := b;
     store := list_to_map (map (fun kv => (kv.1, {| content := kv.2; modified := 0%Z |})) objs);
     faults := fs |}.

End S3Service.

(** ** A client that replays recorded answers

    For the answers a bucket in memory does not give (a Content-Range, for
    one): every request takes the next recorded answer of its kind; without
    one, a HeadObject finds nothing, a listing is empty and a GetObject finds
    no key. *)
Module Replay.

Record Tape : Type := mkTape {
  heads : list (option error);
  lists : list (s3.ListObjectsV2Output + error);
  gets : list (s3.GetObjectOutput + error)
}.

Definition emptyList : s3.ListObjectsV2Output :=
  {| s3.CommonPrefixes := []; s3.Contents := []; s3.IsTruncated := Some false;
     s3.KeyCount := Some 0%Z; s3.ContinuationToken := None;
     s3.NextContinuationToken := None |}.

#[global] Instance api : s3.API Tape := {|
  s3.HeadObject _ w :=
    match heads w with
    | a :: rest => (a, {| heads := rest; lists := lists w; gets := gets w |})
    | [] => (Some S3Service.NotFound, w)
    end;
  s3.ListObjectsV2 _ w :=
    match lists w with
    | a :: rest => (a, {| heads := heads w; lists := rest; gets := gets w |})
    | [] => (inl emptyList, w)
    end;
  s3.CopyObject _ w := (None, w);
  s3.DeleteObject _ w := (None, w);
  s3.GetObject _ w :=
    match gets w with
    | a :: rest => (a, {| heads := heads w; lists := lists w; gets := rest |})
    | [] => (inr S3Service.NoSuchKey, w)
    end
|}.

End Replay.

(** ** A file system in memory *)
Module FileSystem.

Inductive Node : Type :=
| RegularFile (modTime : time.Time) (content : list Byte.byte)
| Directory (modTime : time.Time) (entries : list os.DirEntry).

(** The nodes by name, and the open files: the name each was opened by and
    the directory entries it has not read yet. *)
Record FS : Type := mkFS {
  nodes : gmap string Node;
  opened : list (string * list os.DirEntry)
}.

Definition open (name : string) (fs : FS) : (os.File + error) * FS :=
  match nodes fs !! name with
  | None => (inr (PathError "open" name ENOENT), fs)
  | Some node =>
      let entries := match node with Directory _ es => es | RegularFile _ _ => [] end in
      (inl (length (opened fs)),
       {| nodes := nodes fs; opened := opened fs ++ [(name, entries)] |})
  end.

Definition stat (f : os.File) (fs : FS) : (os.FileInfo + error) * FS :=
  match opened fs !! f with
  | None => (inr os_ErrInvalid, fs)
  | Some (name, _) =>
      match nodes fs !! name with
      | None => (inr (PathError "stat" name ENOENT), fs)
      | Some (RegularFile t _) => (inl {| os.info_IsDir := false; os.ModTime := t |}, fs)
      | Some (Directory t _) => (inl {| os.info_IsDir := true; os.ModTime := t |}, fs)
      end
  end.

(** ReadDir: with n > 0 at most n entries, and io.EOF with none at the end of
    the directory; with n <= 0 all the remaining entries and no error. *)
Definition readDir (f : os.File) (n : Z) (fs : FS) : (list os.DirEntry * option error) * FS :=
  match opened fs !! f with
  | None => (([], Some os_ErrInvalid), fs)
  | Some (name, pending) =>
      match nodes fs !! name with
      | Some (Directory _ _) =>
          if (0 <? n)%Z then
            let k := Z.to_nat n in
            ((take k pending, match pending with [] => Some io_EOF | _ => None end),
             {| nodes := nodes fs; opened := <[f := (name, drop k pending)]> (opened fs) |})
          else
            ((pending, None),
             {| nodes := nodes fs; opened := <[f := (name, [])]> (opened fs) |})
      | _ => (([], Some (PathError "readdirent" name ENOTDIR)), fs)
      end
  end.

#[global] Instance api : os.API FS := {|
  os.Open := open;
  os.Stat := stat;
  os.ReadDir := readDir
|}.

End FileSystem.

(** ** The worlds of the examples *)

(** A backend on the bucket "bkt" under the root prefix "charts". *)
Definition chartsBackend : Amazon.AmazonS3Backend :=
  Amazon.NewAmazonS3Backend "bkt" "/charts/" "".

(** A backend on the bucket "bkt" without a root prefix. *)
Definition rootBackend : Amazon.AmazonS3Backend :=
  Amazon.NewAmazonS3Backend "bkt" "" "".

Definition SlowDown : error := awserr_Error "SlowDown" "Please reduce your request rate.".

(** An S3 state to run the backend in, from nothing sent and no page. *)
Definition startS3 {W : Type} (w : W) : Amazon.State W :=
  {| Amazon.world := w; Amazon.calls := []; Amazon.pages := [] |}.

(** "charts/old/a.tgz" and "charts/new/b.tgz" in the bucket. *)
Definition occupiedBucket : S3Service.Service :=
  S3Service.serviceOf "bkt" [("charts/old/a.tgz", []); ("charts/new/b.tgz", [])] [].

(** "old.tgz" in the bucket; the first request passes, the second fails. *)
Definition flakyBucket : S3Service.Service :=
  S3Service.serviceOf "bkt" [("old.tgz", [Byte.x01; Byte.x02])] [None; Some SlowDown].

(** An answer to a range request: ten bytes of an object of 500. *)
Definition partialAnswer : s3.GetObjectOutput :=
  {| s3.ResponseBody := {| s3.bodyData := "0123456789"; s3.bodyErr := None |};
     s3.CacheControl := None;
     s3.Expires := None;
     s3.ContentDisposition := None;
     s3.ContentEncoding := None;
     s3.ContentLanguage := None;
     s3.ContentLength := Some 10%Z;
     s3.ContentRange := Some "bytes 0-9/500";
     s3.ContentType := Some "application/gzip";
     s3.ETag := Some "etag";
     s3.ObjectLastModified := None |}.

(** A client whose next GetObject gives that answer. *)
Definition partialTape : Replay.Tape :=
  {| Replay.heads := []; Replay.lists := []; Replay.gets := [inl partialAnswer] |}.

(** A GET request without conditions, and a ResponseWriter nothing was done
    to. *)
Definition getRequest : http.Request := {| http.Method := "GET"; http.Header := [] |}.

Definition freshWriter : http.ResponseWriter := {| http.events := []; http.writeErr := None |}.

(** Stand-ins for http.ParseTime and the HTTP date format where the request
    has no date and the answer no Last-Modified. *)
Definition noDate (s : string) : option time.Time := None.
Definition noFormat (t : time.Time) : string := "".

(** "charts/a.tgz", "charts/b.tgz" and "charts/dir/x.tgz" in the bucket,
    behind a network that fails the requests [faults] says. *)
Definition threeKeys (faults : list (option error)) : S3Service.Service :=
  S3Service.serviceOf "bkt"
    [("charts/a.tgz", []); ("charts/b.tgz", []); ("charts/dir/x.tgz", [])] faults.

(** A backend on the directory "/data". *)
Definition dataBackend : Local.LocalFilesystemBackend :=
  {| Local.RootDirectory := "/data" |}.

(** "/data" with the file "a.tgz" and the directory "sub". *)
Definition dataFS : FileSystem.FS :=
  {| FileSystem.nodes :=
       list_to_map
         [ ("/data", FileSystem.Directory 0%Z
                       [ {| os.Name := "a.tgz"; os.IsDir := false |};
                         {| os.Name := "sub"; os.IsDir := true |} ]);
           ("/data/a.tgz", FileSystem.RegularFile 0%Z []);
           ("/data/sub", FileSystem.Directory 0%Z []) ];
     FileSystem.opened := [] |}.

(** A state to run the local backend in, from nothing called and no page. *)
Definition startLocal {W : Type} (w : W) : Local.State W :=
  {| Local.world := w; Local.calls := []; Local.pages := [] |}.

(* ===================================================================== *)
(** * Notions the statements use                                           *)
(* ===================================================================== *)

(** The total size a Content-Range declares: the piece after its first "/",
    without surrounding white space, read as a decimal 64-bit integer. *)
Definition rangeTotal (contentRange : string) : option Z :=
  match strings.Split contentRange "/" with
  | _ :: total :: _ => strconv.ParseInt (strings.TrimSpace total)
  | _ => None
  end.

(** The answer carries a Content-Range whose total size parses and differs
    from the Content-Length it carries. *)
Definition partialContent (out : s3.GetObjectOutput) : Prop :=
  exists (contentRange : string) (length total : Z),
    s3.ContentRange out = Some contentRange /\
    s3.ContentLength out = Some length /\
    rangeTotal contentRange = Some total /\
    total <> length.

(** The error of a second NextPage on a page. *)
Definition doubleAdvance : error := errors_New "you cannot call NextPage more than once".

(** The path an S3 page gives a key or a common prefix of the answer, [None]
    for the ones it drops: the empty ones and those whose path is "/". *)
Definition keptEntry (backendPrefix key : string) : option string :=
  if String.eqb key "" then None
  else
    let p := Amazon.entryPath backendPrefix key in
    if String.eqb p "/" then None else Some p.

(** The path the local backend gives an entry of a directory. *)
Definition localEntryPath (prefix : string) (e : os.DirEntry) : string :=
  path.Join [prefix; os.Name e].

(** What the loops append, as list comprehensions. *)
Definition removedOf (cos : gmap string Object) (prev : list Object) : list Object :=
  filter (fun p : Object => cos !! Path p = None) prev.

Definition updatedOf (cos : gmap string Object) (t : time.Duration) (prev : list Object)
    : list Object :=
  omap (fun p : Object =>
          match (cos !! Path p : option Object) with
          | Some c =>
              if (time.Sub (LastModified c) (LastModified p) >? t)%Z then Some c else None
          | None => None
          end) prev.

Definition addedOf (pos : gmap string Object) (curr : list Object) : list Object :=
  filter (fun c : Object => pos !! Path c = None) curr.

(** A string without the separator: it splits into itself. *)
Definition atom (sep : ascii) (e : string) : Prop := strings.Split e sep = [e].

(** A run of [n] separators. *)
Fixpoint slashes (n : nat) : string :=
  match n with
  | O => ""
  | S n' => String "/" (slashes n')
  end.

(* ===================================================================== *)
(** * src/amazon.go, second part: HasExtension                             *)
(* ===================================================================== *)

(** ** package path/filepath (on a system whose separator is "/") *)
Module filepath.

(** Does the string hold a dot or a separator? *)
Fixpoint decided (s : string) : bool :=
  match s with
  | EmptyString => false
  | String c s' => Ascii.eqb c "." || Ascii.eqb c "/" || decided s'
  end.

(** filepath.Ext: the suffix beginning at the final dot in the final element
    of the path; empty if there is no dot. The library scans from the end and
    stops at the first dot or separator it meets; here the scan runs from the
    front and passes every byte that a dot or a separator follows. *)
Fixpoint Ext (path : string) : string :=
  match path with
  | EmptyString => ""
  | String c rest =>
      if decided rest then Ext rest
      else if Ascii.eqb c "." then path else ""
  end.

End filepath.

(** HasExtension determines whether or not an object contains a file
    extension: [filepath.Ext(object.Path) == fmt.Sprintf(".%s", extension)]. *)
Definition HasExtension (object : Object) (extension : string) : bool :=
  String.eqb (filepath.Ext (Path object)) ("." +:+ extension).

(** A date header of a request that is present and is no HTTP date, for
    [parseTime] as http.ParseTime. *)
Definition malformedDate (parseTime : string -> option time.Time)
    (r : http.Request) (key : string) : Prop :=
  http.Get (http.Header r) key <> "" /\
  parseTime (http.Get (http.Header r) key) = None.

(* ===================================================================== *)
(** * src/amazon.go: ListObjects                                           *)
(* ===================================================================== *)

(** How a call ends: it returns, it panics (a nil pointer is dereferenced or
    a slice is indexed out of its range), or, for a loop given some rounds of
    fuel, it is still running when they are spent. *)
Inductive Outcome (A : Type) : Type :=
| Returns (a : A)
| Panics
| Running.

Arguments Returns {A} a.
Arguments Panics {A}.
Arguments Running {A}.

(** The operation ListObjects of the S3 client, the first version of the
    listing: it pages by a marker, the key to start after. *)
Module s3v1.

Record ListObjectsInput : Type := mkListObjectsInput {
  Bucket : string;
  Prefix : string;
  Marker : option string
}.

Record ListObjectsOutput : Type := mkListObjectsOutput {
  Contents : list s3.Object;
  IsTruncated : option bool
}.

Class API (W : Type) : Type := {
  ListObjects : ListObjectsInput -> W -> (ListObjectsOutput + error) * W
}.

(** An exchange with the service: a request and its answer. *)
Definition Exchange : Type := ListObjectsInput * (ListObjectsOutput + error).

(** The objects an exchange was answered with. *)
Definition answered (x : Exchange) : list s3.Object :=
  match x.2 with
  | inl output => Contents output
  | inr _ => []
  end.

(** The exchanges of a listing that starts with the request [s3Input]: every
    request but the last was answered with a truncated listing, and the
    request after it repeats the bucket and the prefix and carries, as its
    marker, the key of the last object of that answer. *)
Fixpoint paged (s3Input : ListObjectsInput) (xs : list Exchange) : Prop :=
  match xs with
  | [] => True
  | x :: rest =>
      x.1 = s3Input /\
      match rest with
      | [] => True
      | _ :: _ =>
          exists (output : ListObjectsOutput) (obj : s3.Object),
            x.2 = inl output /\
            IsTruncated output = Some true /\
            last (Contents output) = Some obj /\
            paged {| Bucket := Bucket s3Input;
                     Prefix := Prefix s3Input;
                     Marker := s3.Key obj |} rest
      end
  end.

End s3v1.

Module AmazonListObjects.

Section Backend.

Context {W : Type} `{s3v1.API W}.

(** The service behind the client and the exchanges with it so far. *)
Record State : Type := mkState {
  world : W;
  exchanges : list s3v1.Exchange
}.

Definition Client_ListObjects (i : s3v1.ListObjectsInput)
    : M State (s3v1.ListObjectsOutput + error) :=
  fun st => let r := s3v1.ListObjects i (world st) in
            (r.1, {| world := r.2; exchanges := exchanges st ++ [(i, r.1)] |}).

(** The body of [for _, obj := range s3Result.Contents]; [None] when it
    panics: [*obj.Key] and [*obj.LastModified] are dereferenced as they are. *)
Definition objectStep (prefix : string) (objects : list Object) (obj : s3.Object)
    : option (list Object) :=
  match s3.Key obj with
  | None => None
  | Some key =>
      let path := removePrefixFromObjectPath prefix key in
      if objectPathIsInvalid path then Some objects
      else
        match s3.LastModified obj with
        | None => None
        | Some lastModified =>
            let object := {| Object_Metadata := {| Path := path;
                                                   LastModified := lastModified |};
                             Content := [] |} in
            Some (objects ++ [object])
        end
  end.

Fixpoint objectSteps (prefix : string) (objects : list Object) (contents : list s3.Object)
    : option (list Object) :=
  match contents with
  | [] => Some objects
  | obj :: rest =>
      match objectStep prefix objects obj with
      | Some objects => objectSteps prefix objects rest
      | None => None
      end
  end.

(** [for { ... }] from the request [s3Input] and the objects gathered so
    far. *)
Fixpoint listLoop (fuel : nat) (s3Input : s3v1.ListObjectsInput) (prefix : string)
    (objects : list Object) : M State (Outcome (list Object * option error)) :=
  match fuel with
  | O => ret Running
  | S fuel' =>
      res <- Client_ListObjects s3Input ;;
      match res with
      | inr err => ret (Returns (objects, Some err))
      | inl s3Result =>
          match objectSteps prefix objects (s3v1.Contents s3Result) with
          | None => ret Panics
          | Some objects =>
              match s3v1.IsTruncated s3Result with
              | None => ret Panics
              | Some false => ret (Returns (objects, None))
              | Some true =>
                  (* s3Result.Contents[len(s3Result.Contents)-1].Key *)
                  match last (s3v1.Contents s3Result) with
                  | None => ret Panics
                  | Some obj =>
                      listLoop fuel'
                        {| s3v1.Bucket := s3v1.Bucket s3Input;
                           s3v1.Prefix := s3v1.Prefix s3Input;
                           s3v1.Marker := s3.Key obj |}
                        prefix objects
                  end
              end
          end
      end
  end.

(** ListObjects lists all objects in Amazon S3 bucket, at prefix. *)
Definition ListObjects (fuel : nat) (b : Amazon.AmazonS3Backend) (prefix : string)
    : M State (Outcome (list Object * option error)) :=
  let prefix := cleanPrefix (path.Join [Amazon.Prefix b; prefix]) in
  let s3Input := {| s3v1.Bucket := Amazon.Bucket b;
                    s3v1.Prefix := prefix;
                    s3v1.Marker := None |} in
  listLoop fuel s3Input prefix [].

End Backend.

Arguments State : clear implicits.

End AmazonListObjects.

(** A client of ListObjects that replays recorded answers; without one, the
    listing is empty and complete. *)
Module ReplayListObjects.

Definition Tape : Type := list (s3v1.ListObjectsOutput + error).

#[global] Instance api : s3v1.API Tape := {|
  s3v1.ListObjects _ w :=
    match w with
    | a :: rest => (a, rest)
    | [] => (inl {| s3v1.Contents := []; s3v1.IsTruncated := Some false |}, w)
    end
|}.

End ReplayListObjects.

(** The object ListObjects makes of an object of an answer, [None] for the
    ones it skips: those whose key, without the prefix and the "/" after it,
    is empty or holds a "/". *)
Definition listedObject (prefix : string) (obj : s3.Object) : option Object :=
  match s3.Key obj, s3.LastModified obj with
  | Some key, Some lastModified =>
      let path := removePrefixFromObjectPath prefix key in
      if objectPathIsInvalid path then None
      else Some {| Object_Metadata := {| Path := path; LastModified := lastModified |};
                   Content := [] |}
  | _, _ => None
  end.

(** Two answers to a listing at "charts": a truncated one with "charts/a.tgz"
    and "charts/sub/b.tgz", and a last one with "charts-old.tgz". *)
Definition chartsListing : ReplayListObjects.Tape :=
  [ inl {| s3v1.Contents := [ {| s3.Key := Some "charts/a.tgz"; s3.LastModified := Some 1%Z |};
                              {| s3.Key := Some "charts/sub/b.tgz";
                                 s3.LastModified := Some 2%Z |} ];
           s3v1.IsTruncated := Some true |};
    inl {| s3v1.Contents := [ {| s3.Key := Some "charts-old.tgz";
                                 s3.LastModified := Some 3%Z |} ];
           s3v1.IsTruncated := Some false |} ].

(** ** More worlds of the examples *)

(** A GET whose If-Modified-Since is no date. *)
Definition badDateRequest : http.Request :=
  {| http.Method := "GET"; http.Header := [("If-Modified-Since", "yesterday")] |}.

(** A GET of a range, on the condition of an entity tag. *)
Definition rangeRequest : http.Request :=
  {| http.Method := "GET";
     http.Header := [("Range", "bytes=0-9"); ("If-None-Match", "etag")] |}.

(** A HEAD request without conditions. *)
Definition headRequest : http.Request := {| http.Method := "HEAD"; http.Header := [] |}.

(** A ResponseWriter whose connection is gone. *)
Definition brokenWriter : http.ResponseWriter :=
  {| http.events := []; http.writeErr := Some (errors_New "broken pipe") |}.

(* ===================================================================== *)
(** * Notions the statements about a rename use                            *)
(* ===================================================================== *)

(** What the rename of a prefix moves of an object of a listing: its key and
    the key without the prefix, unless the key is nil or empty or nothing or
    only "/" is left of it without the prefix. *)
Definition movedKey (prefix : string) (obj : s3.Object) : option (string * string) :=
  match s3.Key obj with
  | Some key =>
      if String.eqb key "" then None
      else
        let rel := removePrefixFromObjectPath prefix key in
        if String.eqb rel "" || String.eqb rel "/" then None else Some (key, rel)
  | None => None
  end.

(** The two requests that move one key below [newPath]: the copy, and the
    delete through DeleteObject, which joins the root prefix to the key. *)
Definition moveRequests (b : Amazon.AmazonS3Backend) (newPath : string)
    (m : string * string) : list s3.Call :=
  [ s3.CallCopyObject
      {| s3.copy_Bucket := Amazon.Bucket b;
         s3.copy_CopySource := url.PathEscape (Amazon.Bucket b +:+ "/" +:+ m.1);
         s3.copy_Key := cleanPrefix (path.Join [Amazon.Prefix b; newPath; m.2]) |};
    s3.CallDeleteObject
      {| s3.delete_Bucket := Amazon.Bucket b;
         s3.delete_Key := cleanPrefix (path.Join [Amazon.Prefix b; m.1]) |} ].

(** The request of each round of the loop of a rename that has no
    continuation token. *)
Definition sourceList (b : Amazon.AmazonS3Backend) (path : string) : s3.ListObjectsV2Input :=
  {| s3.list_Bucket := Amazon.Bucket b;
     s3.list_Prefix := cleanPrefix (path.Join [Amazon.Prefix b; path]) +:+ "/";
     s3.list_Delimiter := None;
     s3.list_MaxKeys := None;
     s3.list_ContinuationToken := None |}.

(** The error of a request that could not be sent, as the SDK returns it. *)
Definition RequestError : error := awserr_Error "RequestError" "send request failed".



(* ===================================================================== *)
(** * src/amazon.go: GetObjectStream and GetObject                         *)
(* ===================================================================== *)

Module AmazonObjects.

(** ObjectStream: the meta information and the stream of the content, nil
    until it is set. *)
Record ObjectStream : Type := mkObjectStream {
  Stream_Metadata :> Metadata;
  Stream_Content : option s3.Body
}.

(** ioutil.ReadAll on the body of an answer: the bytes read and the error
    that ended the reading, nil at the end of the body. *)
Definition ioutil_ReadAll (body : s3.Body) : list Byte.byte * option error :=
  (list_byte_of_string (s3.bodyData body), s3.bodyErr body).

Section Backend.

Context {W : Type} `{s3.API W}.

(** The request of GetObjectStream: the key of the path, no condition. *)
Definition getInput (b : Amazon.AmazonS3Backend) (path : string) : s3.GetObjectInput :=
  {| s3.get_Bucket := Amazon.Bucket b;
     s3.get_Key := cleanPrefix (path.Join [Amazon.Prefix b; path]);
     s3.IfModifiedSince := None;
     s3.IfUnmodifiedSince := None;
     s3.IfMatch := None;
     s3.IfNoneMatch := None |}.

(** GetObjectStream retrieves an object stream from Amazon S3 bucket, at
    prefix. [*s3Result.LastModified] is dereferenced as it is. *)
Definition GetObjectStream (b : Amazon.AmazonS3Backend) (path : string)
    : M (Amazon.State W) (Outcome (ObjectStream * option error)) :=
  let object := {| Stream_Metadata := {| Path := path; LastModified := time.zero |};
                   Stream_Content := None |} in
  res <- Amazon.Client_GetObject (getInput b path) ;;
  match res with
  | inr err => ret (Returns (object, Some err))
  | inl s3Result =>
      match s3.ObjectLastModified s3Result with
      | None => ret Panics
      | Some lastModified =>
          ret (Returns ({| Stream_Metadata := {| Path := path; LastModified := lastModified |};
                           Stream_Content := Some (s3.ResponseBody s3Result) |}, None))
      end
  end.

(** GetObject retrieves an object from Amazon S3 bucket, at prefix. *)
Definition GetObject (b : Amazon.AmazonS3Backend) (path : string)
    : M (Amazon.State W) (Outcome (Object * option error)) :=
  res <- GetObjectStream b path ;;
  match res with
  | Returns (result, Some err) =>
      ret (Returns ({| Object_Metadata := {| Path := path; LastModified := time.zero |};
                       Content := [] |}, Some err))
  | Returns (result, None) =>
      match Stream_Content result with
      | None => ret Panics
      | Some body =>
          let read := ioutil_ReadAll body in
          match read.2 with
          | Some err =>
              ret (Returns ({| Object_Metadata := Stream_Metadata result; Content := [] |},
                            Some err))
          | None =>
              ret (Returns ({| Object_Metadata := Stream_Metadata result; Content := read.1 |},
                            None))
          end
      end
  | Panics => ret Panics
  | Running => ret Running
  end.

End Backend.

End AmazonObjects.

(* ===================================================================== *)
(** * src/unnamed/part_003: the objects of the local backend               *)
(* ===================================================================== *)

(** path.Dir: all but the last element of the path, cleaned: the path up to
    its last "/" is cut off and cleaned; without a "/", that is the empty
    path, whose clean form is ".". *)
Definition path_Dir (p : string) : string :=
  match strings.Split p "/" with
  | [] | [_] => path.Clean ""
  | elems => path.Clean (strings.Join (removelast elems) "/" +:+ "/")
  end.

(** More of the packages os, io and net/http, as the operations on objects
    use them. *)
Module files.

(** An io.Reader: what its calls of Read return, in order: the bytes read
    and the error. After them Read returns no byte and io.EOF. *)
Definition Reader : Type := list (list Byte.byte * option error).

(** The pieces of at most [n] elements a list is cut into, for [n] above
    zero; each of the [fuel] rounds takes a piece that is not empty. *)
Fixpoint chunksOf {A : Type} (fuel n : nat) (l : list A) : list (list A) :=
  match fuel with
  | O => []
  | S fuel' =>
      match l with
      | [] => []
      | _ :: _ => take n l :: chunksOf fuel' n (drop n l)
      end
  end.

Definition chunks {A : Type} (n : nat) (l : list A) : list (list A) :=
  chunksOf (length l) n l.

(** The reads of bytes.NewBuffer(content) into a buffer of [n] bytes: the
    next [n] bytes, or what is left of them, without an error, until the
    buffer is drained. *)
Definition bytes_NewBuffer (n : nat) (content : list Byte.byte) : Reader :=
  map (fun piece => (piece, None)) (chunks n content).

(** A call of the operating system or of the HTTP library. *)
Inductive Call : Type :=
| CallOpen (name : string)
| CallFileStat (f : os.File)
| CallReadAll (f : os.File)
| CallClose (f : os.File)
| CallStat (name : string)
| CallMkdirAll (name : string)
| CallCreate (name : string)
| CallWrite (f : os.File) (data : list Byte.byte)
| CallRemove (name : string)
| CallServeContent (name : string) (modtime : time.Time) (f : os.File).

(** The operations: os.Open and Stat on a file are those of [os.API];
    ioutil.ReadAll on a file gives the bytes read and the error, nil at the
    end of the file. *)
Class API (W : Type) `{os.API W} : Type := {
  ReadAll : os.File -> W -> (list Byte.byte * option error) * W;
  Close : os.File -> W -> option error * W;
  Stat : string -> W -> (os.FileInfo + error) * W;
  MkdirAll : string -> W -> option error * W;
  Create : string -> W -> (os.File + error) * W;
  Write : os.File -> list Byte.byte -> W -> option error * W;
  Remove : string -> W -> option error * W;
  ServeContent : http.ResponseWriter -> http.Request -> string -> time.Time -> os.File ->
                 W -> http.ResponseWriter * W
}.

(** The data of the calls of Write among some calls. *)
Definition written (calls : list Call) : list (list Byte.byte) :=
  omap (fun c => match c with CallWrite _ data => Some data | _ => None end) calls.

End files.

Module LocalObjects.

(** ObjectStream: the meta information and the stream of the content, nil
    until it is set. *)
Record ObjectStream : Type := mkObjectStream {
  Stream_Metadata :> Metadata;
  Stream_Content : option os.File
}.

Section Backend.

Context {W : Type} `{files.API W}.

(** The operating system and the calls made so far. *)
Record State : Type := mkState {
  world : W;
  calls : list files.Call
}.

Definition called (c : files.Call) (w : W) (st : State) : State :=
  {| world := w; calls := calls st ++ [c] |}.

Definition os_Open (name : string) : M State (os.File + error) :=
  fun st => let r := os.Open name (world st) in (r.1, called (files.CallOpen name) r.2 st).

Definition File_Stat (f : os.File) : M State (os.FileInfo + error) :=
  fun st => let r := os.Stat f (world st) in (r.1, called (files.CallFileStat f) r.2 st).

Definition ioutil_ReadAll (f : os.File) : M State (list Byte.byte * option error) :=
  fun st => let r := files.ReadAll f (world st) in (r.1, called (files.CallReadAll f) r.2 st).

Definition File_Close (f : os.File) : M State (option error) :=
  fun st => let r := files.Close f (world st) in (r.1, called (files.CallClose f) r.2 st).

Definition os_Stat (name : string) : M State (os.FileInfo + error) :=
  fun st => let r := files.Stat name (world st) in (r.1, called (files.CallStat name) r.2 st).

Definition os_MkdirAll (name : string) : M State (option error) :=
  fun st => let r := files.MkdirAll name (world st) in
            (r.1, called (files.CallMkdirAll name) r.2 st).

Definition os_Create (name : string) : M State (os.File + error) :=
  fun st => let r := files.Create name (world st) in
            (r.1, called (files.CallCreate name) r.2 st).

Definition File_Write (f : os.File) (data : list Byte.byte) : M State (option error) :=
  fun st => let r := files.Write f data (world st) in
            (r.1, called (files.CallWrite f data) r.2 st).

Definition os_Remove (name : string) : M State (option error) :=
  fun st => let r := files.Remove name (world st) in
            (r.1, called (files.CallRemove name) r.2 st).

Definition http_ServeContent (w : http.ResponseWriter) (r : http.Request) (name : string)
    (modtime : time.Time) (f : os.File) : M State http.ResponseWriter :=
  fun st => let res := files.ServeContent w r name modtime f (world st) in
            (res.1, called (files.CallServeContent name modtime f) res.2 st).

(** [&ObjectStream{}] with its Path set. *)
Definition streamAt (path : string) : ObjectStream :=
  {| Stream_Metadata := {| Path := path; LastModified := time.zero |};
     Stream_Content := None |}.

(** GetObjectStream retrieves an object stream from root directory. *)
Definition GetObjectStream (b : Local.LocalFilesystemBackend) (path : string)
    : M State (ObjectStream * option error) :=
  let object := streamAt path in
  let fullpath := path.Join [Local.RootDirectory b; path] in
  res <- os_Open fullpath ;;
  match res with
  | inr err => ret (object, Some err)
  | inl content =>
      res <- File_Stat content ;;
      match res with
      | inr err => ret (object, Some err)
      | inl info =>
          if os.info_IsDir info then
            ret (object, Some (errors_New "path must lead to a file, found directory"))
          else
            ret ({| Stream_Metadata := {| Path := path; LastModified := os.ModTime info |};
                    Stream_Content := Some content |}, None)
      end
  end.

(** GetObject retrieves an object from root directory. The deferred Close
    runs when the function returns after GetObjectStream succeeded; its
    error is dropped. Deferring the Close of a stream without content, a nil
    interface, panics. *)
Definition GetObject (b : Local.LocalFilesystemBackend) (path : string)
    : M State (Outcome (Object * option error)) :=
  res <- GetObjectStream b path ;;
  let result := res.1 in
  match res.2 with
  | Some err =>
      ret (Returns ({| Object_Metadata := {| Path := path; LastModified := time.zero |};
                       Content := [] |}, Some err))
  | None =>
      match Stream_Content result with
      | None => ret Panics
      | Some f =>
          read <- ioutil_ReadAll f ;;
          let object :=
            match read.2 with
            | Some err => ({| Object_Metadata := Stream_Metadata result; Content := [] |},
                           Some err)
            | None => ({| Object_Metadata := Stream_Metadata result; Content := read.1 |},
                       None)
            end in
          _ <- File_Close f ;;
          ret (Returns object)
      end
  end.

(** DeleteObject removes an object from root directory. *)
Definition DeleteObject (b : Local.LocalFilesystemBackend) (path : string)
    : M State (option error) :=
  let fullpath := path.Join [Local.RootDirectory b; path] in
  os_Remove fullpath.

(** The loop of PutObjectStream over the reads of [content], into the file
    [fp], and the [return fp.Close()] after it. *)
Fixpoint copyChunks (fp : os.File) (content : files.Reader) : M State (option error) :=
  match content with
  | [] =>
      (* Read gives no byte and io.EOF: n == 0 *)
      File_Close fp
  | (data, err) :: rest =>
      if match err with Some e => negb (bool_decide (e = io_EOF)) | None => false end then
        _ <- File_Close fp ;; ret err
      else if (length data =? 0)%nat then File_Close fp
      else
        (* write a chunk *)
        werr <- File_Write fp data ;;
        match werr with
        | Some e => _ <- File_Close fp ;; ret (Some e)
        | None => copyChunks fp rest
        end
  end.

(** PutObjectStream puts an object stream in root directory. *)
Definition PutObjectStream (b : Local.LocalFilesystemBackend) (path : string)
    (content : files.Reader) : M State (option error) :=
  let fullpath := path.Join [Local.RootDirectory b; path] in
  let folderPath := path_Dir fullpath in
  res <- os_Stat folderPath ;;
  made <- match res with
          | inr err =>
              if os_IsNotExist err then os_MkdirAll folderPath
              else ret (Some err)
          | inl _ => ret None
          end ;;
  match made with
  | Some err => ret (Some err)
  | None =>
      res <- os_Create fullpath ;;
      match res with
      | inr err => ret (Some err)
      | inl fp => copyChunks fp content
      end
  end.

(** PutObject puts an object in root directory: the content goes through a
    buffer that is read 4096 bytes at a time. *)
Definition PutObject (b : Local.LocalFilesystemBackend) (path : string)
    (content : list Byte.byte) : M State (option error) :=
  PutObjectStream b path (files.bytes_NewBuffer 4096 content).

(** HandleHttpFileDownload; [None] stands for the panic of closing, or of
    converting, a stream without content. *)
Definition HandleHttpFileDownload (b : Local.LocalFilesystemBackend)
    (w : http.ResponseWriter) (r : http.Request) (path : string)
    : M State (Outcome http.ResponseWriter) :=
  res <- GetObjectStream b path ;;
  let obj := res.1 in
  match res.2 with
  | Some err =>
      if os_IsNotExist err then ret (Returns (http.record w (http.WriteHeader http.StatusNotFound)))
      else ret (Returns (http.record w (http.WriteHeader http.StatusInternalServerError)))
  | None =>
      (* obj.Path[strings.LastIndex(obj.Path, "/")+1:] *)
      let name := default "" (last (strings.Split (Path obj) "/")) in
      match Stream_Content obj with
      | None => ret Panics
      | Some rs =>
          w <- http_ServeContent w r name (LastModified obj) rs ;;
          _ <- File_Close rs ;;
          ret (Returns w)
      end
  end.

End Backend.

Arguments State : clear implicits.

End LocalObjects.

(** What PutObjectStream takes from a reader: the bytes of its reads, up to
    the first read that gives no byte or an error other than io.EOF. *)
Fixpoint accepted (content : files.Reader) : list (list Byte.byte) :=
  match content with
  | [] => []
  | (data, err) :: rest =>
      if match err with Some e => negb (bool_decide (e = io_EOF)) | None => false end then []
      else if (length data =? 0)%nat then []
      else data :: accepted rest
  end.

(** ** The file system in memory, with its files

    The operations on files over [FileSystem.FS]: a file is read and written
    as a whole sequence of bytes, a handle is never reclaimed, MkdirAll makes
    the directory alone, and ServeContent sends the whole content in one
    Write. *)
Module Disk.

Definition nodeOf (fs : FileSystem.FS) (f : os.File) : option (string * FileSystem.Node) :=
  FileSystem.opened fs !! f ≫= fun o => pair o.1 <$> FileSystem.nodes fs !! o.1.

Definition withNodes (fs : FileSystem.FS) (v : gmap string FileSystem.Node) : FileSystem.FS :=
  {| FileSystem.nodes := v; FileSystem.opened := FileSystem.opened fs |}.

Definition readAll (f : os.File) (fs : FileSystem.FS)
    : (list Byte.byte * option error) * FileSystem.FS :=
  match nodeOf fs f with
  | Some (_, FileSystem.RegularFile _ content) => ((content, None), fs)
  | Some (name, FileSystem.Directory _ _) => (([], Some (PathError "read" name EIO)), fs)
  | None => (([], Some os_ErrInvalid), fs)
  end.

Definition statName (name : string) (fs : FileSystem.FS)
    : (os.FileInfo + error) * FileSystem.FS :=
  match FileSystem.nodes fs !! name with
  | Some (FileSystem.RegularFile t _) => (inl {| os.info_IsDir := false; os.ModTime := t |}, fs)
  | Some (FileSystem.Directory t _) => (inl {| os.info_IsDir := true; os.ModTime := t |}, fs)
  | None => (inr (PathError "stat" name ENOENT), fs)
  end.

Definition mkdirAll (name : string) (fs : FileSystem.FS) : option error * FileSystem.FS :=
  match FileSystem.nodes fs !! name with
  | Some (FileSystem.RegularFile _ _) => (Some (PathError "mkdir" name ENOTDIR), fs)
  | Some (FileSystem.Directory _ _) => (None, fs)
  | None => (None, withNodes fs (<[name := FileSystem.Directory 0%Z []]> (FileSystem.nodes fs)))
  end.

Definition create (name : string) (fs : FileSystem.FS) : (os.File + error) * FileSystem.FS :=
  match FileSystem.nodes fs !! name with
  | Some (FileSystem.Directory _ _) => (inr (PathError "open" name EACCES), fs)
  | _ =>
      (inl (length (FileSystem.opened fs)),
       {| FileSystem.nodes := <[name := FileSystem.RegularFile 0%Z []]> (FileSystem.nodes fs);
          FileSystem.opened := FileSystem.opened fs ++ [(name, [])] |})
  end.

Definition write (f : os.File) (data : list Byte.byte) (fs : FileSystem.FS)
    : option error * FileSystem.FS :=
  match nodeOf fs f with
  | Some (name, FileSystem.RegularFile t content) =>
      (None, withNodes fs (<[name := FileSystem.RegularFile t (content ++ data)]>
                             (FileSystem.nodes fs)))
  | _ => (Some os_ErrInvalid, fs)
  end.

Definition remove (name : string) (fs : FileSystem.FS) : option error * FileSystem.FS :=
  match FileSystem.nodes fs !! name with
  | Some _ => (None, withNodes fs (delete name (FileSystem.nodes fs)))
  | None => (Some (PathError "remove" name ENOENT), fs)
  end.

Definition serveContent (w : http.ResponseWriter) (r : http.Request) (name : string)
    (modtime : time.Time) (f : os.File) (fs : FileSystem.FS)
    : http.ResponseWriter * FileSystem.FS :=
  (http.record w (http.Write (string_of_list_byte (readAll f fs).1.1)), fs).

#[global] Instance api : files.API FileSystem.FS := {|
  files.ReadAll := readAll;
  files.Close _ fs := (None, fs);
  files.Stat := statName;
  files.MkdirAll := mkdirAll;
  files.Create := create;
  files.Write := write;
  files.Remove := remove;
  files.ServeContent := serveContent
|}.

End Disk.

(** A state to run the operations on objects in, from nothing called. *)
Definition startFiles {W : Type} (w : W) : LocalObjects.State W :=
  {| LocalObjects.world := w; LocalObjects.calls := [] |}.


(* ===================================================================== *)
(** * Checks of the library functions against their documented tables    *)
(* ===================================================================== *)

Example Split_range : strings.Split "bytes 0-99/500" "/" = ["bytes 0-99"; "500"].
Proof. reflexivity. Qed.

Example Split_empty : strings.Split "" "/" = [""].
Proof. reflexivity. Qed.

Example Trim_slashes : strings.Trim "//a/b/" "/" = "a/b".
Proof. reflexivity. Qed.

Example TrimSpace_total : strings.TrimSpace "  500 " = "500".
Proof. vm_compute. reflexivity. Qed.

Example HasSuffix_slash : strings.HasSuffix "root/" "/" = true.
Proof. reflexivity. Qed.

(** The table of the Go standard library's own test of Clean. *)
Example Clean_table :
  map path.Clean
    [ ""; "abc"; "abc/def"; "a/b/c"; "."; ".."; "../.."; "../../abc"; "/abc"; "/";
      "abc/"; "abc/def/"; "a/b/c/"; "./"; "../"; "../../"; "/abc/";
      "abc//def//ghi"; "//abc"; "///abc"; "//abc//"; "abc//";
      "abc/./def"; "/./abc/def"; "abc/.";
      "abc/def/ghi/../jkl"; "abc/def/../ghi/../jkl"; "abc/def/.."; "abc/def/../..";
      "/abc/def/../.."; "abc/def/../../.."; "/abc/def/../../..";
      "abc/def/../../../ghi/jkl/../../../mno";
      "abc/./../def"; "abc//./../def"; "abc/../../././../def" ]
  = [ "."; "abc"; "abc/def"; "a/b/c"; "."; ".."; "../.."; "../../abc"; "/abc"; "/";
      "abc"; "abc/def"; "a/b/c"; "."; ".."; "../.."; "/abc";
      "abc/def/ghi"; "/abc"; "/abc"; "/abc"; "abc";
      "abc/def"; "/abc/def"; "abc";
      "abc/def/jkl"; "abc/jkl"; "abc"; ".";
      "/"; ".."; "/";
      "../../mno";
      "def"; "def"; "../../def" ].
Proof. vm_compute. reflexivity. Qed.

Example Join_table :
  map path.Join
    [ []; [""]; ["a"]; ["a"; "b"]; ["a"; ""]; [""; "b"]; ["/"; "a"]; ["/"; ""];
      ["a/"; "b"]; ["a/"; ""]; [""; ""] ]
  = [ ""; ""; "a"; "a/b"; "a"; "b"; "/a"; "/"; "a/b"; "a"; "" ].
Proof. vm_compute. reflexivity. Qed.

Example ParseInt_table :
  map strconv.ParseInt ["500"; "-7"; "+12"; ""; "-"; "5x"; "9223372036854775807";
                        "9223372036854775808"; "-9223372036854775808"; "1_000"]
  = [Some 500; Some (-7); Some 12; None; None; None; Some 9223372036854775807;
     None; Some (-9223372036854775808); None]%Z.
Proof. vm_compute. reflexivity. Qed.

Example FormatInt_table :
  map strconv.FormatInt [0; 7; 100; -45; 9223372036854775807]%Z
  = ["0"; "7"; "100"; "-45"; "9223372036854775807"].
Proof. vm_compute. reflexivity. Qed.

(** The examples of the diff's documentation. *)
Example diff_correctness :
  GetObjectSliceDiff [obj "a" 0; obj "b" 0] [obj "b" 0; obj "c" 0] 0
  = {| Change := true; Removed := [obj "a" 0]; Added := [obj "c" 0]; Updated := [] |}.
Proof. vm_compute. reflexivity. Qed.

Example diff_tolerance_10s :
  GetObjectSliceDiff [obj "a" 0] [obj "a" (5 * time.Second)] (10 * time.Second)
  = {| Change := false; Removed := []; Added := []; Updated := [] |}.
Proof. vm_compute. reflexivity. Qed.

Example diff_tolerance_1s :
  GetObjectSliceDiff [obj "a" 0] [obj "a" (5 * time.Second)] (1 * time.Second)
  = {| Change := true; Removed := []; Added := [];
       Updated := [obj "a" (5 * time.Second)] |}.
Proof. vm_compute. reflexivity. Qed.

(* ===================================================================== *)
(** * GetObjectSliceDiff                                                   *)
(* ===================================================================== *)

Section Diff.

Implicit Types (prev curr objs : list Object) (m pos cos : gmap string Object).
Implicit Types (o p c : Object) (k : string) (t : time.Duration).
Implicit Types (d : ObjectSliceDiff).

Lemma index_fold_Some objs : forall m k o,
  (fold_left (fun (m : gmap string Object) (o : Object) => <[Path o := o]> m) objs m) !! k
    = Some o ->
  (o ∈ objs /\ Path o = k) \/ m !! k = Some o.
Proof.
  induction objs as [|x objs IH]; intros m k o H; simpl in H.
  - by right.
  - apply IH in H as [[Hin Hk] | H].
    + left. split; [by right | done].
    + destruct (decide (Path x = k)) as [<- | Hne].
      * rewrite lookup_insert_eq in H. injection H as <-. left. split; [by left | done].
      * rewrite lookup_insert_ne in H by done. by right.
Qed.

Lemma index_fold_None objs : forall m k,
  (fold_left (fun (m : gmap string Object) (o : Object) => <[Path o := o]> m) objs m) !! k
    = None <->
  (k ∉ paths objs) /\ (m !! k = None).
Proof.
  induction objs as [|x objs IH]; intros m k; simpl.
  - split; [intros H; split; [apply not_elem_of_nil | done] | by intros [_ H]].
  - rewrite IH, not_elem_of_cons. split.
    + intros [Hn H]. destruct (decide (Path x = k)) as [<- | Hne].
      * by rewrite lookup_insert_eq in H.
      * rewrite lookup_insert_ne in H by done. by intuition.
    + intros [[Hne Hn] H]. split; [done |].
      by rewrite lookup_insert_ne.
Qed.

(** The map of a slice holds, at a path, an object of the slice with that
    path. *)
Lemma indexByPath_Some objs k o :
  indexByPath objs !! k = Some o -> o ∈ objs /\ Path o = k.
Proof.
  intros H. apply index_fold_Some in H as [H | H]; [done |].
  by rewrite lookup_empty in H.
Qed.

(** The map of a slice is undefined exactly at the paths the slice lacks. *)
Lemma indexByPath_None objs k :
  indexByPath objs !! k = None <-> k ∉ paths objs.
Proof.
  unfold indexByPath. rewrite index_fold_None, lookup_empty. by intuition.
Qed.

Lemma indexByPath_is_Some objs k :
  is_Some (indexByPath objs !! k) <-> k ∈ paths objs.
Proof.
  rewrite <- not_eq_None_Some, indexByPath_None.
  split; [apply dec_stable | by intros ? ?].
Qed.

(** It holds the last object of the slice that carries the path. *)
Lemma indexByPath_last objs o :
  indexByPath (objs ++ [o]) !! Path o = Some o.
Proof.
  unfold indexByPath. rewrite fold_left_app. simpl. apply lookup_insert_eq.
Qed.

Lemma index_fold_other objs : forall m k,
  k ∉ paths objs ->
  (fold_left (fun (m : gmap string Object) (o : Object) => <[Path o := o]> m) objs m) !! k
  = m !! k.
Proof.
  induction objs as [|x objs IH]; intros m k Hk; simpl; [done |].
  apply not_elem_of_cons in Hk as [Hne Hk].
  rewrite IH by done. by rewrite lookup_insert_ne.
Qed.

(** In a slice without two objects of one path, it holds every object of
    the slice at its path. *)
Lemma indexByPath_NoDup objs o :
  NoDup (paths objs) -> o ∈ objs -> indexByPath objs !! Path o = Some o.
Proof.
  unfold indexByPath. generalize (∅ : gmap string Object).
  induction objs as [|x objs IH]; intros m Hnd Ho; [by apply elem_of_nil in Ho |].
  simpl in *. apply NoDup_cons in Hnd as [Hx Hnd].
  apply elem_of_cons in Ho as [-> | Ho].
  - rewrite index_fold_other by done. apply lookup_insert_eq.
  - by apply IH.
Qed.

Lemma fold_diffPrevStep cos t prev : forall d,
  fold_left (diffPrevStep cos t) prev d
  = {| Change := Change d;
       Removed := Removed d ++ removedOf cos prev;
       Added := Added d;
       Updated := Updated d ++ updatedOf cos t prev |}.
Proof.
  induction prev as [|p prev IH]; intros d; simpl.
  - unfold removedOf, updatedOf. simpl. rewrite !app_nil_r. by destruct d.
  - rewrite IH. unfold diffPrevStep, removedOf, updatedOf. simpl.
    rewrite filter_cons.
    destruct (cos !! Path p) as [c|] eqn:Hc; simpl.
    + destruct (time.Sub (LastModified c) (LastModified p) >? t)%Z; simpl;
        rewrite <- ?app_assoc; done.
    + by rewrite <- app_assoc.
Qed.

Lemma fold_diffCurrStep pos curr : forall d,
  fold_left (diffCurrStep pos) curr d
  = {| Change := Change d;
       Removed := Removed d;
       Added := Added d ++ addedOf pos curr;
       Updated := Updated d |}.
Proof.
  induction curr as [|c curr IH]; intros d; simpl.
  - unfold addedOf. simpl. rewrite app_nil_r. by destruct d.
  - rewrite IH. unfold diffCurrStep, addedOf. rewrite filter_cons.
    destruct (pos !! Path c) as [x|] eqn:Hc; simpl.
    + done.
    + by rewrite <- app_assoc.
Qed.

Lemma GetObjectSliceDiff_Removed prev curr t :
  Removed (GetObjectSliceDiff prev curr t) = removedOf (indexByPath curr) prev.
Proof.
  unfold GetObjectSliceDiff. rewrite fold_diffCurrStep, fold_diffPrevStep. done.
Qed.

Lemma GetObjectSliceDiff_Added prev curr t :
  Added (GetObjectSliceDiff prev curr t) = addedOf (indexByPath prev) curr.
Proof.
  unfold GetObjectSliceDiff. rewrite fold_diffCurrStep, fold_diffPrevStep. done.
Qed.

Lemma GetObjectSliceDiff_Updated prev curr t :
  Updated (GetObjectSliceDiff prev curr t) = updatedOf (indexByPath curr) t prev.
Proof.
  unfold GetObjectSliceDiff. rewrite fold_diffCurrStep, fold_diffPrevStep. done.
Qed.

Lemma elem_of_paths objs k : k ∈ paths objs <-> exists o, o ∈ objs /\ Path o = k.
Proof.
  unfold paths. rewrite list_elem_of_fmap. split; intros (o & ? & ?); exists o; done.
Qed.

(** A removed path is in the previous slice and not in the current one. *)
Lemma removed_path prev curr t k :
  k ∈ paths (Removed (GetObjectSliceDiff prev curr t)) ->
  k ∈ paths prev /\ k ∉ paths curr.
Proof.
  rewrite GetObjectSliceDiff_Removed, elem_of_paths.
  intros (o & Ho & <-). apply list_elem_of_filter in Ho as [Hn Ho].
  split; [apply elem_of_paths; eauto | by apply indexByPath_None].
Qed.

(** An added path is in the current slice and not in the previous one. *)
Lemma added_path prev curr t k :
  k ∈ paths (Added (GetObjectSliceDiff prev curr t)) ->
  k ∈ paths curr /\ k ∉ paths prev.
Proof.
  rewrite GetObjectSliceDiff_Added, elem_of_paths.
  intros (o & Ho & <-). apply list_elem_of_filter in Ho as [Hn Ho].
  split; [apply elem_of_paths; eauto | by apply indexByPath_None].
Qed.

Lemma updated_elem prev curr t c :
  c ∈ Updated (GetObjectSliceDiff prev curr t) <->
  exists p, p ∈ prev /\ indexByPath curr !! Path p = Some c /\
            (time.Sub (LastModified c) (LastModified p) > t)%Z.
Proof.
  rewrite GetObjectSliceDiff_Updated. unfold updatedOf. rewrite list_elem_of_omap.
  split.
  - intros (p & Hp & H). exists p. split; [done |].
    destruct (indexByPath curr !! Path p) as [c'|]; [| done].
    destruct (Z.gtb_spec (time.Sub (LastModified c') (LastModified p)) t); [| done].
    injection H as ->. split; [done | lia].
  - intros (p & Hp & Hc & Hgt). exists p. split; [done |]. rewrite Hc.
    destruct (Z.gtb_spec (time.Sub (LastModified c) (LastModified p)) t); [done | lia].
Qed.

(** An updated path is in both slices. *)
Lemma updated_path prev curr t k :
  k ∈ paths (Updated (GetObjectSliceDiff prev curr t)) ->
  k ∈ paths prev /\ k ∈ paths curr.
Proof.
  rewrite elem_of_paths. intros (c & Hc & <-).
  apply updated_elem in Hc as (p & Hp & Hc & _).
  apply indexByPath_Some in Hc as [Hc Hk]. rewrite Hk.
  split; apply elem_of_paths; eauto.
Qed.

End Diff.

(** ** The claims about the diff *)

(** C1 (as amended). GetObjectSliceDiff appends an object [c] to Updated
    exactly when some entry [p] of the previous slice has a path at which the
    current slice's map holds [c] and [c.LastModified.Sub(p.LastModified)] is
    strictly greater than the tolerance; for slices without two objects of one
    path that is: exactly when [c] is the current object of a path of the
    previous slice whose time stamp it exceeds by more than the tolerance. A
    path present in both slices, all of whose previous entries have a delta of
    at most the tolerance, is in none of Removed, Added and Updated; for a
    tolerance that is not negative this covers every path whose current time
    stamp is not after the previous ones. *)
Theorem GetObjectSliceDiff_updated_exactly (prev curr : list Object) (t : time.Duration) :
  let d := GetObjectSliceDiff prev curr t in
  (forall c : Object,
     c ∈ Updated d <->
     exists p : Object,
       p ∈ prev /\ indexByPath curr !! Path p = Some c /\
       (time.Sub (LastModified c) (LastModified p) > t)%Z)
  /\
  (NoDup (paths prev) -> NoDup (paths curr) ->
   forall p c : Object,
     p ∈ prev -> c ∈ curr -> Path c = Path p ->
     (c ∈ Updated d <-> (time.Sub (LastModified c) (LastModified p) > t)%Z))
  /\
  (forall k : string,
     k ∈ paths prev -> k ∈ paths curr ->
     (forall p c : Object,
        p ∈ prev -> Path p = k -> indexByPath curr !! k = Some c ->
        (time.Sub (LastModified c) (LastModified p) <= t)%Z) ->
     (k ∉ paths (Removed d)) /\ (k ∉ paths (Added d)) /\ (k ∉ paths (Updated d)))
  /\
  ((0 <= t)%Z ->
   forall k : string,
     k ∈ paths prev -> k ∈ paths curr ->
     (forall p c : Object,
        p ∈ prev -> Path p = k -> indexByPath curr !! k = Some c ->
        (LastModified c <= LastModified p)%Z) ->
     (k ∉ paths (Removed d)) /\ (k ∉ paths (Added d)) /\ (k ∉ paths (Updated d))).
Proof.
  intros d.
  assert (Hout : forall k : string,
     k ∈ paths prev -> k ∈ paths curr ->
     (forall p c : Object,
        p ∈ prev -> Path p = k -> indexByPath curr !! k = Some c ->
        (time.Sub (LastModified c) (LastModified p) <= t)%Z) ->
     (k ∉ paths (Removed d)) /\ (k ∉ paths (Added d)) /\ (k ∉ paths (Updated d))).
  { intros k Hp Hc Hle. repeat split.
    - intros H. apply removed_path in H as [_ H]. done.
    - intros H. apply added_path in H as [_ H]. done.
    - intros H. apply elem_of_paths in H as (c & Hin & Hk).
      apply updated_elem in Hin as (p & Hin & Hlk & Hgt).
      destruct (indexByPath_Some _ _ _ Hlk) as [_ Hpk].
      assert (Path p = k) as Hp' by congruence.
      rewrite Hp' in Hlk. specialize (Hle p c Hin Hp' Hlk). lia. }
  split; [intros c; apply updated_elem |].
  split.
  { intros Hnp Hnc p c Hp Hc Hpath. subst d. rewrite updated_elem. split.
    - intros (p' & Hp' & Hlk & Hgt).
      destruct (indexByPath_Some _ _ _ Hlk) as [_ Hk].
      assert (p' = p) as ->; [| done].
      pose proof (indexByPath_NoDup prev p' Hnp Hp') as E1.
      pose proof (indexByPath_NoDup prev p Hnp Hp) as E2.
      assert (Path p' = Path p) as Hpp by congruence.
      rewrite Hpp in E1. congruence.
    - intros Hgt. exists p. split; [done |]. split; [| done].
      rewrite <- Hpath. by apply indexByPath_NoDup. }
  split; [exact Hout |].
  intros Ht k Hp Hc Hle. apply Hout; [done .. |].
  intros p c Hin Hk Hlk. specialize (Hle p c Hin Hk Hlk).
  unfold time.Sub, time.minDuration, time.maxDuration. lia.
Qed.

(** The theorem at the slices of the documentation's tolerance example. *)
Lemma GetObjectSliceDiff_updated_exactly_witness :
  let d := GetObjectSliceDiff [obj "a" 0] [obj "a" (5 * time.Second)] (10 * time.Second) in
  ("a" ∉ paths (Removed d)) /\ ("a" ∉ paths (Added d)) /\ ("a" ∉ paths (Updated d)).
Proof.
  intros d.
  destruct (GetObjectSliceDiff_updated_exactly
              [obj "a" 0] [obj "a" (5 * time.Second)] (10 * time.Second)%Z)
    as (_ & _ & Hout & _).
  apply Hout.
  - apply list_elem_of_here.
  - apply list_elem_of_here.
  - intros p c Hp Hk Hc. apply list_elem_of_singleton in Hp. subst p.
    vm_compute in Hc. injection Hc as <-. vm_compute. discriminate.
Defined.

(** C1, as stated, fails for a negative tolerance: both slices hold "a" with
    the same time stamp, the delta is zero, and "a" is reported as updated. *)
Lemma GetObjectSliceDiff_zero_delta_updated :
  ~ ((time.Sub 0 0 <= 0)%Z ->
     "a" ∉ paths (Updated (GetObjectSliceDiff [obj "a" 0] [obj "a" 0] (-1)))).
Proof.
  intros H. apply H; [vm_compute; discriminate |].
  vm_compute. apply list_elem_of_here.
Qed.

(** C9. No path is in two of the lists Removed, Added and Updated. *)
Theorem GetObjectSliceDiff_lists_exclusive
    (prev curr : list Object) (t : time.Duration) (k : string) :
  let d := GetObjectSliceDiff prev curr t in
  ~ (k ∈ paths (Removed d) /\ k ∈ paths (Added d)) /\
  ~ (k ∈ paths (Removed d) /\ k ∈ paths (Updated d)) /\
  ~ (k ∈ paths (Added d) /\ k ∈ paths (Updated d)).
Proof.
  intros d. repeat split; intros [H1 H2].
  - apply removed_path in H1 as [_ H1]. apply added_path in H2 as [H2 _]. done.
  - apply removed_path in H1 as [_ H1]. apply updated_path in H2 as [_ H2]. done.
  - apply added_path in H1 as [_ H1]. apply updated_path in H2 as [H2 _]. done.
Qed.

(* ===================================================================== *)
(** * Path helpers: keys under a root prefix and back                      *)
(* ===================================================================== *)

Lemma append_cons (x : ascii) (a b : string) : String x a +:+ b = String x (a +:+ b).
Proof. reflexivity. Qed.

Lemma append_nil_l (b : string) : "" +:+ b = b.
Proof. reflexivity. Qed.

Lemma append_assoc (a b c : string) : (a +:+ b) +:+ c = a +:+ (b +:+ c).
Proof.
  induction a as [|x a IH]; [done |]. rewrite !append_cons. by f_equal.
Qed.

Lemma append_nil_r (a : string) : a +:+ "" = a.
Proof.
  induction a as [|x a IH]; [done |]. rewrite append_cons. by f_equal.
Qed.

Section SplitJoin.

Variable sep : ascii.

Lemma Split_not_nil s : strings.Split s sep <> [].
Proof.
  destruct s as [|c s]; simpl; [done |].
  destruct (Ascii.eqb c sep); [done |].
  destruct (strings.Split s sep); done.
Qed.

Lemma Split_cons_sep s : strings.Split (String sep s) sep = "" :: strings.Split s sep.
Proof. simpl. by rewrite Ascii.eqb_refl. Qed.

Lemma Split_app a b :
  strings.Split (a +:+ String sep b) sep = strings.Split a sep ++ strings.Split b sep.
Proof.
  induction a as [|c a IH].
  - rewrite append_nil_l. apply Split_cons_sep.
  - rewrite append_cons. simpl. rewrite IH. destruct (Ascii.eqb c sep); [done |].
    destruct (strings.Split a sep) eqn:E; [by apply Split_not_nil in E | done].
Qed.

Lemma Join_Split s : strings.Join (strings.Split s sep) sep = s.
Proof.
  induction s as [|c s IH]; simpl; [done |].
  destruct (Ascii.eqb_spec c sep) as [-> | Hne].
  - destruct (strings.Split s sep) eqn:E; [by apply Split_not_nil in E |].
    simpl. simpl in IH. by rewrite IH.
  - destruct (strings.Split s sep) as [|piece pieces] eqn:E;
      [by apply Split_not_nil in E |].
    rewrite <- IH. by destruct pieces.
Qed.

Lemma Split_empty_inv s : strings.Split s sep = [""] -> s = "".
Proof. intros H. rewrite <- (Join_Split s), H. done. Qed.

Lemma Split_atoms s : Forall (atom sep) (strings.Split s sep).
Proof.
  induction s as [|c s IH]; simpl.
  - by constructor.
  - destruct (Ascii.eqb c sep) eqn:Ec.
    + by constructor.
    + destruct (strings.Split s sep) as [|piece pieces] eqn:E;
        [by apply Split_not_nil in E |].
      inversion IH as [|? ? Hp Hps]; subst. constructor; [| done].
      unfold atom in *. simpl. by rewrite Ec, Hp.
Qed.

Lemma Join_cons e e' rest :
  strings.Join (e :: e' :: rest) sep = e +:+ String sep (strings.Join (e' :: rest) sep).
Proof. done. Qed.

Lemma Split_Join l :
  l <> [] -> Forall (atom sep) l -> strings.Split (strings.Join l sep) sep = l.
Proof.
  induction l as [|e [|e' rest] IH]; intros Hne Hat; [done | |].
  - simpl. by inversion Hat.
  - rewrite Join_cons, Split_app, IH; [| done | by inversion Hat].
    inversion Hat as [|? ? He _]; subst. by rewrite He.
Qed.

Lemma Join_app l1 l2 :
  l1 <> [] -> l2 <> [] ->
  strings.Join (l1 ++ l2) sep
  = strings.Join l1 sep +:+ String sep (strings.Join l2 sep).
Proof.
  induction l1 as [|e [|e' rest] IH]; intros H1 H2; [done | |].
  - destruct l2; [done |]. done.
  - change ((e :: e' :: rest) ++ l2) with (e :: (e' :: rest) ++ l2).
    simpl app. rewrite Join_cons. rewrite (Join_cons e e' rest).
    change (e' :: rest ++ l2) with ((e' :: rest) ++ l2).
    rewrite IH by done. by rewrite append_assoc.
Qed.

End SplitJoin.

Section Clean.



Lemma ordinary_spec e : ordinary e = true <-> e <> "" /\ e <> "." /\ e <> "..".
Proof.
  unfold ordinary. rewrite !andb_true_iff, !negb_true_iff, !String.eqb_neq. tauto.
Qed.

Lemma cleanStep_ordinary rooted out e :
  ordinary e = true -> path.cleanStep rooted out e = e :: out.
Proof.
  intros (H1 & H2 & H3)%ordinary_spec. unfold path.cleanStep.
  apply String.eqb_neq in H1, H2, H3. by rewrite H1, H2, H3.
Qed.

Lemma fold_cleanStep_ordinary rooted l : forall out,
  forallb ordinary l = true ->
  fold_left (path.cleanStep rooted) l out = rev l ++ out.
Proof.
  induction l as [|e l IH]; intros out H; simpl; [done |].
  simpl in H. apply andb_true_iff in H as [He Hl].
  rewrite cleanStep_ordinary, IH by done. by rewrite <- app_assoc.
Qed.

(** A ".." that was kept is never removed. *)
Lemma cleanStep_keeps_dotdot out e : ".." ∈ out -> ".." ∈ path.cleanStep false out e.
Proof.
  intros H. unfold path.cleanStep.
  destruct (String.eqb e "" || String.eqb e "."); [done |].
  destruct (String.eqb e ".."); [| by right].
  destruct out as [|x out]; [by apply elem_of_nil in H |].
  destruct (String.eqb_spec x "..") as [-> | Hne]; [by right |].
  apply elem_of_cons in H as [H | H]; [congruence | done].
Qed.

Lemma fold_cleanStep_keeps_dotdot l : forall out,
  ".." ∈ out -> ".." ∈ fold_left (path.cleanStep false) l out.
Proof.
  induction l as [|e l IH]; intros out H; simpl; [done |].
  by apply IH, cleanStep_keeps_dotdot.
Qed.

(** Elements that end without a kept ".." never reach below what was on the
    output when they started. *)
Lemma fold_cleanStep_base l : forall out base,
  ".." ∉ fold_left (path.cleanStep false) l out ->
  fold_left (path.cleanStep false) l (out ++ base) = fold_left (path.cleanStep false) l out ++ base.
Proof.
  induction l as [|e l IH]; intros out base H; simpl; [done |].
  simpl in H.
  assert (path.cleanStep false (out ++ base) e = path.cleanStep false out e ++ base) as ->; [| by apply IH].
  unfold path.cleanStep in *.
  destruct (String.eqb e "" || String.eqb e "."); [done |].
  destruct (String.eqb e ".."); [| done].
  destruct out as [|x out]; simpl.
  - exfalso. apply H, fold_cleanStep_keeps_dotdot, list_elem_of_here.
  - destruct (String.eqb x ".."); [| done].
    exfalso. apply H, fold_cleanStep_keeps_dotdot, list_elem_of_here.
Qed.

Lemma cleanStep_atoms rooted out e :
  atom "/" e -> Forall (atom "/") out -> Forall (atom "/") (path.cleanStep rooted out e).
Proof.
  intros He Hout. unfold path.cleanStep.
  destruct (String.eqb e "" || String.eqb e "."); [done |].
  destruct (String.eqb e "..").
  - destruct out as [|x out]; [destruct rooted; by repeat constructor |].
    destruct (String.eqb x "..").
    + destruct rooted; [done |]. by constructor.
    + by inversion Hout.
  - by constructor.
Qed.

Lemma cleanElems_atoms rooted p : Forall (atom "/") (path.cleanElems rooted p).
Proof.
  unfold path.cleanElems.
  assert (forall l out, Forall (atom "/") l -> Forall (atom "/") out ->
            Forall (atom "/") (fold_left (path.cleanStep rooted) l out)) as H.
  { induction l as [|e l IH]; intros out Hl Hout; simpl; [done |].
    inversion Hl; subst. by apply IH, cleanStep_atoms. }
  apply H; [apply Split_atoms | constructor].
Qed.

Lemma HasPrefix_sep_Split s :
  strings.HasPrefix s "/" = true -> exists l, strings.Split s "/" = "" :: l.
Proof.
  destruct s as [|c s]; [done |]. unfold strings.HasPrefix. simpl.
  destruct (Ascii.eqb c "/"); [eauto | done].
Qed.

(** What a cleaned path made of ordinary elements says about the path. *)
Lemma Clean_ordinary_inv p :
  ordinaryPath (path.Clean p) = true ->
  p <> "" /\ strings.HasPrefix p "/" = false /\
  path.cleanElems false p <> [] /\
  forallb ordinary (rev (path.cleanElems false p)) = true /\
  path.Clean p = strings.Join (rev (path.cleanElems false p)) "/".
Proof.
  unfold ordinaryPath, path.Clean. intros H.
  destruct (String.eqb p "") eqn:Hp0; [done |].
  apply String.eqb_neq in Hp0.
  destruct (strings.HasPrefix p "/") eqn:Hr.
  { rewrite Split_cons_sep in H. done. }
  destruct (String.eqb (strings.Join (rev (path.cleanElems false p)) "/") "") eqn:Hb;
    [done |].
  apply String.eqb_neq in Hb.
  assert (path.cleanElems false p <> []) as Hne.
  { intros E. rewrite E in Hb. done. }
  rewrite Split_Join in H.
  - done.
  - intros E. apply (f_equal (@rev string)) in E. rewrite rev_involutive in E. done.
  - apply Forall_rev, cleanElems_atoms.
Qed.

Lemma ordinaryPath_head s :
  ordinaryPath s = true -> s <> "" /\ strings.HasPrefix s "/" = false.
Proof.
  unfold ordinaryPath. intros H. split.
  - intros ->. done.
  - destruct (strings.HasPrefix s "/") eqn:E; [| done].
    apply HasPrefix_sep_Split in E as [l E]. rewrite E in H. done.
Qed.

(** Under a root made of ordinary elements, a path whose cleaned form is made
    of ordinary elements is cleaned in place. *)
Lemma Clean_under_root r p :
  ordinaryPath r = true -> ordinaryPath (path.Clean p) = true ->
  path.Clean (r +:+ String "/" p) = r +:+ String "/" (path.Clean p).
Proof.
  intros Hr Hp.
  destruct (Clean_ordinary_inv p Hp) as (Hp0 & Hroot & Hne & Hord & Hclean).
  destruct (ordinaryPath_head r Hr) as [Hr0 Hrh].
  assert (strings.Join (rev (path.cleanElems false (r +:+ String "/" p))) "/"
          = r +:+ String "/" (path.Clean p)) as Hbody.
  { unfold path.cleanElems at 1. rewrite Split_app, fold_left_app.
    rewrite (fold_cleanStep_ordinary false _ []) by exact Hr. rewrite app_nil_r.
    change (rev (strings.Split r "/")) with ([] ++ rev (strings.Split r "/")).
    rewrite fold_cleanStep_base.
    2: { fold (path.cleanElems false p). intros Hdd.
         apply list_elem_of_In, in_rev in Hdd.
         rewrite forallb_forall in Hord. apply Hord in Hdd. done. }
    fold (path.cleanElems false p).
    rewrite rev_app_distr, rev_involutive, Join_app, Join_Split, <- Hclean.
    - done.
    - apply Split_not_nil.
    - intros E. apply (f_equal (@rev string)) in E. rewrite rev_involutive in E. done. }
  assert (r +:+ String "/" p <> "") as Hne0 by (destruct r; done).
  assert (r +:+ String "/" (path.Clean p) <> "") as Hne1 by (destruct r; done).
  assert (strings.HasPrefix (r +:+ String "/" p) "/" = false) as Hh.
  { destruct r as [|c r]; [done |]. rewrite append_cons.
    revert Hrh. unfold strings.HasPrefix. simpl. by destruct (Ascii.eqb c "/"). }
  unfold path.Clean at 1. rewrite Hh, Hbody.
  apply String.eqb_neq in Hne0, Hne1. by rewrite Hne0, Hne1.
Qed.

End Clean.

Section Trim.

Lemma TrimLeft_id s : strings.HasPrefix s "/" = false -> strings.TrimLeft s "/" = s.
Proof.
  destruct s as [|c s]; [done |]. unfold strings.HasPrefix. simpl.
  rewrite orb_false_r. by destruct (Ascii.eqb c "/").
Qed.

Lemma last_Split_cons c s :
  last (strings.Split (String c s) "/") <> Some "" ->
  s = "" \/ last (strings.Split s "/") <> Some "".
Proof.
  simpl. destruct (Ascii.eqb c "/").
  - destruct (strings.Split s "/") as [|x l] eqn:E; [by apply Split_not_nil in E |].
    intros H. right. done.
  - destruct (strings.Split s "/") as [|x [|y l]] eqn:E; [by apply Split_not_nil in E | |].
    + intros _. destruct (decide (x = "")) as [-> | Hx].
      * left. by apply (Split_empty_inv "/").
      * right. simpl. congruence.
    + intros H. right. done.
Qed.

Lemma TrimRight_id s :
  last (strings.Split s "/") <> Some "" -> strings.TrimRight s "/" = s.
Proof.
  induction s as [|c s IH]; [done |]. intros H.
  assert (Ascii.eqb c "/" = true -> s <> "") as Hc.
  { intros Ec -> . simpl in H. rewrite Ec in H. done. }
  apply last_Split_cons in H as [-> | H].
  - simpl. rewrite orb_false_r. destruct (Ascii.eqb c "/"); [by destruct Hc | done].
  - simpl. rewrite IH by done. destruct s; [| done].
    simpl in H. done.
Qed.

Lemma HasSuffix_sep_false s :
  last (strings.Split s "/") <> Some "" -> strings.HasSuffix s "/" = false.
Proof.
  induction s as [|c s IH]; [done |]. intros H.
  assert (Ascii.eqb c "/" = true -> s <> "") as Hc.
  { intros Ec -> . simpl in H. rewrite Ec in H. done. }
  apply last_Split_cons in H as [-> | H].
  - simpl. destruct (Ascii.eqb c "/"); [by destruct Hc | done].
  - simpl. rewrite IH by done. destruct s; [simpl in H; done |].
    by destruct (Ascii.eqb c "/").
Qed.

Lemma forallb_ordinary_last l : forallb ordinary l = true -> last l <> Some "".
Proof.
  induction l as [|e [|e' l] IH]; simpl; [done | |].
  - rewrite andb_true_r. intros H [= ->]. done.
  - intros [_ H]%andb_true_iff. by apply IH.
Qed.

Lemma cleanPrefix_ordinary s : ordinaryPath s = true -> cleanPrefix s = s.
Proof.
  intros H. unfold cleanPrefix, strings.Trim.
  rewrite TrimLeft_id by (by apply ordinaryPath_head).
  apply TrimRight_id, forallb_ordinary_last, H.
Qed.

Lemma ordinaryPath_app a b :
  ordinaryPath a = true -> ordinaryPath b = true ->
  ordinaryPath (a +:+ String "/" b) = true.
Proof.
  unfold ordinaryPath. intros Ha Hb.
  rewrite Split_app, forallb_app. by rewrite Ha, Hb.
Qed.

Lemma stripPrefix_app a b : strings.stripPrefix (a +:+ b) a = Some b.
Proof.
  induction a as [|c a IH]; [done |]. rewrite append_cons. simpl.
  by rewrite Ascii.eqb_refl.
Qed.

End Trim.

(** ** The round trip of a path through the key under the root *)

(** C7 (as amended). For a root prefix that is empty or made of ordinary
    elements only, and a path whose cleaned form is made of ordinary elements
    only, removing the root from the key of the path gives the cleaned path. *)
Theorem relativize_normalize (r p : string) :
  r = "" \/ ordinaryPath r = true ->
  ordinaryPath (path.Clean p) = true ->
  removePrefixFromObjectPath r (objectKey r p) = path.Clean p.
Proof.
  intros Hr Hp.
  destruct (Clean_ordinary_inv p Hp) as (Hp0 & _).
  unfold objectKey, path.Join, removePrefixFromObjectPath.
  destruct Hr as [-> | Hr].
  - rewrite filter_cons, decide_False by (intros H; by apply H).
    rewrite filter_cons, decide_True by done. simpl.
    by apply cleanPrefix_ordinary.
  - destruct (ordinaryPath_head r Hr) as [Hr0 _].
    rewrite filter_cons, decide_True by done.
    rewrite filter_cons, decide_True by done. simpl strings.Join.
    rewrite Clean_under_root by done.
    rewrite cleanPrefix_ordinary by (by apply ordinaryPath_app).
    apply String.eqb_neq in Hr0. rewrite Hr0.
    rewrite HasSuffix_sep_false by (apply forallb_ordinary_last, Hr). simpl negb. cbv iota.
    unfold strings.TrimPrefix.
    replace (r +:+ String "/" (path.Clean p)) with ((r +:+ "/") +:+ path.Clean p)
      by (by rewrite append_assoc).
    by rewrite stripPrefix_app.
Qed.

(** The theorem at the root "charts" and the path "stable//mychart/./". *)
Lemma relativize_normalize_witness :
  removePrefixFromObjectPath "charts" (objectKey "charts" "stable//mychart/./")
  = path.Clean "stable//mychart/./".
Proof.
  apply (relativize_normalize "charts" "stable//mychart/./").
  - right. vm_compute. reflexivity.
  - vm_compute. reflexivity.
Defined.

(** C7, as stated, fails at the root "root" and the relative path ".": the
    key is the root itself, nothing is removed from it, and the cleaned path
    is ".". *)
Lemma relativize_normalize_dot :
  removePrefixFromObjectPath "root" (objectKey "root" ".") = "root" /\
  path.Clean "." = "." /\
  removePrefixFromObjectPath "root" (objectKey "root" ".") <> path.Clean ".".
Proof. vm_compute. repeat split. discriminate. Qed.

(* ===================================================================== *)
(** * The reference S3 service answers by the rules of a service           *)
(* ===================================================================== *)

Lemma PathUnescape_PathEscape_cons (c : ascii) (s : string) :
  url.PathUnescape (url.PathEscape (String c s))
  = match url.PathUnescape (url.PathEscape s) with
    | Some r => Some (String c r)
    | None => None
    end.
Proof.
  destruct c as [[] [] [] [] [] [] [] []]; reflexivity.
Qed.

(** Unescaping an escaped string gives the string back. *)
Lemma PathUnescape_PathEscape (s : string) :
  url.PathUnescape (url.PathEscape s) = Some s.
Proof.
  induction s as [|c s IH]; [done |].
  by rewrite PathUnescape_PathEscape_cons, IH.
Qed.

Section S3ServiceLaws.

Import S3Service.

Lemma arrive_objects w b : objectsOf (arrive w).2 b = objectsOf w b.
Proof. unfold arrive. by destruct (faults w). Qed.

Lemma arrive_bucket w : bucket (arrive w).2 = bucket w.
Proof. unfold arrive. by destruct (faults w). Qed.

Lemma headObject_objects i w b : objectsOf (headObject i w).2 b = objectsOf w b.
Proof.
  unfold headObject.
  destruct (arrive w).1; [apply arrive_objects |].
  destruct (negb _); [apply arrive_objects |].
  destruct (store w !! _); apply arrive_objects.
Qed.

Lemma listObjectsV2_objects i w b : objectsOf (listObjectsV2 i w).2 b = objectsOf w b.
Proof.
  unfold listObjectsV2.
  destruct (arrive w).1; [apply arrive_objects |].
  destruct (negb _); [apply arrive_objects |].
  destruct (_ <? _)%Z; apply arrive_objects.
Qed.

Lemma copyObject_failed i w e b :
  (copyObject i w).1 = Some e -> objectsOf (copyObject i w).2 b = objectsOf w b.
Proof.
  unfold copyObject.
  destruct (arrive w).1; [intros _; apply arrive_objects |].
  destruct (negb _); [intros _; apply arrive_objects |].
  destruct (sourceKey w _); [| intros _; apply arrive_objects].
  destruct (store w !! _); [done | intros _; apply arrive_objects].
Qed.

Lemma withStore_objects w v b :
  objectsOf (withStore (arrive w).2 v) b
  = if String.eqb b (bucket w) then content <$> v else ∅.
Proof. unfold objectsOf, withStore. simpl. by rewrite arrive_bucket. Qed.

Lemma copyObject_done b src dst w :
  let i := {| s3.copy_Bucket := b;
              s3.copy_CopySource := url.PathEscape (b +:+ "/" +:+ src);
              s3.copy_Key := dst |} in
  (copyObject i w).1 = None ->
  exists c,
    objectsOf w b !! src = Some c /\
    objectsOf (copyObject i w).2 b = <[dst := c]> (objectsOf w b).
Proof.
  intros i. unfold copyObject. subst i. simpl.
  destruct (arrive w).1; [done |].
  destruct (String.eqb_spec b (bucket w)) as [-> | Hb]; [| done]. simpl.
  unfold sourceKey. rewrite PathUnescape_PathEscape.
  replace (bucket w +:+ "/" +:+ src) with ((bucket w +:+ "/") +:+ src)
    by (by rewrite append_assoc).
  rewrite stripPrefix_app.
  destruct (store w !! src) as [o|] eqn:Ho; [| done].
  intros _. exists (content o). simpl.
  rewrite withStore_objects. unfold objectsOf. rewrite String.eqb_refl.
  split; [by rewrite lookup_fmap, Ho | by rewrite fmap_insert].
Qed.

Lemma deleteObject_failed i w e b :
  (deleteObject i w).1 = Some e -> objectsOf (deleteObject i w).2 b = objectsOf w b.
Proof.
  unfold deleteObject.
  destruct (arrive w).1; [intros _; apply arrive_objects |].
  destruct (negb _); [intros _; apply arrive_objects | done].
Qed.

End S3ServiceLaws.

#[global] Instance S3Service_model : s3.Model S3Service.Service := {|
  s3.objects := S3Service.objectsOf;
  s3.HeadObject_objects := headObject_objects;
  s3.ListObjectsV2_objects := listObjectsV2_objects;
  s3.CopyObject_failed := copyObject_failed;
  s3.CopyObject_done := copyObject_done;
  s3.DeleteObject_failed := deleteObject_failed
|}.

(* ===================================================================== *)
(** * The S3 backend: rename                                               *)
(* ===================================================================== *)

Section Rename.

Context {W : Type} `{s3.Model W}.

Implicit Types (b : Amazon.AmazonS3Backend) (st : Amazon.State W).

(** C2. When the destination resolves to an object (its HeadObject finds
    one), or holds an object under it as a prefix (its HeadObject says
    NotFound and the one-key listing under [newPath + "/"] counts a key),
    RenamePrefixOrObject returns ErrNewPathNotEmpty; it has sent nothing but
    these probes, so no copy and no delete, and every bucket holds what it
    held. *)
Theorem RenamePrefixOrObject_newPath_occupied
    (fuel : nat) b (path newPath : string) st :
  let head := s3.HeadObject (Amazon.newPathHead b newPath) (Amazon.world st) in
  let probe := s3.ListObjectsV2 (Amazon.newPathList b newPath) head.2 in
  head.1 = None \/
  ((exists e, head.1 = Some e /\ Amazon.isNotFound e = true) /\
   (exists out n, probe.1 = inl out /\ s3.KeyCount out = Some n /\ (0 < n)%Z)) ->
  let r := Amazon.RenamePrefixOrObject fuel b path newPath st in
  r.1 = Some (Some ErrNewPathNotEmpty) /\
  (Amazon.calls r.2
     = Amazon.calls st ++ [s3.CallHeadObject (Amazon.newPathHead b newPath)] \/
   Amazon.calls r.2
     = Amazon.calls st ++ [s3.CallHeadObject (Amazon.newPathHead b newPath);
                           s3.CallListObjectsV2 (Amazon.newPathList b newPath)]) /\
  (forall c, c ∈ drop (length (Amazon.calls st)) (Amazon.calls r.2) -> s3.mutating c = false) /\
  (forall bucket,
     s3.objects (Amazon.world r.2) bucket = s3.objects (Amazon.world st) bucket).
Proof.
  intros head probe Hocc r.
  assert (r.1 = Some (Some ErrNewPathNotEmpty) /\
          (Amazon.calls r.2
             = Amazon.calls st ++ [s3.CallHeadObject (Amazon.newPathHead b newPath)] \/
           Amazon.calls r.2
             = Amazon.calls st ++ [s3.CallHeadObject (Amazon.newPathHead b newPath);
                                   s3.CallListObjectsV2 (Amazon.newPathList b newPath)]) /\
          (forall bucket,
             s3.objects (Amazon.world r.2) bucket = s3.objects (Amazon.world st) bucket))
    as (Hr & Hcalls & Hobj).
  { subst r. unfold Amazon.RenamePrefixOrObject, bind, Amazon.Client_HeadObject. simpl.
    fold head. destruct Hocc as [Hh | [(e & Hh & He) (out & n & Hp & Hk & Hn)]].
    - rewrite Hh. simpl. repeat split; [by left |].
      intros bucket. apply s3.HeadObject_objects.
    - rewrite Hh, He. simpl. unfold Amazon.Client_ListObjectsV2. simpl.
      fold head. fold probe. rewrite Hp, Hk.
      destruct (Z.gtb_spec n 0); [| lia]. simpl.
      repeat split; [right; by rewrite <- app_assoc |].
      intros bucket. subst probe. rewrite s3.ListObjectsV2_objects.
      subst head. apply s3.HeadObject_objects. }
  repeat split; [done | done | | done].
  intros c Hc.
  destruct Hcalls as [E | E]; rewrite E, drop_app_length in Hc.
  - apply list_elem_of_singleton in Hc. by subst c.
  - apply elem_of_cons in Hc as [-> | Hc]; [done |].
    apply list_elem_of_singleton in Hc. by subst c.
Qed.

(** C3. moveObject sends the copy first. When the copy fails, it returns the
    copy's error, has sent no delete, and every bucket holds what it held.
    When the copy succeeds, it sends the delete next and returns the delete's
    result; when that delete fails, the content of the source is at the
    source and at the destination. *)
Theorem moveObject_copy_then_delete b (path newPath : string) st :
  let copyIn := Amazon.copyInput b path newPath in
  let deleteIn := {| s3.delete_Bucket := Amazon.Bucket b;
                     s3.delete_Key := objectKey (Amazon.Prefix b) path |} in
  let copy := s3.CopyObject copyIn (Amazon.world st) in
  let del := s3.DeleteObject deleteIn copy.2 in
  let r := Amazon.moveObject b path newPath st in
  (forall e, copy.1 = Some e ->
     r.1 = Some e /\
     Amazon.calls r.2 = Amazon.calls st ++ [s3.CallCopyObject copyIn] /\
     (forall bucket,
        s3.objects (Amazon.world r.2) bucket = s3.objects (Amazon.world st) bucket))
  /\
  (copy.1 = None ->
     r.1 = del.1 /\
     Amazon.calls r.2
       = Amazon.calls st ++ [s3.CallCopyObject copyIn; s3.CallDeleteObject deleteIn] /\
     (forall e, del.1 = Some e ->
        exists content,
          s3.objects (Amazon.world st) (Amazon.Bucket b) !! path = Some content /\
          s3.objects (Amazon.world r.2) (Amazon.Bucket b) !! path = Some content /\
          s3.objects (Amazon.world r.2) (Amazon.Bucket b) !! newPath = Some content)).
Proof.
  intros copyIn deleteIn copy del r. subst r.
  unfold Amazon.moveObject, bind, Amazon.Client_CopyObject. simpl.
  fold copyIn. fold copy. split.
  - intros e He. rewrite He. simpl. repeat split.
    intros bucket. subst copy. by eapply s3.CopyObject_failed.
  - intros Hc. rewrite Hc. unfold Amazon.DeleteObject, Amazon.Client_DeleteObject. simpl.
    fold deleteIn. fold del. repeat split; [by rewrite <- app_assoc |].
    intros e He.
    destruct (s3.CopyObject_done (Amazon.Bucket b) path newPath (Amazon.world st) Hc)
      as (content & Hsrc & Hdst).
    exists content. split; [done |].
    subst del. rewrite (s3.DeleteObject_failed _ _ e) by done.
    subst copy copyIn. unfold Amazon.copyInput. rewrite Hdst.
    split; [| apply lookup_insert_eq].
    destruct (decide (newPath = path)) as [-> | Hne];
      [apply lookup_insert_eq | by rewrite lookup_insert_ne].
Qed.

(** A rename of a single object deletes through DeleteObject, which joins the
    root prefix to the key it is given; moveObject gives it the key that
    already carries the root prefix. When the destination is free, the source
    is an object and the copy succeeds, the requests are the three probes, the
    copy from the source key and the delete of the source key under the root
    prefix once more. *)
Theorem RenamePrefixOrObject_object_requests
    (fuel : nat) b (path newPath : string) st :
  let root := Amazon.Prefix b in
  let headNew := s3.HeadObject (Amazon.newPathHead b newPath) (Amazon.world st) in
  let probe := s3.ListObjectsV2 (Amazon.newPathList b newPath) headNew.2 in
  let headIn := {| s3.head_Bucket := Amazon.Bucket b; s3.head_Key := objectKey root path |} in
  let headOld := s3.HeadObject headIn probe.2 in
  let copyIn := Amazon.copyInput b (objectKey root path) (objectKey root newPath) in
  let copy := s3.CopyObject copyIn headOld.2 in
  let deleteIn := {| s3.delete_Bucket := Amazon.Bucket b;
                     s3.delete_Key := objectKey root (objectKey root path) |} in
  (exists e, headNew.1 = Some e /\ Amazon.isNotFound e = true) ->
  (exists out, probe.1 = inl out /\ s3.KeyCount out = Some 0%Z) ->
  headOld.1 = None ->
  copy.1 = None ->
  let r := Amazon.RenamePrefixOrObject fuel b path newPath st in
  r.1 = Some (s3.DeleteObject deleteIn copy.2).1 /\
  Amazon.calls r.2
  = Amazon.calls st
    ++ [s3.CallHeadObject (Amazon.newPathHead b newPath);
        s3.CallListObjectsV2 (Amazon.newPathList b newPath);
        s3.CallHeadObject headIn;
        s3.CallCopyObject copyIn;
        s3.CallDeleteObject deleteIn].
Proof.
  intros root headNew probe headIn headOld copyIn copy deleteIn
    (e & Hh & He) (out & Hp & Hk) Ho Hc r. subst r.
  unfold Amazon.RenamePrefixOrObject, bind, Amazon.Client_HeadObject,
    Amazon.Client_ListObjectsV2. simpl.
  fold headNew. rewrite Hh, He. simpl. fold headNew. fold probe. rewrite Hp, Hk. simpl.
  fold root. fold headIn. fold headOld. rewrite Ho. simpl.
  unfold Amazon.moveObject, bind, Amazon.Client_CopyObject. simpl.
  fold headIn. fold headOld. fold copyIn. fold copy. rewrite Hc. simpl.
  unfold Amazon.DeleteObject, Amazon.Client_DeleteObject. simpl.
  fold root. fold deleteIn. split; [done |].
  by rewrite <- !app_assoc.
Qed.

End Rename.

(** C2 at a destination "new" that holds "new/b.tgz": the HeadObject of
    "charts/new" finds nothing and the listing under "charts/new/" counts one
    key. *)
Lemma RenamePrefixOrObject_newPath_occupied_witness :
  let st := startS3 occupiedBucket in
  let r := Amazon.RenamePrefixOrObject 8 chartsBackend "old" "new" st in
  r.1 = Some (Some ErrNewPathNotEmpty) /\
  (Amazon.calls r.2
     = Amazon.calls st ++ [s3.CallHeadObject (Amazon.newPathHead chartsBackend "new")] \/
   Amazon.calls r.2
     = Amazon.calls st ++ [s3.CallHeadObject (Amazon.newPathHead chartsBackend "new");
                           s3.CallListObjectsV2 (Amazon.newPathList chartsBackend "new")]) /\
  (forall c, c ∈ drop (length (Amazon.calls st)) (Amazon.calls r.2) -> s3.mutating c = false) /\
  (forall bucket,
     s3.objects (Amazon.world r.2) bucket = s3.objects (Amazon.world st) bucket).
Proof.
  intros st.
  apply (RenamePrefixOrObject_newPath_occupied 8 chartsBackend "old" "new" st).
  right. split.
  - exists S3Service.NotFound. split; vm_compute; reflexivity.
  - eexists _, 1%Z. split; [vm_compute; reflexivity |]. split; [reflexivity | lia].
Defined.

(** C3 at a copy of "old.tgz" to "new.tgz" that passes and a delete that
    fails: the error is the delete's and the content is at both keys. *)
Lemma moveObject_copy_then_delete_witness :
  let st := startS3 flakyBucket in
  let r := Amazon.moveObject rootBackend "old.tgz" "new.tgz" st in
  r.1 = Some SlowDown /\
  exists content,
    s3.objects (Amazon.world st) "bkt" !! "old.tgz" = Some content /\
    s3.objects (Amazon.world r.2) "bkt" !! "old.tgz" = Some content /\
    s3.objects (Amazon.world r.2) "bkt" !! "new.tgz" = Some content.
Proof.
  intros st r.
  destruct (moveObject_copy_then_delete rootBackend "old.tgz" "new.tgz" st) as [_ Hok].
  destruct Hok as (Hr & _ & Hdel); [vm_compute; reflexivity |].
  split.
  - subst r. rewrite Hr. vm_compute. reflexivity.
  - apply (Hdel SlowDown). vm_compute. reflexivity.
Defined.

(** The theorem at the rename of "a.tgz" to "b.tgz" under the root prefix
    "charts": the copy reads "charts/a.tgz", the delete names
    "charts/charts/a.tgz", and "charts/a.tgz" is still in the bucket. *)
Lemma RenamePrefixOrObject_object_requests_witness :
  let st := startS3 (S3Service.serviceOf "bkt" [("charts/a.tgz", [Byte.x01])] []) in
  let r := Amazon.RenamePrefixOrObject 8 chartsBackend "a.tgz" "b.tgz" st in
  r.1 = Some None /\
  last (Amazon.calls r.2)
    = Some (s3.CallDeleteObject {| s3.delete_Bucket := "bkt";
                                   s3.delete_Key := "charts/charts/a.tgz" |}) /\
  s3.objects (Amazon.world r.2) "bkt" !! "charts/a.tgz" = Some [Byte.x01] /\
  s3.objects (Amazon.world r.2) "bkt" !! "charts/b.tgz" = Some [Byte.x01].
Proof.
  intros st r.
  destruct (RenamePrefixOrObject_object_requests 8 chartsBackend "a.tgz" "b.tgz" st)
    as [Hr Hcalls].
  - exists S3Service.NotFound. split; vm_compute; reflexivity.
  - eexists. split; vm_compute; reflexivity.
  - vm_compute. reflexivity.
  - vm_compute. reflexivity.
  - fold r in Hr, Hcalls. split; [rewrite Hr; vm_compute; reflexivity |].
    split; [rewrite Hcalls; vm_compute; reflexivity |].
    split; vm_compute; reflexivity.
Defined.

(* ===================================================================== *)
(** * The S3 backend: conditional HTTP delivery                            *)
(* ===================================================================== *)

Section Download.

Context {W : Type} `{s3.API W}.
Variable http_ParseTime : string -> option time.Time.
Variable http_TimeFormat : time.Time -> string.

Implicit Types (w : http.ResponseWriter) (out : s3.GetObjectOutput).

Lemma statusCalls_record w e :
  http.statusCalls (http.record w e)
  = http.statusCalls w ++ match e with http.WriteHeader c => [c] | _ => [] end.
Proof.
  unfold http.statusCalls, http.record. simpl. rewrite omap_app. by destruct e.
Qed.

Lemma statusCalls_addHeader w key v :
  http.statusCalls (Amazon.addHeader w key v) = http.statusCalls w.
Proof.
  destruct v; simpl; [| done]. by rewrite statusCalls_record, app_nil_r.
Qed.

Lemma statusCalls_setHeaders w out :
  http.statusCalls (Amazon.setHeaders http_TimeFormat w out).1 = http.statusCalls w.
Proof. unfold Amazon.setHeaders. simpl. by rewrite !statusCalls_addHeader. Qed.

Lemma statusCalls_io_Copy w body : http.statusCalls (io_Copy w body).1 = http.statusCalls w.
Proof.
  unfold io_Copy. destruct (String.eqb _ _); [done |].
  destruct (http.writeErr w); simpl; by rewrite statusCalls_record, app_nil_r.
Qed.

Lemma rangeTotal_empty : rangeTotal "" = None.
Proof. reflexivity. Qed.

(** The status resolved from a Content-Range is 206 or 200, and 206 exactly
    when the total size parses and differs from the Content-Length. *)
Lemma rangeStatus_spec (contentRange : string) (contentLength : option Z) :
  let status := Amazon.rangeStatus http.StatusOK contentRange contentLength in
  (status = http.StatusPartialContent \/ status = http.StatusOK) /\
  (status = http.StatusPartialContent <->
   exists length total : Z,
     contentLength = Some length /\ rangeTotal contentRange = Some total /\ total <> length).
Proof.
  unfold Amazon.rangeStatus, rangeTotal.
  assert (http.StatusOK <> http.StatusPartialContent) as Hne by done.
  destruct contentLength as [len|]; simpl.
  2: { split; [by right |]. split; [done | by intros (? & ? & ? & _)]. }
  destruct contentRange as [|c cr].
  { simpl. split; [by right |]. split; [done | by intros (? & ? & _ & ? & _)]. }
  change (0 <? String.length (String c cr))%nat with true. cbv iota.
  destruct (strings.Split (String c cr) "/") as [|x [|total rest]]; simpl.
  - split; [by right |]. split; [done | by intros (? & ? & _ & ? & _)].
  - split; [by right |]. split; [done | by intros (? & ? & _ & ? & _)].
  - destruct (strconv.ParseInt (strings.TrimSpace total)) as [n|].
    + destruct (Z.eqb_spec n len) as [-> | Hn]; simpl.
      * split; [by right |]. split; [done |].
        intros (l & t & [= <-] & [= <-] & Ht). done.
      * split; [by left |]. split; [| done]. intros _. by exists len, n.
    + split; [by right |]. split; [done | by intros (? & ? & _ & ? & _)].
Qed.

(** The status the handler resolves for an answer. *)
Lemma setHeaders_status w out :
  let status := (Amazon.setHeaders http_TimeFormat w out).2 in
  (status = http.StatusPartialContent <-> partialContent out) /\
  (status = http.StatusOK <-> ~ partialContent out).
Proof.
  unfold Amazon.setHeaders, partialContent. simpl.
  destruct (s3.ContentRange out) as [cr|].
  - destruct (rangeStatus_spec cr (s3.ContentLength out)) as [Hor Hiff].
    simpl in Hor, Hiff.
    assert ((exists (contentRange : string) (length total : Z),
               Some cr = Some contentRange /\ s3.ContentLength out = Some length /\
               rangeTotal contentRange = Some total /\ total <> length)
            <-> exists length total : Z,
                  s3.ContentLength out = Some length /\
                  rangeTotal cr = Some total /\ total <> length) as Hex.
    { split.
      - intros (cr' & l & t & [= <-] & ?). by exists l, t.
      - intros (l & t & ?). by exists cr, l, t. }
    rewrite Hex, <- Hiff. split; [done |].
    destruct Hor as [-> | ->]; split; done.
  - split; [split; [done | by intros (? & ? & ? & ? & _)] |].
    split; [by intros _ (? & ? & ? & ? & _) | done].
Qed.

(** The status the handler passes to WriteHeader on a successful delivery
    (the date headers of the request parse, GetObject answers, and the
    request is a HEAD or the body is copied without an error): the handler
    calls WriteHeader once more, with 206 when the answer carries a
    Content-Range whose total size parses as an integer and differs from its
    Content-Length, and with 200 in every other case. *)
Lemma HandleHttpFileDownload_status
    (b : Amazon.AmazonS3Backend) w (r : http.Request) (path : string)
    (st : Amazon.State W) (input : s3.GetObjectInput) out :
  Amazon.downloadInput http_ParseTime b r path = Some input ->
  (s3.GetObject input (Amazon.world st)).1 = inl out ->
  http.Method r = http.MethodHead \/
    (io_Copy (Amazon.setHeaders http_TimeFormat w out).1 (s3.ResponseBody out)).2 = None ->
  let w' := (Amazon.HandleHttpFileDownload http_ParseTime http_TimeFormat b w r path st).1 in
  exists status : Z,
    http.statusCalls w' = http.statusCalls w ++ [status] /\
    (status = http.StatusPartialContent <-> partialContent out) /\
    (status = http.StatusOK <-> ~ partialContent out).
Proof.
  intros Hin Hget Hbody w'. subst w'.
  exists (Amazon.setHeaders http_TimeFormat w out).2.
  split; [| apply setHeaders_status].
  pose proof (statusCalls_setHeaders w out) as Hset.
  unfold Amazon.HandleHttpFileDownload. rewrite Hin.
  unfold bind, Amazon.Client_GetObject.
  cbn [fst snd]. rewrite Hget. cbn [fst snd].
  set (wh := Amazon.setHeaders http_TimeFormat w out) in *.
  destruct Hbody as [Hm | Hc].
  - rewrite Hm, String.eqb_refl. cbn [negb ret fst].
    by rewrite statusCalls_record, Hset.
  - destruct (negb _); cbn [fst snd].
    + rewrite Hc. cbn [fst snd ret].
      by rewrite statusCalls_record, statusCalls_io_Copy, Hset.
    + cbn [fst snd ret]. by rewrite statusCalls_record, Hset.
Qed.

End Download.

(** The example of the documentation: 100 bytes of 500 are partial content,
    500 of 500 are not. *)
Example rangeStatus_partial :
  Amazon.rangeStatus http.StatusOK "bytes 0-99/500" (Some 100%Z) = http.StatusPartialContent.
Proof. vm_compute. reflexivity. Qed.

Example rangeStatus_whole :
  Amazon.rangeStatus http.StatusOK "bytes 0-499/500" (Some 500%Z) = http.StatusOK.
Proof. vm_compute. reflexivity. Qed.

(** The lemma at a GET answered with the bytes 0-9 of 500. *)
Lemma HandleHttpFileDownload_status_witness :
  let w' := (Amazon.HandleHttpFileDownload noDate noFormat rootBackend freshWriter getRequest
               "chart.tgz" (startS3 partialTape)).1 in
  exists status : Z,
    http.statusCalls w' = http.statusCalls freshWriter ++ [status] /\
    (status = http.StatusPartialContent <-> partialContent partialAnswer) /\
    (status = http.StatusOK <-> ~ partialContent partialAnswer).
Proof.
  eapply (HandleHttpFileDownload_status noDate noFormat rootBackend freshWriter getRequest
            "chart.tgz" (startS3 partialTape)).
  - vm_compute. reflexivity.
  - reflexivity.
  - right. reflexivity.
Defined.

Section SentStatus.

Context {W : Type} `{s3.API W}.
Variable http_ParseTime : string -> option time.Time.
Variable http_TimeFormat : time.Time -> string.

Lemma statusDecisions_record (w : http.ResponseWriter) (e : http.Event) :
  http.statusDecisions (http.record w e)
  = http.statusDecisions w ++ match e with
                              | http.WriteHeader c => [c]
                              | http.Write _ => [http.StatusOK]
                              | http.HeaderAdd _ _ => []
                              end.
Proof.
  unfold http.statusDecisions, http.record. simpl. rewrite omap_app. by destruct e.
Qed.

Lemma statusDecisions_addHeader (w : http.ResponseWriter) key v :
  http.statusDecisions (Amazon.addHeader w key v) = http.statusDecisions w.
Proof.
  destruct v; simpl; [| done]. by rewrite statusDecisions_record, app_nil_r.
Qed.

Lemma statusDecisions_setHeaders (w : http.ResponseWriter) out :
  http.statusDecisions (Amazon.setHeaders http_TimeFormat w out).1 = http.statusDecisions w.
Proof. unfold Amazon.setHeaders. simpl. by rewrite !statusDecisions_addHeader. Qed.

(** The handler copies the body before it calls WriteHeader: on a request
    that is not a HEAD, answered with a body that is not empty, a
    ResponseWriter nothing was done to has sent its status line, 200, by the
    time the resolved status is passed to it. *)
Theorem HandleHttpFileDownload_body_first
    (b : Amazon.AmazonS3Backend) (w : http.ResponseWriter) (r : http.Request)
    (path : string) (st : Amazon.State W) (input : s3.GetObjectInput)
    (out : s3.GetObjectOutput) :
  Amazon.downloadInput http_ParseTime b r path = Some input ->
  (s3.GetObject input (Amazon.world st)).1 = inl out ->
  http.Method r <> http.MethodHead ->
  s3.bodyData (s3.ResponseBody out) <> "" ->
  http.events w = [] ->
  http.sentStatus
    (Amazon.HandleHttpFileDownload http_ParseTime http_TimeFormat b w r path st).1
  = Some http.StatusOK.
Proof.
  intros Hin Hget Hm Hdata Hw.
  pose proof (statusDecisions_setHeaders w out) as Hset.
  assert (http.statusDecisions w = []) as Hnil
    by (unfold http.statusDecisions; by rewrite Hw).
  unfold Amazon.HandleHttpFileDownload. rewrite Hin.
  unfold bind, Amazon.Client_GetObject.
  cbn [fst snd]. rewrite Hget. cbn [fst snd].
  set (wh := Amazon.setHeaders http_TimeFormat w out) in *.
  apply String.eqb_neq in Hm, Hdata. rewrite Hm. cbn [negb].
  unfold io_Copy. rewrite Hdata.
  unfold http.sentStatus.
  destruct (http.writeErr wh.1); cbn [fst snd].
  - cbn [ret fst]. by rewrite !statusDecisions_record, Hset, Hnil.
  - destruct (s3.bodyErr _); cbn [ret fst];
      by rewrite !statusDecisions_record, Hset, Hnil.
Qed.

End SentStatus.

(** The theorem at the GET answered with the bytes 0-9 of 500: the status
    resolved is 206, the status sent is 200. *)
Lemma HandleHttpFileDownload_body_first_witness :
  http.sentStatus
    (Amazon.HandleHttpFileDownload noDate noFormat rootBackend freshWriter getRequest
       "chart.tgz" (startS3 partialTape)).1
  = Some http.StatusOK.
Proof.
  eapply (HandleHttpFileDownload_body_first noDate noFormat rootBackend freshWriter
            getRequest "chart.tgz" (startS3 partialTape)).
  - vm_compute. reflexivity.
  - reflexivity.
  - discriminate.
  - discriminate.
  - reflexivity.
Defined.

(* ===================================================================== *)
(** * The S3 backend: pages of a directory listing                         *)
(* ===================================================================== *)

Section AmazonPages.

Context {W : Type} `{s3.API W}.

Implicit Types (st : Amazon.State W) (l : Amazon.loc).
Implicit Types (pg : Amazon.s3ListObjectsFromDirectoryOutput).

(** NextPage on a page that is marked: an error, no page, nothing done. *)
Lemma Amazon_NextPage_marked l st pg :
  default Amazon.zeroPage (Amazon.pages st !! l) = pg -> Amazon.nextPageCalled pg = true ->
  Amazon.NextPage l st = ((None, Some doubleAdvance), st).
Proof.
  intros Hl Hc. unfold Amazon.NextPage, bind, Amazon.load. simpl.
  rewrite Hl. by rewrite Hc.
Qed.

(** NextPage on an exhausted page: a new exhausted page and io.EOF; the page
    is not marked and nothing is requested. *)
Lemma Amazon_NextPage_exhausted l st pg :
  default Amazon.zeroPage (Amazon.pages st !! l) = pg ->
  Amazon.nextPageCalled pg = false -> Amazon.isEOF pg = true ->
  Amazon.NextPage l st
  = ((Some (length (Amazon.pages st)), Some io_EOF),
     {| Amazon.world := Amazon.world st;
        Amazon.calls := Amazon.calls st;
        Amazon.pages :=
          Amazon.pages st
          ++ [Amazon.withEOF
                (Amazon.newPage (Amazon.backend pg) (Amazon.prefix pg) (Amazon.limit pg))
                true] |}).
Proof.
  intros Hl Hc He. unfold Amazon.NextPage, bind, Amazon.load. simpl.
  rewrite Hl. by rewrite Hc, He.
Qed.

(** NextPage whose listing request fails: the error, no page; the page is
    not marked. *)
Lemma Amazon_NextPage_failed l st pg err :
  default Amazon.zeroPage (Amazon.pages st !! l) = pg ->
  Amazon.nextPageCalled pg = false -> Amazon.isEOF pg = false ->
  (s3.ListObjectsV2 (Amazon.nextPageRequest pg) (Amazon.world st)).1 = inr err ->
  Amazon.NextPage l st
  = ((None, Some err),
     {| Amazon.world := (s3.ListObjectsV2 (Amazon.nextPageRequest pg) (Amazon.world st)).2;
        Amazon.calls := Amazon.calls st ++ [s3.CallListObjectsV2 (Amazon.nextPageRequest pg)];
        Amazon.pages := Amazon.pages st |}).
Proof.
  intros Hl Hc He Hr. unfold Amazon.NextPage, bind, Amazon.load. simpl.
  rewrite Hl. rewrite Hc, He. simpl. by rewrite Hr.
Qed.

(** NextPage whose listing request answers: the page built from the answer,
    with io.EOF when it is the last; the page is marked. *)
Lemma Amazon_NextPage_fetched l st pg out :
  default Amazon.zeroPage (Amazon.pages st !! l) = pg ->
  Amazon.nextPageCalled pg = false -> Amazon.isEOF pg = false ->
  (s3.ListObjectsV2 (Amazon.nextPageRequest pg) (Amazon.world st)).1 = inl out ->
  Amazon.NextPage l st
  = ((Some (length (Amazon.pages st)),
      if Amazon.isEOF (Amazon.pageOfOutput pg out) then Some io_EOF else None),
     {| Amazon.world := (s3.ListObjectsV2 (Amazon.nextPageRequest pg) (Amazon.world st)).2;
        Amazon.calls := Amazon.calls st ++ [s3.CallListObjectsV2 (Amazon.nextPageRequest pg)];
        Amazon.pages :=
          <[l := Amazon.withNextPageCalled pg true]> (Amazon.pages st)
          ++ [Amazon.pageOfOutput pg out] |}).
Proof.
  intros Hl Hc He Hr. unfold Amazon.NextPage, bind, Amazon.load. simpl.
  rewrite Hl. rewrite Hc, He. simpl. rewrite Hr. simpl.
  unfold Amazon.alloc, Amazon.store, Amazon.called. simpl.
  by rewrite length_insert.
Qed.

(** The S3 half of the single-use rule. *)
Lemma Amazon_NextPage_single_use l st pg out :
  Amazon.pages st !! l = Some pg ->
  Amazon.nextPageCalled pg = false -> Amazon.isEOF pg = false ->
  (s3.ListObjectsV2 (Amazon.nextPageRequest pg) (Amazon.world st)).1 = inl out ->
  let first := Amazon.NextPage l st in
  let second := Amazon.NextPage l first.2 in
  is_Some first.1.1 /\ second.1 = (None, Some doubleAdvance) /\ second.2 = first.2.
Proof.
  intros Hl Hc He Hr first second. subst second first.
  rewrite (Amazon_NextPage_fetched l st pg out) by (done || by rewrite Hl). simpl.
  split; [by eexists |].
  match goal with |- (Amazon.NextPage l ?s).1 = _ /\ _ => set (st1 := s) end.
  assert (Amazon.NextPage l st1 = ((None, Some doubleAdvance), st1)) as ->; [| done].
  apply (Amazon_NextPage_marked l st1 (Amazon.withNextPageCalled pg true)); [| done].
  subst st1. simpl.
  assert (forall (x : Amazon.s3ListObjectsFromDirectoryOutput) o, o = Some x -> default Amazon.zeroPage o = x) as Hd
    by (by intros x o ->).
  apply Hd.
  rewrite lookup_app_l by (rewrite length_insert; by eapply lookup_lt_Some).
  apply list_lookup_insert_eq. by eapply lookup_lt_Some.
Qed.

End AmazonPages.

(* ===================================================================== *)
(** * The local backend: pages of a directory listing                      *)
(* ===================================================================== *)

Section LocalPages.

Context {W : Type} `{os.API W}.

Implicit Types (st : Local.State W) (l : Local.loc).
Implicit Types (pg : Local.localListObjectsFromDirectoryOutput).

Lemma File_ReadDir_pages f n st : Local.pages (Local.File_ReadDir f n st).2 = Local.pages st.
Proof. by destruct f. Qed.

(** NextPage on a page that is marked: an error, no page, nothing done. *)
Lemma Local_NextPage_marked l st pg :
  default Local.zeroPage (Local.pages st !! l) = pg -> Local.nextPageCalled pg = true ->
  Local.NextPage l st = ((None, Some doubleAdvance), st).
Proof.
  intros Hl Hc. unfold Local.NextPage, bind, Local.load. simpl.
  rewrite Hl. by rewrite Hc.
Qed.

(** NextPage on an exhausted page: a new exhausted page and io.EOF; the page
    is not marked and nothing is read. *)
Lemma Local_NextPage_exhausted l st pg :
  default Local.zeroPage (Local.pages st !! l) = pg ->
  Local.nextPageCalled pg = false -> Local.isEOF pg = true ->
  Local.NextPage l st
  = ((Some (length (Local.pages st)), Some io_EOF),
     {| Local.world := Local.world st;
        Local.calls := Local.calls st;
        Local.pages :=
          Local.pages st
          ++ [Local.withEOF
                (Local.newPage (Local.directory pg) (Local.prefix pg) (Local.limit pg))
                true] |}).
Proof.
  intros Hl Hc He. unfold Local.NextPage, bind, Local.load. simpl.
  rewrite Hl. by rewrite Hc, He.
Qed.

(** NextPage on any other page: the page built from what ReadDir returned,
    with ReadDir's error or io.EOF; the page is marked. *)
Lemma Local_NextPage_read l st pg :
  default Local.zeroPage (Local.pages st !! l) = pg ->
  Local.nextPageCalled pg = false -> Local.isEOF pg = false ->
  let read := Local.File_ReadDir (Local.directory pg) (Local.limit pg) st in
  let page := Local.pageOfEntries pg read.1.1 read.1.2 in
  Local.NextPage l st
  = ((Some (length (Local.pages st)), page.2),
     {| Local.world := Local.world read.2;
        Local.calls := Local.calls read.2;
        Local.pages := <[l := Local.withNextPageCalled pg true]> (Local.pages st) ++ [page.1] |}).
Proof.
  intros Hl Hc He read page. unfold Local.NextPage, bind, Local.load. simpl.
  rewrite Hl. rewrite Hc, He. simpl.
  unfold Local.alloc, Local.store. simpl. fold read.
  pose proof (File_ReadDir_pages (Local.directory pg) (Local.limit pg) st) as Hp.
  fold read in Hp. by rewrite length_insert, Hp.
Qed.

(** The local half of the single-use rule. *)
Lemma Local_NextPage_single_use l st pg :
  Local.pages st !! l = Some pg ->
  Local.nextPageCalled pg = false -> Local.isEOF pg = false ->
  let first := Local.NextPage l st in
  let second := Local.NextPage l first.2 in
  is_Some first.1.1 /\ second.1 = (None, Some doubleAdvance) /\ second.2 = first.2.
Proof.
  intros Hl Hc He first second. subst second first.
  rewrite (Local_NextPage_read l st pg) by (done || by rewrite Hl). simpl.
  split; [by eexists |].
  match goal with |- (Local.NextPage l ?s).1 = _ /\ _ => set (st1 := s) end.
  assert (Local.NextPage l st1 = ((None, Some doubleAdvance), st1)) as ->; [| done].
  apply (Local_NextPage_marked l st1 (Local.withNextPageCalled pg true)); [| done].
  subst st1. simpl.
  assert (forall (x : Local.localListObjectsFromDirectoryOutput) o, o = Some x -> default Local.zeroPage o = x) as Hd
    by (by intros x o ->).
  apply Hd.
  rewrite lookup_app_l by (rewrite length_insert; by eapply lookup_lt_Some).
  apply list_lookup_insert_eq. by eapply lookup_lt_Some.
Qed.

End LocalPages.

(* ===================================================================== *)
(** * The claims about pages                                               *)
(* ===================================================================== *)

Section PageEntries.

Lemma entryPath_slash bp key : strings.HasPrefix (Amazon.entryPath bp key) "/" = true.
Proof.
  unfold Amazon.entryPath.
  destruct (strings.HasPrefix (removePrefixFromObjectPath bp key) "/") eqn:E; simpl; done.
Qed.

Lemma entryPath_not_empty bp key : Amazon.entryPath bp key <> "".
Proof.
  intros E. pose proof (entryPath_slash bp key) as Hs. by rewrite E in Hs.
Qed.

(** An entry is dropped exactly when its key is empty or its path without
    the root prefix is empty or "/". *)
Lemma keptEntry_None bp key :
  keptEntry bp key = None <->
  key = "" \/ removePrefixFromObjectPath bp key = "" \/ removePrefixFromObjectPath bp key = "/".
Proof.
  unfold keptEntry, Amazon.entryPath.
  destruct (String.eqb_spec key "") as [-> | Hk]; [by intuition |].
  destruct (removePrefixFromObjectPath bp key) as [|c s] eqn:E.
  - simpl. by intuition.
  - unfold strings.HasPrefix. simpl.
    destruct (Ascii.eqb_spec c "/") as [-> | Hc]; simpl.
    + destruct s; simpl; [by intuition |].
      split; [done | intros [? | [? | ?]]; done].
    + split; [done | intros [? | [? | [= ? ?]]]; done].
Qed.

Lemma keptEntry_Some bp key p :
  keptEntry bp key = Some p ->
  strings.HasPrefix p "/" = true /\ p <> "/" /\ objectPathIsInvalid p = true.
Proof.
  unfold keptEntry. destruct (String.eqb key ""); [done |].
  destruct (String.eqb_spec (Amazon.entryPath bp key) "/") as [? | Hne]; [done |].
  intros [= <-]. pose proof (entryPath_slash bp key) as Hs.
  repeat split; [done | done |].
  unfold objectPathIsInvalid.
  destruct (Amazon.entryPath bp key); [done |]. simpl. by rewrite Hs.
Qed.

Lemma fold_directoryStep bp cps : forall r,
  Amazon.filesRead (fold_left (Amazon.directoryStep bp) cps r) = Amazon.filesRead r /\
  Amazon.isEOF (fold_left (Amazon.directoryStep bp) cps r) = Amazon.isEOF r /\
  map Path (Amazon.directoriesRead (fold_left (Amazon.directoryStep bp) cps r))
  = map Path (Amazon.directoriesRead r) ++ omap (keptEntry bp) (omap s3.Prefix cps).
Proof.
  induction cps as [|d cps IH]; intros r; simpl.
  - by rewrite app_nil_r.
  - destruct (IH (Amazon.directoryStep bp r d)) as (-> & -> & ->).
    unfold Amazon.directoryStep, keptEntry.
    destruct (s3.Prefix d) as [k|]; simpl; [| done].
    destruct (String.eqb k ""); simpl; [done |].
    pose proof (entryPath_not_empty bp k) as Hne. apply String.eqb_neq in Hne.
    rewrite Hne. simpl.
    destruct (String.eqb (Amazon.entryPath bp k) "/"); simpl; [done |].
    by rewrite map_app, <- app_assoc.
Qed.

Lemma fold_fileStep bp fs : forall r,
  Amazon.directoriesRead (fold_left (Amazon.fileStep bp) fs r) = Amazon.directoriesRead r /\
  Amazon.isEOF (fold_left (Amazon.fileStep bp) fs r) = Amazon.isEOF r /\
  map Path (Amazon.filesRead (fold_left (Amazon.fileStep bp) fs r))
  = map Path (Amazon.filesRead r) ++ omap (keptEntry bp) (omap s3.Key fs).
Proof.
  induction fs as [|f fs IH]; intros r; simpl.
  - by rewrite app_nil_r.
  - destruct (IH (Amazon.fileStep bp r f)) as (-> & -> & ->).
    unfold Amazon.fileStep, keptEntry.
    destruct (s3.Key f) as [k|]; simpl; [| done].
    destruct (String.eqb k ""); simpl; [done |].
    pose proof (entryPath_not_empty bp k) as Hne. apply String.eqb_neq in Hne.
    rewrite Hne. simpl.
    destruct (String.eqb (Amazon.entryPath bp k) "/"); simpl; [done |].
    by rewrite map_app, <- app_assoc.
Qed.

(** The entries of the page built from an answer of the service. *)
Lemma pageOfOutput_entries pg out :
  let page := Amazon.pageOfOutput pg out in
  let bp := Amazon.Prefix (Amazon.backend pg) in
  map Path (Amazon.GetDirectories page)
    = omap (keptEntry bp) (omap s3.Prefix (s3.CommonPrefixes out)) /\
  map Path (Amazon.GetFiles page)
    = omap (keptEntry bp) (omap s3.Key (s3.Contents out)).
Proof.
  unfold Amazon.pageOfOutput, Amazon.GetDirectories, Amazon.GetFiles. simpl.
  set (r0 := match s3.NextContinuationToken out with
             | Some token => _
             | None => _
             end).
  assert (Amazon.filesRead r0 = [] /\ Amazon.directoriesRead r0 = []) as [Hf Hd]
    by (subst r0; by destruct (s3.NextContinuationToken out)).
  destruct (fold_directoryStep (Amazon.Prefix (Amazon.backend pg)) (s3.CommonPrefixes out) r0)
    as (Hf1 & _ & Hd1).
  destruct (fold_fileStep (Amazon.Prefix (Amazon.backend pg)) (s3.Contents out)
              (fold_left (Amazon.directoryStep (Amazon.Prefix (Amazon.backend pg)))
                 (s3.CommonPrefixes out) r0))
    as (Hd2 & _ & Hf2).
  split.
  - by rewrite Hd2, Hd1, Hd.
  - by rewrite Hf2, Hf1, Hf.
Qed.

Lemma pageOfOutput_isEOF pg out :
  Amazon.isEOF (Amazon.pageOfOutput pg out)
  = match s3.IsTruncated out with Some truncated => negb truncated | None => true end.
Proof. done. Qed.

Lemma fold_entryStep prefix entries : forall r,
  map Path (Local.directoriesRead (fold_left (Local.entryStep prefix) entries r))
  = map Path (Local.directoriesRead r)
    ++ map (localEntryPath prefix) (filter (fun e => os.IsDir e = true) entries) /\
  map Path (Local.filesRead (fold_left (Local.entryStep prefix) entries r))
  = map Path (Local.filesRead r)
    ++ map (localEntryPath prefix) (filter (fun e => os.IsDir e = false) entries).
Proof.
  induction entries as [|e entries IH]; intros r; simpl.
  - by rewrite !app_nil_r.
  - destruct (IH (Local.entryStep prefix r e)) as (-> & ->).
    unfold Local.entryStep. rewrite !filter_cons.
    destruct (os.IsDir e); simpl.
    + rewrite map_app, <- app_assoc. done.
    + rewrite map_app, <- app_assoc. done.
Qed.

(** The entries of the page built from what ReadDir returned. *)
Lemma pageOfEntries_entries pg entries err :
  let page := (Local.pageOfEntries pg entries err).1 in
  map Path (Local.GetDirectories page)
    = map (localEntryPath (Local.prefix pg)) (filter (fun e => os.IsDir e = true) entries) /\
  map Path (Local.GetFiles page)
    = map (localEntryPath (Local.prefix pg)) (filter (fun e => os.IsDir e = false) entries).
Proof.
  unfold Local.pageOfEntries, Local.GetDirectories, Local.GetFiles. simpl.
  destruct (fold_entryStep (Local.prefix pg) entries
              (Local.newPage (Local.directory pg) (Local.prefix pg) (Local.limit pg)))
    as (-> & ->). done.
Qed.

End PageEntries.

(** C6 (as amended). A page on which NextPage has fetched a successor, which
    is a page that was neither marked nor exhausted and, in the S3 backend,
    whose listing request was answered, refuses the next NextPage on it: an
    error, no successor, nothing else done. *)
Theorem NextPage_single_use :
  (forall (W : Type) (A : s3.API W) (l : Amazon.loc) (st : Amazon.State W)
          (pg : Amazon.s3ListObjectsFromDirectoryOutput) (out : s3.ListObjectsV2Output),
     Amazon.pages st !! l = Some pg ->
     Amazon.nextPageCalled pg = false -> Amazon.isEOF pg = false ->
     (s3.ListObjectsV2 (Amazon.nextPageRequest pg) (Amazon.world st)).1 = inl out ->
     let first := Amazon.NextPage l st in
     let second := Amazon.NextPage l first.2 in
     is_Some first.1.1 /\ second.1 = (None, Some doubleAdvance) /\ second.2 = first.2)
  /\
  (forall (W : Type) (A : os.API W) (l : Local.loc) (st : Local.State W)
          (pg : Local.localListObjectsFromDirectoryOutput),
     Local.pages st !! l = Some pg ->
     Local.nextPageCalled pg = false -> Local.isEOF pg = false ->
     let first := Local.NextPage l st in
     let second := Local.NextPage l first.2 in
     is_Some first.1.1 /\ second.1 = (None, Some doubleAdvance) /\ second.2 = first.2).
Proof.
  split; intros.
  - by eapply Amazon_NextPage_single_use.
  - by eapply Local_NextPage_single_use.
Qed.

(** C6 at the first page of a listing of "charts" one entry at a time. *)
Lemma NextPage_single_use_witness :
  let listed := Amazon.ListObjectsFromDirectory chartsBackend "" 1 (startS3 (threeKeys [])) in
  let first := Amazon.NextPage 1 listed.2 in
  let second := Amazon.NextPage 1 first.2 in
  listed.1 = (Some 1, None) /\
  is_Some first.1.1 /\ second.1 = (None, Some doubleAdvance) /\ second.2 = first.2.
Proof.
  intros listed. split; [vm_compute; reflexivity |].
  destruct NextPage_single_use as [Hs3 _].
  eapply (Hs3 S3Service.Service _ 1 listed.2).
  - vm_compute. reflexivity.
  - reflexivity.
  - reflexivity.
  - vm_compute. reflexivity.
Defined.

(** C6, as stated, fails on a page whose first NextPage did not fetch. The
    listing request of the first NextPage on the first page fails: the second
    NextPage on that page returns the second page and no error. And on the
    last page of a listing, every NextPage returns a new exhausted page. *)
Lemma NextPage_twice_succeeds :
  (let listed := Amazon.ListObjectsFromDirectory chartsBackend "" 1
                   (startS3 (threeKeys [None; None; Some SlowDown])) in
   let first := Amazon.NextPage 1 listed.2 in
   let second := Amazon.NextPage 1 first.2 in
   listed.1 = (Some 1, None) /\
   first.1 = (None, Some SlowDown) /\
   second.1 = (Some 2, None))
  /\
  (let listed := Amazon.ListObjectsFromDirectory chartsBackend "" 10
                   (startS3 (threeKeys [])) in
   let first := Amazon.NextPage 1 listed.2 in
   let second := Amazon.NextPage 1 first.2 in
   listed.1 = (Some 1, Some io_EOF) /\
   first.1 = (Some 2, Some io_EOF) /\
   second.1 = (Some 3, Some io_EOF) /\
   second.1.1 <> None).
Proof. vm_compute. repeat split. discriminate. Qed.

(** C8 (as amended). A page fetched by NextPage holds, in the S3 backend: as
    directories the common prefixes, and as files the keys, that the service
    returned for the request with the delimiter "/", in its order, each
    without the backend's root prefix and with a leading "/", those dropped
    whose key is empty or whose path is "/"; every entry starts with "/", so
    none passes objectPathIsInvalid. In the local backend: as directories the
    entries read that are directories, as files the others, each the
    cleaned join of the page's prefix and the entry's name. *)
Theorem page_entries :
  (forall (W : Type) (A : s3.API W) (l : Amazon.loc) (st : Amazon.State W)
          (pg : Amazon.s3ListObjectsFromDirectoryOutput) (out : s3.ListObjectsV2Output),
     Amazon.pages st !! l = Some pg ->
     Amazon.nextPageCalled pg = false -> Amazon.isEOF pg = false ->
     (s3.ListObjectsV2 (Amazon.nextPageRequest pg) (Amazon.world st)).1 = inl out ->
     s3.list_Delimiter (Amazon.nextPageRequest pg) = Some "/" /\
     exists (r : Amazon.loc) (page : Amazon.s3ListObjectsFromDirectoryOutput),
       (Amazon.NextPage l st).1.1 = Some r /\
       Amazon.pages (Amazon.NextPage l st).2 !! r = Some page /\
       map Path (Amazon.GetDirectories page)
         = omap (keptEntry (Amazon.Prefix (Amazon.backend pg)))
                (omap s3.Prefix (s3.CommonPrefixes out)) /\
       map Path (Amazon.GetFiles page)
         = omap (keptEntry (Amazon.Prefix (Amazon.backend pg)))
                (omap s3.Key (s3.Contents out)) /\
       (forall m : Metadata,
          m ∈ Amazon.GetDirectories page ++ Amazon.GetFiles page ->
          strings.HasPrefix (Path m) "/" = true /\ Path m <> "/" /\
          objectPathIsInvalid (Path m) = true))
  /\
  (forall (W : Type) (A : os.API W) (l : Local.loc) (st : Local.State W)
          (pg : Local.localListObjectsFromDirectoryOutput),
     Local.pages st !! l = Some pg ->
     Local.nextPageCalled pg = false -> Local.isEOF pg = false ->
     let entries := (Local.File_ReadDir (Local.directory pg) (Local.limit pg) st).1.1 in
     exists (r : Local.loc) (page : Local.localListObjectsFromDirectoryOutput),
       (Local.NextPage l st).1.1 = Some r /\
       Local.pages (Local.NextPage l st).2 !! r = Some page /\
       map Path (Local.GetDirectories page)
         = map (localEntryPath (Local.prefix pg))
               (filter (fun e => os.IsDir e = true) entries) /\
       map Path (Local.GetFiles page)
         = map (localEntryPath (Local.prefix pg))
               (filter (fun e => os.IsDir e = false) entries)).
Proof.
  split.
  - intros W A l st pg out Hl Hc He Hr. split; [done |].
    rewrite (Amazon_NextPage_fetched l st pg out) by (done || by rewrite Hl). simpl.
    exists (length (Amazon.pages st)), (Amazon.pageOfOutput pg out).
    destruct (pageOfOutput_entries pg out) as [Hd Hf].
    split; [done |]. split; [by apply list_lookup_middle; rewrite length_insert |].
    split; [done |]. split; [done |].
    intros m Hm.
    assert (Path m ∈ map Path (Amazon.GetDirectories (Amazon.pageOfOutput pg out)
                              ++ Amazon.GetFiles (Amazon.pageOfOutput pg out))) as Hp
      by (by apply list_elem_of_fmap_2).
    rewrite map_app, Hd, Hf in Hp.
    apply elem_of_app in Hp as [Hp | Hp];
      apply list_elem_of_omap in Hp as (k & _ & Hk); by eapply keptEntry_Some.
  - intros W A l st pg Hl Hc He entries.
    rewrite (Local_NextPage_read l st pg) by (done || by rewrite Hl). simpl.
    eexists (length (Local.pages st)), _.
    split; [done |]. split; [by apply list_lookup_middle; rewrite length_insert |].
    apply pageOfEntries_entries.
Qed.

(** C8 at the second page of a listing of "charts" two entries at a time:
    it holds the directory "/dir/". *)
Lemma page_entries_witness :
  let listed := Amazon.ListObjectsFromDirectory chartsBackend "" 2 (startS3 (threeKeys [])) in
  exists (r : Amazon.loc) (page : Amazon.s3ListObjectsFromDirectoryOutput),
    (Amazon.NextPage 1 listed.2).1.1 = Some r /\
    Amazon.pages (Amazon.NextPage 1 listed.2).2 !! r = Some page /\
    map Path (Amazon.GetDirectories page) = ["/dir/"] /\
    map Path (Amazon.GetFiles page) = [].
Proof.
  intros listed.
  destruct page_entries as [Hs3 _].
  edestruct (Hs3 S3Service.Service _ 1 listed.2) as (_ & r & page & Hr & Hp & Hd & Hf & _).
  - vm_compute. reflexivity.
  - reflexivity.
  - reflexivity.
  - vm_compute. reflexivity.
  - exists r, page. split; [exact Hr |]. split; [exact Hp |].
    rewrite Hd, Hf. vm_compute. split; reflexivity.
Defined.

(** C8, as stated, fails on the listing of "charts": its page holds the
    directory "/dir/", which ends with the separator, and the file "/a.tgz";
    both fail isValidLeaf (objectPathIsInvalid says so) and are on the page. *)
Lemma page_keeps_invalid_leaves :
  let listed := Amazon.ListObjectsFromDirectory chartsBackend "" 10 (startS3 (threeKeys [])) in
  exists page : Amazon.s3ListObjectsFromDirectoryOutput,
    listed.1 = (Some 1, Some io_EOF) /\
    Amazon.pages listed.2 !! 1 = Some page /\
    map Path (Amazon.GetDirectories page) = ["/dir/"] /\
    map Path (Amazon.GetFiles page) = ["/a.tgz"; "/b.tgz"] /\
    strings.HasSuffix "/dir/" "/" = true /\
    objectPathIsInvalid "/dir/" = true /\
    objectPathIsInvalid "/a.tgz" = true.
Proof. vm_compute. eexists. repeat split. Qed.

(* ===================================================================== *)
(** * The last page and io.EOF; a path that is an object                   *)
(* ===================================================================== *)

Section LastPage.

(** NextPage of the S3 backend returns a last page with io.EOF. *)
Lemma Amazon_NextPage_last {W : Type} `{s3.API W} (l : Amazon.loc) (st : Amazon.State W)
    (r : Amazon.loc) (err : option error) (page : Amazon.s3ListObjectsFromDirectoryOutput) :
  (Amazon.NextPage l st).1 = (Some r, err) ->
  Amazon.pages (Amazon.NextPage l st).2 !! r = Some page ->
  Amazon.IsTruncated page = false ->
  err = Some io_EOF.
Proof.
  unfold Amazon.NextPage, bind, Amazon.load. simpl.
  set (pg := default Amazon.zeroPage (Amazon.pages st !! l)).
  destruct (Amazon.nextPageCalled pg); simpl; [done |].
  destruct (Amazon.isEOF pg); simpl; [by intros [= <- <-] |].
  destruct (s3.ListObjectsV2 _ _).1 as [out | e]; simpl; [| done].
  intros [= <- <-]. rewrite list_lookup_middle by done. intros [= <-].
  unfold Amazon.IsTruncated. rewrite pageOfOutput_isEOF.
  intros ->%negb_false_iff. done.
Qed.

(** So does ListObjectsFromDirectory of the S3 backend. *)
Lemma Amazon_ListObjectsFromDirectory_last {W : Type} `{s3.API W}
    (b : Amazon.AmazonS3Backend) (prefix : string) (limit : Z) (st : Amazon.State W)
    (r : Amazon.loc) (err : option error) (page : Amazon.s3ListObjectsFromDirectoryOutput) :
  (Amazon.ListObjectsFromDirectory b prefix limit st).1 = (Some r, err) ->
  Amazon.pages (Amazon.ListObjectsFromDirectory b prefix limit st).2 !! r = Some page ->
  Amazon.IsTruncated page = false ->
  err = Some io_EOF.
Proof.
  unfold Amazon.ListObjectsFromDirectory, bind, Amazon.Client_HeadObject. simpl.
  destruct (s3.HeadObject _ _).1 as [e|]; simpl; [| done].
  destruct e; simpl; try apply Amazon_NextPage_last.
  destruct (negb _); simpl; [done | apply Amazon_NextPage_last].
Qed.

(** The error the local backend's page comes with, when the page is the
    last: io.EOF, or ReadDir's error when that is io.EOF. *)
Lemma pageOfEntries_last pg entries err :
  Local.isEOF (Local.pageOfEntries pg entries err).1 = true ->
  exists e, (Local.pageOfEntries pg entries err).2 = Some e /\ errors_Is e io_EOF = true.
Proof.
  unfold Local.pageOfEntries. simpl.
  destruct err as [e|]; simpl.
  - rewrite !andb_false_r, orb_false_r. intros [_ He]%andb_true_iff.
    exists e. by rewrite He.
  - rewrite !andb_false_r, !andb_true_r. simpl. intros ->. by exists io_EOF.
Qed.

Lemma Local_NextPage_last {W : Type} `{os.API W} (l : Local.loc) (st : Local.State W)
    (r : Local.loc) (err : option error) (page : Local.localListObjectsFromDirectoryOutput) :
  (Local.NextPage l st).1 = (Some r, err) ->
  Local.pages (Local.NextPage l st).2 !! r = Some page ->
  Local.IsTruncated page = false ->
  exists e, err = Some e /\ errors_Is e io_EOF = true.
Proof.
  set (pg := default Local.zeroPage (Local.pages st !! l)).
  destruct (Local.nextPageCalled pg) eqn:Hc.
  { by rewrite (Local_NextPage_marked l st pg). }
  destruct (Local.isEOF pg) eqn:He.
  { rewrite (Local_NextPage_exhausted l st pg) by done.
    intros [= <- <-]. by exists io_EOF. }
  rewrite (Local_NextPage_read l st pg) by done. cbn [fst snd Local.pages].
  intros [Hr <-]%pair_equal_spec. injection Hr as <-.
  rewrite list_lookup_middle by (by rewrite length_insert).
  intros Hp. apply Some_inj in Hp. subst page.
  unfold Local.IsTruncated. intros He'%negb_false_iff.
  by apply pageOfEntries_last.
Qed.

(** ListObjectsFromDirectory of the local backend, on a path whose Open does
    not say that it does not exist. *)
Lemma Local_ListObjectsFromDirectory_last {W : Type} `{os.API W}
    (b : Local.LocalFilesystemBackend) (prefix : string) (limit : Z) (st : Local.State W)
    (r : Local.loc) (err : option error) (page : Local.localListObjectsFromDirectoryOutput) :
  (forall e, (os.Open (path.Join [Local.RootDirectory b; prefix]) (Local.world st)).1 = inr e ->
             os_IsNotExist e = false) ->
  (Local.ListObjectsFromDirectory b prefix limit st).1 = (Some r, err) ->
  Local.pages (Local.ListObjectsFromDirectory b prefix limit st).2 !! r = Some page ->
  Local.IsTruncated page = false ->
  exists e, err = Some e /\ errors_Is e io_EOF = true.
Proof.
  intros Hopen. unfold Local.ListObjectsFromDirectory, bind, Local.os_Open. simpl.
  destruct (os.Open _ _).1 as [f | e] eqn:Ho; simpl.
  - unfold Local.File_Stat. simpl.
    destruct (os.Stat _ _).1 as [fi | e]; simpl; [| done].
    destruct (negb _); simpl; [done | apply Local_NextPage_last].
  - rewrite (Hopen e eq_refl). done.
Qed.

(** ListObjectsFromDirectory of the local backend, on a path whose Open says
    that it does not exist: the exhausted empty page and no error. *)
Lemma Local_ListObjectsFromDirectory_missing {W : Type} `{os.API W}
    (b : Local.LocalFilesystemBackend) (prefix : string) (limit : Z) (st : Local.State W)
    (e : error) :
  (os.Open (path.Join [Local.RootDirectory b; prefix]) (Local.world st)).1 = inr e ->
  os_IsNotExist e = true ->
  let listed := Local.ListObjectsFromDirectory b prefix limit st in
  listed.1 = (Some (length (Local.pages st)), None) /\
  Local.pages listed.2 !! length (Local.pages st)
    = Some (Local.withEOF (Local.newPage None prefix limit) true).
Proof.
  intros Ho He. unfold Local.ListObjectsFromDirectory, bind, Local.os_Open. simpl.
  rewrite Ho. simpl. rewrite He. simpl. split; [done |].
  by apply list_lookup_middle.
Qed.

End LastPage.

(** C10 (as amended). Whenever NextPage of either backend, or
    ListObjectsFromDirectory of the S3 backend, or ListObjectsFromDirectory
    of the local backend on a path whose Open does not report it missing,
    returns a page that is not truncated, it returns it with an error that is
    io.EOF, not nil. ListObjectsFromDirectory of the local backend on a path
    that does not exist returns the exhausted empty page with a nil error. *)
Theorem last_page_comes_with_EOF :
  (forall (W : Type) (A : s3.API W) (l : Amazon.loc) (st : Amazon.State W)
          (r : Amazon.loc) (err : option error) (page : Amazon.s3ListObjectsFromDirectoryOutput),
     (Amazon.NextPage l st).1 = (Some r, err) ->
     Amazon.pages (Amazon.NextPage l st).2 !! r = Some page ->
     Amazon.IsTruncated page = false ->
     err = Some io_EOF)
  /\
  (forall (W : Type) (A : s3.API W) (b : Amazon.AmazonS3Backend) (prefix : string) (limit : Z)
          (st : Amazon.State W)
          (r : Amazon.loc) (err : option error) (page : Amazon.s3ListObjectsFromDirectoryOutput),
     (Amazon.ListObjectsFromDirectory b prefix limit st).1 = (Some r, err) ->
     Amazon.pages (Amazon.ListObjectsFromDirectory b prefix limit st).2 !! r = Some page ->
     Amazon.IsTruncated page = false ->
     err = Some io_EOF)
  /\
  (forall (W : Type) (A : os.API W) (l : Local.loc) (st : Local.State W)
          (r : Local.loc) (err : option error) (page : Local.localListObjectsFromDirectoryOutput),
     (Local.NextPage l st).1 = (Some r, err) ->
     Local.pages (Local.NextPage l st).2 !! r = Some page ->
     Local.IsTruncated page = false ->
     exists e, err = Some e /\ errors_Is e io_EOF = true)
  /\
  (forall (W : Type) (A : os.API W) (b : Local.LocalFilesystemBackend) (prefix : string)
          (limit : Z) (st : Local.State W)
          (r : Local.loc) (err : option error) (page : Local.localListObjectsFromDirectoryOutput),
     (forall e,
        (os.Open (path.Join [Local.RootDirectory b; prefix]) (Local.world st)).1 = inr e ->
        os_IsNotExist e = false) ->
     (Local.ListObjectsFromDirectory b prefix limit st).1 = (Some r, err) ->
     Local.pages (Local.ListObjectsFromDirectory b prefix limit st).2 !! r = Some page ->
     Local.IsTruncated page = false ->
     exists e, err = Some e /\ errors_Is e io_EOF = true)
  /\
  (forall (W : Type) (A : os.API W) (b : Local.LocalFilesystemBackend) (prefix : string)
          (limit : Z) (st : Local.State W) (e : error),
     (os.Open (path.Join [Local.RootDirectory b; prefix]) (Local.world st)).1 = inr e ->
     os_IsNotExist e = true ->
     let listed := Local.ListObjectsFromDirectory b prefix limit st in
     listed.1 = (Some (length (Local.pages st)), None) /\
     Local.pages listed.2 !! length (Local.pages st)
       = Some (Local.withEOF (Local.newPage None prefix limit) true)).
Proof.
  repeat split; intros.
  - by eapply Amazon_NextPage_last.
  - by eapply Amazon_ListObjectsFromDirectory_last.
  - by eapply Local_NextPage_last.
  - by eapply Local_ListObjectsFromDirectory_last.
  - by eapply Local_ListObjectsFromDirectory_missing.
  - by eapply Local_ListObjectsFromDirectory_missing.
Qed.

(** C10 at the listing of "charts", complete in its first page. *)
Lemma last_page_comes_with_EOF_witness :
  let listed := Amazon.ListObjectsFromDirectory chartsBackend "" 10 (startS3 (threeKeys [])) in
  listed.1.1 = Some 1 /\ listed.1.2 = Some io_EOF.
Proof.
  intros listed. split; [vm_compute; reflexivity |].
  destruct last_page_comes_with_EOF as (_ & Hlist & _).
  eapply (Hlist S3Service.Service _ chartsBackend "" 10%Z (startS3 (threeKeys [])) 1
            listed.1.2).
  - vm_compute. reflexivity.
  - vm_compute. reflexivity.
  - reflexivity.
Defined.

(** C10, as stated, fails for the local backend on a directory that does not
    exist: the page is the last one and the error is nil. *)
Lemma missing_directory_has_no_EOF :
  let listed := Local.ListObjectsFromDirectory dataBackend "missing" 10 (startLocal dataFS) in
  listed.1 = (Some 0, None) /\
  Local.IsTruncated <$> Local.pages listed.2 !! 0 = Some false /\
  listed.1.2 <> Some io_EOF.
Proof. vm_compute. repeat split. discriminate. Qed.

(** The S3 backend on a path that resolves to an object (its HeadObject finds
    one): ErrPrefixIsAnObject, and nothing sent but the HeadObject. *)
Lemma Amazon_ListObjectsFromDirectory_object {W : Type} `{s3.API W}
    (b : Amazon.AmazonS3Backend) (prefix : string) (limit : Z) (st : Amazon.State W) :
  let head := {| s3.head_Bucket := Amazon.Bucket b;
                 s3.head_Key := objectKey (Amazon.Prefix b) prefix |} in
  (s3.HeadObject head (Amazon.world st)).1 = None ->
  let listed := Amazon.ListObjectsFromDirectory b prefix limit st in
  listed.1 = (None, Some ErrPrefixIsAnObject) /\
  Amazon.calls listed.2 = Amazon.calls st ++ [s3.CallHeadObject head] /\
  Amazon.pages listed.2 = Amazon.pages st.
Proof.
  intros head Hh. unfold Amazon.ListObjectsFromDirectory, bind, Amazon.Client_HeadObject.
  simpl. fold head. by rewrite Hh.
Qed.

(** The local backend on a path that resolves to a file (Open gives a file
    whose Stat says it is no directory): an error made on the spot, which is
    not ErrPrefixIsAnObject, and nothing read. *)
Lemma Local_ListObjectsFromDirectory_file {W : Type} `{os.API W}
    (b : Local.LocalFilesystemBackend) (prefix : string) (limit : Z) (st : Local.State W)
    (f : os.File) (fi : os.FileInfo) :
  let name := path.Join [Local.RootDirectory b; prefix] in
  (os.Open name (Local.world st)).1 = inl f ->
  (os.Stat f (os.Open name (Local.world st)).2).1 = inl fi ->
  os.info_IsDir fi = false ->
  let listed := Local.ListObjectsFromDirectory b prefix limit st in
  listed.1 = (None, Some (errors_New "prefix is not a directory")) /\
  errors_Is (errors_New "prefix is not a directory") ErrPrefixIsAnObject = false /\
  Local.calls listed.2 = Local.calls st ++ [os.CallOpen name; os.CallStat f].
Proof.
  intros name Ho Hs Hd.
  unfold Local.ListObjectsFromDirectory, bind, Local.os_Open. simpl. fold name.
  rewrite Ho. simpl. unfold Local.File_Stat. simpl. rewrite Hs. simpl. rewrite Hd. simpl.
  repeat split. by rewrite <- app_assoc.
Qed.

(** C4 fails for the local backend. Listing the file "/data/a.tgz" as a
    directory returns the error "prefix is not a directory", which is not
    ErrPrefixIsAnObject; nothing was read. *)
Theorem Local_ListObjectsFromDirectory_not_ErrPrefixIsAnObject :
  let listed := Local.ListObjectsFromDirectory dataBackend "a.tgz" 10 (startLocal dataFS) in
  listed.1 = (None, Some (errors_New "prefix is not a directory")) /\
  listed.1.2 <> Some ErrPrefixIsAnObject /\
  Local.calls listed.2 = [os.CallOpen "/data/a.tgz"; os.CallStat 0].
Proof. vm_compute. repeat split. discriminate. Qed.

(* ===================================================================== *)
(** * GetObjectSliceDiff: the lists as a whole                             *)
(* ===================================================================== *)

Section DiffLists.

Implicit Types (prev curr objs : list Object) (o p c : Object) (k : string).
Implicit Types (t : time.Duration).

Lemma removedOf_filter curr prev :
  removedOf (indexByPath curr) prev = filter (fun p : Object => Path p ∉ paths curr) prev.
Proof. unfold removedOf. apply list_filter_iff. intros p. apply indexByPath_None. Qed.

Lemma addedOf_filter prev curr :
  addedOf (indexByPath prev) curr = filter (fun c : Object => Path c ∉ paths prev) curr.
Proof. unfold addedOf. apply list_filter_iff. intros c. apply indexByPath_None. Qed.

Lemma filter_nil_iff {A : Type} (P : A -> Prop) `{forall x, Decision (P x)} (l : list A) :
  filter P l = [] <-> forall x, x ∈ l -> ~ P x.
Proof.
  split.
  - intros E x Hx HP. assert (x ∈ filter P l) as Hin by (by apply list_elem_of_filter).
    rewrite E in Hin. by apply elem_of_nil in Hin.
  - intros Hn. destruct (filter P l) as [|x l'] eqn:E; [done |].
    assert (x ∈ filter P l) as Hin by (rewrite E; apply list_elem_of_here).
    apply list_elem_of_filter in Hin as [HP Hx]. by destruct (Hn x Hx).
Qed.

Lemma nil_iff_no_elem {A : Type} (l : list A) : l = [] <-> forall x, x ∉ l.
Proof.
  split; [intros -> x; apply not_elem_of_nil |].
  destruct l as [|x l]; [done |]. intros Hn. destruct (Hn x). apply list_elem_of_here.
Qed.

(** The flag is unset exactly when the three lists are empty. *)
Lemma Change_false_lists prev curr t :
  let d := GetObjectSliceDiff prev curr t in
  Change d = false <-> Removed d = [] /\ Added d = [] /\ Updated d = [].
Proof.
  intros d. subst d. unfold GetObjectSliceDiff. cbn [Change Removed Added Updated withChange].
  rewrite Nat.ltb_ge. rewrite <- !length_zero_iff_nil. lia.
Qed.

(** Removed is the previous slice without the objects whose path the current
    slice has, and Added the current slice without the objects whose path the
    previous slice has; each keeps the order and the repetitions of the slice
    it is taken from. *)
Theorem GetObjectSliceDiff_removed_added prev curr t :
  let d := GetObjectSliceDiff prev curr t in
  Removed d = filter (fun p : Object => Path p ∉ paths curr) prev /\
  Added d = filter (fun c : Object => Path c ∉ paths prev) curr.
Proof.
  intros d. subst d. rewrite GetObjectSliceDiff_Removed, GetObjectSliceDiff_Added.
  split; [apply removedOf_filter | apply addedOf_filter].
Qed.

(** No change is reported exactly when the two slices have the same paths and
    no entry of the previous slice is exceeded, by more than the tolerance, by
    the object the current slice's map holds at its path. *)
Theorem GetObjectSliceDiff_no_change prev curr t :
  Change (GetObjectSliceDiff prev curr t) = false <->
  (forall k, k ∈ paths prev <-> k ∈ paths curr) /\
  (forall p c, p ∈ prev -> indexByPath curr !! Path p = Some c ->
               (time.Sub (LastModified c) (LastModified p) <= t)%Z).
Proof.
  rewrite Change_false_lists.
  rewrite GetObjectSliceDiff_Removed, GetObjectSliceDiff_Added.
  rewrite removedOf_filter, addedOf_filter, !filter_nil_iff, nil_iff_no_elem.
  split.
  - intros (Hr & Ha & Hu). split.
    + intros k. split; intros Hk; apply elem_of_paths in Hk as (o & Ho & <-).
      * specialize (Hr o Ho). by apply dec_stable in Hr.
      * specialize (Ha o Ho). by apply dec_stable in Ha.
    + intros p c Hp Hc.
      destruct (Z.le_gt_cases (time.Sub (LastModified c) (LastModified p)) t) as [| Hgt];
        [done |].
      destruct (Hu c). apply updated_elem. exists p. split; [done |]. split; [done | lia].
  - intros [Hk Ht]. repeat split.
    + intros p Hp Hn. apply Hn, Hk, elem_of_paths. eauto.
    + intros c Hc Hn. apply Hn, Hk, elem_of_paths. eauto.
    + intros c Hc. apply updated_elem in Hc as (p & Hp & Hc & Hgt).
      specialize (Ht p c Hp Hc). lia.
Qed.

(** The order of a listing does not matter to the flag: for a tolerance that
    is not negative, a slice without two objects of one path shows no change
    against any reordering of itself, and all three lists are empty. *)
Theorem GetObjectSliceDiff_reordered prev curr t :
  NoDup (paths prev) -> curr ≡ₚ prev -> (0 <= t)%Z ->
  GetObjectSliceDiff prev curr t
  = {| Change := false; Removed := []; Added := []; Updated := [] |}.
Proof.
  intros Hnd Hperm Ht.
  assert (Hpaths : paths curr ≡ₚ paths prev) by (unfold paths; by rewrite Hperm).
  assert (Hlists : Removed (GetObjectSliceDiff prev curr t) = [] /\
                   Added (GetObjectSliceDiff prev curr t) = [] /\
                   Updated (GetObjectSliceDiff prev curr t) = []).
  { rewrite GetObjectSliceDiff_Removed, GetObjectSliceDiff_Added.
    rewrite removedOf_filter, addedOf_filter, !filter_nil_iff, nil_iff_no_elem.
    repeat split.
    - intros p Hp Hn. apply Hn. rewrite Hpaths. apply elem_of_paths. eauto.
    - intros c Hc Hn. apply Hn. rewrite <- Hpaths. apply elem_of_paths. eauto.
    - intros c Hc. apply updated_elem in Hc as (p & Hp & Hc & Hgt).
      assert (indexByPath curr !! Path p = Some p) as E.
      { apply indexByPath_NoDup; [by rewrite Hpaths | by rewrite Hperm]. }
      assert (c = p) as -> by congruence.
      unfold time.Sub, time.minDuration, time.maxDuration in Hgt. lia. }
  pose proof (Change_false_lists prev curr t) as Hc. cbv zeta in Hc.
  destruct Hlists as (Hr & Ha & Hu).
  destruct (GetObjectSliceDiff prev curr t) as [ch r a u]. simpl in *.
  subst r a u. f_equal. by apply Hc.
Qed.

(** The theorem at a listing of two objects and the same listing in the other
    order. *)
Lemma GetObjectSliceDiff_reordered_witness :
  GetObjectSliceDiff [obj "a" 1; obj "b" 2] [obj "b" 2; obj "a" 1] 0
  = {| Change := false; Removed := []; Added := []; Updated := [] |}.
Proof.
  apply (GetObjectSliceDiff_reordered [obj "a" 1; obj "b" 2] [obj "b" 2; obj "a" 1] 0%Z).
  - apply (bool_decide_unpack _). vm_compute. reflexivity.
  - apply perm_swap.
  - lia.
Defined.

(** What a diff reports as removed, the diff of the same slices taken the
    other way round reports as added, and conversely, whatever the
    tolerances. For tolerances that are not negative and slices without two
    objects of one path, no path is updated both ways. *)
Theorem GetObjectSliceDiff_swap prev curr (t t' : time.Duration) :
  let d := GetObjectSliceDiff prev curr t in
  let d' := GetObjectSliceDiff curr prev t' in
  Removed d = Added d' /\
  Added d = Removed d' /\
  (NoDup (paths prev) -> NoDup (paths curr) -> (0 <= t)%Z -> (0 <= t')%Z ->
   forall k, ~ (k ∈ paths (Updated d) /\ k ∈ paths (Updated d'))).
Proof.
  intros d d'. subst d d'.
  rewrite !GetObjectSliceDiff_Removed, !GetObjectSliceDiff_Added.
  split; [done |]. split; [done |].
  intros Hp Hc Ht Ht' k [H1 H2].
  apply elem_of_paths in H1 as (c & H1 & <-).
  apply elem_of_paths in H2 as (p' & H2 & Hk).
  apply updated_elem in H1 as (p & Hin & Hlk & Hgt).
  apply updated_elem in H2 as (c' & Hin' & Hlk' & Hgt').
  destruct (indexByPath_Some _ _ _ Hlk) as [Hcin Hcp].
  destruct (indexByPath_Some _ _ _ Hlk') as [Hpin Hpc].
  assert (c' = c) as ->.
  { pose proof (indexByPath_NoDup curr c' Hc Hin') as E1.
    pose proof (indexByPath_NoDup curr c Hc Hcin) as E2.
    assert (Path c' = Path c) as E by congruence. rewrite E in E1. congruence. }
  assert (p' = p) as ->.
  { pose proof (indexByPath_NoDup prev p' Hp Hpin) as E1.
    pose proof (indexByPath_NoDup prev p Hp Hin) as E2.
    assert (Path p' = Path p) as E by congruence. rewrite E in E1. congruence. }
  unfold time.Sub, time.minDuration, time.maxDuration in *. lia.
Qed.

Lemma updatedOf_sublist (cos : gmap string Object) (t t' : time.Duration) prev :
  (t <= t')%Z -> updatedOf cos t' prev `sublist_of` updatedOf cos t prev.
Proof.
  intros Hle. induction prev as [|p prev IH]; [done |].
  unfold updatedOf in *. simpl.
  destruct (cos !! Path p : option Object) as [c|]; simpl; [| done].
  destruct (Z.gtb_spec (time.Sub (LastModified c) (LastModified p)) t');
    destruct (Z.gtb_spec (time.Sub (LastModified c) (LastModified p)) t); simpl.
  - by apply sublist_skip.
  - lia.
  - by apply sublist_cons.
  - done.
Qed.

(** A larger tolerance reports fewer updates and changes nothing else: the
    updates under the larger tolerance are among those under the smaller one,
    in the same order, and Removed and Added are the same. Under the largest
    duration nothing is ever updated, since a difference of time stamps
    saturates there. *)
Theorem GetObjectSliceDiff_tolerance prev curr (t t' : time.Duration) :
  (t <= t')%Z ->
  let d := GetObjectSliceDiff prev curr t in
  let d' := GetObjectSliceDiff prev curr t' in
  Updated d' `sublist_of` Updated d /\
  Removed d' = Removed d /\
  Added d' = Added d /\
  (Change d' = true -> Change d = true) /\
  ((time.maxDuration <= t')%Z -> Updated d' = []).
Proof.
  intros Hle d d'.
  assert (Hsub : Updated d' `sublist_of` Updated d).
  { subst d d'. rewrite !GetObjectSliceDiff_Updated. by apply updatedOf_sublist. }
  assert (Hr : Removed d' = Removed d).
  { subst d d'. by rewrite !GetObjectSliceDiff_Removed. }
  assert (Ha : Added d' = Added d).
  { subst d d'. by rewrite !GetObjectSliceDiff_Added. }
  repeat split; [done .. | |].
  - intros Hch. destruct (Change d) eqn:E; [done |].
    apply (Change_false_lists prev curr t) in E as (E1 & E2 & E3). fold d in E1, E2, E3.
    assert (Change d' = false) as E'; [| congruence].
    apply (Change_false_lists prev curr t'). fold d'.
    rewrite Hr, Ha, E1, E2. repeat split.
    rewrite E3 in Hsub. by apply sublist_nil_r in Hsub.
  - intros Hmax. apply nil_iff_no_elem. intros c Hc. subst d'.
    apply updated_elem in Hc as (p & _ & _ & Hgt).
    unfold time.Sub, time.minDuration, time.maxDuration in *. lia.
Qed.

(** The theorem at the tolerances of one and of ten seconds. *)
Lemma GetObjectSliceDiff_tolerance_witness :
  let d := GetObjectSliceDiff [obj "a" 0] [obj "a" (5 * time.Second)] (1 * time.Second) in
  let d' := GetObjectSliceDiff [obj "a" 0] [obj "a" (5 * time.Second)] (10 * time.Second) in
  Updated d' `sublist_of` Updated d /\
  Removed d' = Removed d /\
  Added d' = Added d /\
  (Change d' = true -> Change d = true) /\
  ((time.maxDuration <= 10 * time.Second)%Z -> Updated d' = []).
Proof.
  apply (GetObjectSliceDiff_tolerance [obj "a" 0] [obj "a" (5 * time.Second)]
           (1 * time.Second)%Z (10 * time.Second)%Z).
  vm_compute. discriminate.
Defined.

End DiffLists.

(* ===================================================================== *)
(** * cleanPrefix and the keys of the requests                             *)
(* ===================================================================== *)

Section CleanPrefix.

Lemma inCutset_sep c : strings.inCutset c "/" = Ascii.eqb c "/".
Proof. simpl. apply orb_false_r. Qed.

Lemma HasPrefix_cons c s d :
  strings.HasPrefix (String c s) (String d "") = Ascii.eqb c d.
Proof. unfold strings.HasPrefix. simpl. by destruct (Ascii.eqb c d). Qed.

Lemma TrimLeft_head s : strings.HasPrefix (strings.TrimLeft s "/") "/" = false.
Proof.
  induction s as [|c s IH]; [done |].
  simpl strings.TrimLeft. rewrite orb_false_r.
  destruct (Ascii.eqb c "/") eqn:E; [done |]. by rewrite HasPrefix_cons.
Qed.

Lemma TrimLeft_slashes s : exists n, s = slashes n +:+ strings.TrimLeft s "/".
Proof.
  induction s as [|c s [n IH]]; [by exists 0%nat |].
  simpl strings.TrimLeft. rewrite orb_false_r.
  destruct (Ascii.eqb_spec c "/") as [-> | Hne].
  - exists (S n). simpl. rewrite append_cons. by rewrite <- IH.
  - by exists 0%nat.
Qed.

Lemma TrimRight_cons c s :
  strings.TrimRight (String c s) "/"
  = match strings.TrimRight s "/" with
    | EmptyString => if Ascii.eqb c "/" then "" else String c ""
    | r => String c r
    end.
Proof. simpl. by rewrite orb_false_r. Qed.

Lemma HasSuffix_cons c s :
  strings.HasSuffix (String c s) "/"
  = String.eqb (String c s) "/" || strings.HasSuffix s "/".
Proof. simpl. by destruct (Ascii.eqb c "/"); destruct s. Qed.

Lemma TrimRight_tail s : strings.HasSuffix (strings.TrimRight s "/") "/" = false.
Proof.
  induction s as [|c s IH]; [done |].
  rewrite TrimRight_cons. destruct (strings.TrimRight s "/") as [|d r] eqn:E.
  - destruct (Ascii.eqb c "/") eqn:Ec; [done |].
    rewrite HasSuffix_cons. simpl. by rewrite Ec.
  - rewrite HasSuffix_cons, IH. simpl. by destruct (Ascii.eqb c "/").
Qed.

Lemma TrimRight_head s :
  strings.HasPrefix s "/" = false -> strings.HasPrefix (strings.TrimRight s "/") "/" = false.
Proof.
  destruct s as [|c s]; [done |]. rewrite HasPrefix_cons. intros Hc.
  rewrite TrimRight_cons. destruct (strings.TrimRight s "/"); rewrite ?Hc;
    by rewrite ?HasPrefix_cons.
Qed.

Lemma TrimRight_slashes s : exists m, s = strings.TrimRight s "/" +:+ slashes m.
Proof.
  induction s as [|c s [m IH]]; [by exists 0%nat |].
  rewrite TrimRight_cons. destruct (strings.TrimRight s "/") as [|d r] eqn:E.
  - rewrite append_nil_l in IH. destruct (Ascii.eqb_spec c "/") as [-> | Hne].
    + exists (S m). rewrite append_nil_l. simpl. by rewrite <- IH.
    + exists m. rewrite append_cons, append_nil_l. by rewrite <- IH.
  - exists m. rewrite append_cons. by rewrite <- IH.
Qed.

Lemma TrimRight_fixed s :
  strings.HasSuffix s "/" = false -> strings.TrimRight s "/" = s.
Proof.
  induction s as [|c s IH]; [done |].
  rewrite HasSuffix_cons. intros [Hc Hs]%orb_false_elim.
  rewrite TrimRight_cons, IH by done. destruct s as [|d r]; [| done].
  simpl in Hc. by destruct (Ascii.eqb c "/").
Qed.

Lemma cleanPrefix_head prefix : strings.HasPrefix (cleanPrefix prefix) "/" = false.
Proof. apply TrimRight_head, TrimLeft_head. Qed.

Lemma cleanPrefix_tail prefix : strings.HasSuffix (cleanPrefix prefix) "/" = false.
Proof. apply TrimRight_tail. Qed.

(** A key that starts with a string ending in "/" holds a "/". *)
Lemma HasPrefix_Contains_sep (a key : string) :
  strings.HasPrefix key (a +:+ "/") = true -> strings.Contains key "/" = true.
Proof.
  revert key. induction a as [|c a IH]; intros key.
  - rewrite append_nil_l. destruct key as [|d key]; [done |]. simpl. by intros ->.
  - rewrite append_cons. destruct key as [|d key]; [done |].
    unfold strings.HasPrefix at 1. simpl strings.stripPrefix.
    destruct (Ascii.eqb d c); [| done]. intros Hk.
    simpl. destruct (strings.HasPrefix (String d key) "/"); [done |].
    apply IH. unfold strings.HasPrefix. by destruct (strings.stripPrefix key (a +:+ "/")).
Qed.

End CleanPrefix.

(** cleanPrefix takes the separators off both ends and nothing else: its
    result neither starts nor ends with "/", the prefix is its result between
    two runs of "/", and cleaning twice is cleaning once. So the root prefix
    NewAmazonS3Backend stores, and every key the backend computes from a
    path, neither starts nor ends with "/". *)
Theorem cleanPrefix_trimmed (prefix : string) :
  strings.HasPrefix (cleanPrefix prefix) "/" = false /\
  strings.HasSuffix (cleanPrefix prefix) "/" = false /\
  (exists n m : nat, prefix = slashes n +:+ cleanPrefix prefix +:+ slashes m) /\
  cleanPrefix (cleanPrefix prefix) = cleanPrefix prefix /\
  (forall bucket sse : string,
     let root := Amazon.Prefix (Amazon.NewAmazonS3Backend bucket prefix sse) in
     strings.HasPrefix root "/" = false /\ strings.HasSuffix root "/" = false /\
     forall path : string,
       strings.HasPrefix (objectKey root path) "/" = false /\
       strings.HasSuffix (objectKey root path) "/" = false).
Proof.
  split; [apply cleanPrefix_head |]. split; [apply cleanPrefix_tail |].
  split.
  { unfold cleanPrefix, strings.Trim.
    destruct (TrimLeft_slashes prefix) as [n Hn].
    destruct (TrimRight_slashes (strings.TrimLeft prefix "/")) as [m Hm].
    exists n, m. by rewrite <- Hm. }
  split.
  { unfold cleanPrefix at 1. unfold strings.Trim.
    rewrite TrimLeft_id by apply cleanPrefix_head.
    apply TrimRight_fixed, cleanPrefix_tail. }
  intros bucket sse root. split; [apply cleanPrefix_head |].
  split; [apply cleanPrefix_tail |].
  intros path. split; [apply cleanPrefix_head | apply cleanPrefix_tail].
Qed.

(** The Prefix of the request of NextPage ends in "/" and is never empty, for
    any backend and any directory: a key under it holds a "/". The listing of
    a directory never shows a key without "/", so a backend without a root
    prefix cannot list the objects at the top of its bucket. *)
Theorem nextPageRequest_below_top (l : Amazon.s3ListObjectsFromDirectoryOutput) (key : string) :
  strings.HasPrefix key (s3.list_Prefix (Amazon.nextPageRequest l)) = true ->
  strings.Contains key "/" = true.
Proof. apply HasPrefix_Contains_sep. Qed.

(** At the root of a backend without a root prefix the request's Prefix is
    "/": "a.tgz" is not under it, "/a.tgz" is. *)
Lemma nextPageRequest_below_top_witness :
  s3.list_Prefix (Amazon.nextPageRequest (Amazon.newPage rootBackend "" 10)) = "/" /\
  strings.HasPrefix "a.tgz" "/" = false /\
  strings.Contains "/a.tgz" "/" = true.
Proof.
  split; [reflexivity |]. split; [reflexivity |].
  apply (nextPageRequest_below_top (Amazon.newPage rootBackend "" 10) "/a.tgz").
  reflexivity.
Defined.

(* ===================================================================== *)
(** * HasExtension                                                         *)
(* ===================================================================== *)

Example Ext_table :
  map filepath.Ext ["index.yaml"; "a/b.tar.gz"; "a.b/c"; "chart"; "dir/"; ".hidden"; "a."; ""]
  = [".yaml"; ".gz"; ""; ""; ""; ".hidden"; "."; ""].
Proof. reflexivity. Qed.

Section Extension.

Lemma Contains_cons (c d : ascii) (s : string) :
  strings.Contains (String c s) (String d "")
  = Ascii.eqb c d || strings.Contains s (String d "").
Proof. simpl strings.Contains. by rewrite HasPrefix_cons. Qed.

Lemma decided_Contains (s : string) :
  filepath.decided s = strings.Contains s "." || strings.Contains s "/".
Proof.
  induction s as [|c s IH]; [done |].
  simpl filepath.decided. rewrite !Contains_cons, IH.
  destruct (Ascii.eqb c "."), (Ascii.eqb c "/"), (strings.Contains s "."); done.
Qed.

Lemma decided_app (a b : string) :
  filepath.decided (a +:+ b) = filepath.decided a || filepath.decided b.
Proof.
  induction a as [|c a IH]; [by rewrite append_nil_l |].
  rewrite append_cons. simpl. rewrite IH. by rewrite !orb_assoc.
Qed.

(** The extension is a dot followed by [e] exactly when the path ends in the
    dot and [e], and [e] holds neither a dot nor a separator. *)
Lemma Ext_dot (path e : string) :
  filepath.Ext path = String "." e <->
  (exists stem, path = stem +:+ String "." e) /\ filepath.decided e = false.
Proof.
  split.
  - revert e. induction path as [|c rest IH]; intros e; [done |].
    simpl filepath.Ext. destruct (filepath.decided rest) eqn:Hd.
    + intros [[stem ->] He]%IH. split; [| done]. by exists (String c stem).
    + destruct (Ascii.eqb_spec c ".") as [-> | Hne]; [| done].
      intros [= <-]. split; [by exists "" | done].
  - intros [[stem ->] He]. induction stem as [|c stem IH].
    + rewrite append_nil_l. simpl. by rewrite He.
    + rewrite append_cons. simpl filepath.Ext.
      rewrite decided_app. simpl filepath.decided. by rewrite orb_true_r.
Qed.

End Extension.

(** An object has the extension [extension] exactly when its path ends in a
    dot followed by [extension] and [extension] holds neither a dot nor a
    separator. So no object has the extension "tar.gz", and the objects with
    the empty extension are those whose path ends in a dot. *)
Theorem HasExtension_suffix (object : Object) (extension : string) :
  HasExtension object extension = true <->
  (exists stem : string, Path object = stem +:+ "." +:+ extension) /\
  strings.Contains extension "." = false /\
  strings.Contains extension "/" = false.
Proof.
  unfold HasExtension. rewrite String.eqb_eq.
  change ("." +:+ extension) with (String "." extension).
  rewrite Ext_dot, decided_Contains, orb_false_iff. done.
Qed.

(* ===================================================================== *)
(** * The S3 backend: ListObjects                                          *)
(* ===================================================================== *)

Section ListObjects.

Context {W : Type} `{s3v1.API W}.

Implicit Types (st : AmazonListObjects.State W) (b : Amazon.AmazonS3Backend).
Implicit Types (objects : list Object) (contents : list s3.Object).

Lemma objectSteps_Some prefix contents : forall objects objects',
  AmazonListObjects.objectSteps prefix objects contents = Some objects' ->
  objects' = objects ++ omap (listedObject prefix) contents.
Proof.
  induction contents as [|obj rest IH]; intros objects objects'; simpl.
  - intros [= <-]. by rewrite app_nil_r.
  - unfold AmazonListObjects.objectStep, listedObject.
    destruct (s3.Key obj) as [key|]; [| done].
    destruct (objectPathIsInvalid (removePrefixFromObjectPath prefix key)).
    + destruct (s3.LastModified obj); apply IH.
    + destruct (s3.LastModified obj) as [t|]; [| done].
      intros ->%IH. by rewrite <- app_assoc.
Qed.

Lemma listedObject_valid prefix obj o :
  listedObject prefix obj = Some o ->
  objectPathIsInvalid (Path o) = false /\ Content o = [].
Proof.
  unfold listedObject. destruct (s3.Key obj) as [key|]; [| done].
  destruct (s3.LastModified obj) as [t|]; [| done].
  destruct (objectPathIsInvalid (removePrefixFromObjectPath prefix key)) eqn:E; [done |].
  by intros [= <-].
Qed.

(** What a loop that returns has exchanged and gathered. *)
Lemma listLoop_returns fuel : forall (s3Input : s3v1.ListObjectsInput) prefix objects st
    objects' err,
  (AmazonListObjects.listLoop fuel s3Input prefix objects st).1 = Returns (objects', err) ->
  exists new : list s3v1.Exchange,
    AmazonListObjects.exchanges (AmazonListObjects.listLoop fuel s3Input prefix objects st).2
      = AmazonListObjects.exchanges st ++ new /\
    objects' = objects ++ omap (listedObject prefix) (flat_map s3v1.answered new) /\
    s3v1.paged s3Input new /\
    exists request : s3v1.ListObjectsInput,
      match err with
      | Some e => last new = Some (request, inr e)
      | None => exists output, last new = Some (request, inl output) /\
                               s3v1.IsTruncated output = Some false
      end.
Proof.
  induction fuel as [|fuel IH]; intros s3Input prefix objects st objects' err; [done |].
  simpl. unfold bind, AmazonListObjects.Client_ListObjects. simpl.
  set (r := s3v1.ListObjects s3Input (AmazonListObjects.world st)).
  destruct r.1 as [s3Result | e] eqn:Hr; simpl.
  - destruct (AmazonListObjects.objectSteps prefix objects (s3v1.Contents s3Result))
      as [objects1|] eqn:Hsteps; [| done].
    apply objectSteps_Some in Hsteps.
    destruct (s3v1.IsTruncated s3Result) as [[|]|] eqn:Ht; [| | done].
    + destruct (last (s3v1.Contents s3Result)) as [obj|] eqn:Hlast; [| done].
      intros Hret. apply IH in Hret as (new & Hex & Hobj & Hpaged & request & Hend).
      simpl in Hex. exists ((s3Input, inl s3Result) :: new).
      split; [by rewrite Hex, <- app_assoc |].
      split; [simpl; by rewrite Hobj, Hsteps, omap_app, app_assoc |].
      split.
      * simpl. split; [done |]. destruct new as [|x new]; [done |].
        exists s3Result, obj. done.
      * exists request. destruct new as [|x new]; [| done].
        destruct err; [done |]. by destruct Hend as (? & ? & _).
    + simpl. intros [= <- <-]. exists [(s3Input, inl s3Result)].
      split; [done |]. split; [simpl; by rewrite app_nil_r |].
      split; [done |]. exists s3Input. by exists s3Result.
  - intros [= <- <-]. exists [(s3Input, inr e)].
    split; [done |]. split; [simpl; by rewrite app_nil_r |].
    split; [done |]. by exists s3Input.
Qed.

(** A key without "/" is its own path, whatever the prefix. *)
Lemma removePrefix_top prefix key :
  strings.HasSuffix prefix "/" = false -> strings.Contains key "/" = false ->
  removePrefixFromObjectPath prefix key = key.
Proof.
  intros Hs Hc. unfold removePrefixFromObjectPath.
  destruct (String.eqb prefix ""); [done |]. rewrite Hs. simpl.
  unfold strings.TrimPrefix.
  destruct (strings.stripPrefix key (prefix +:+ "/")) eqn:E; [| done].
  assert (strings.HasPrefix key (prefix +:+ "/") = true) as Hp
    by (unfold strings.HasPrefix; by rewrite E).
  apply HasPrefix_Contains_sep in Hp. congruence.
Qed.

(** When ListObjects returns, with or without an error, its objects are those
    of the answers it received, in their order, each under its key without
    the listing's prefix and the "/" after it, and without those whose
    remaining path is empty or holds a "/"; every path it returns is a single
    name, and the contents are empty. A key without any "/" is returned under
    the whole key, although it is not below the prefix. *)
Theorem ListObjects_objects (fuel : nat) b (prefix : string) st objects (err : option error) :
  (AmazonListObjects.ListObjects fuel b prefix st).1 = Returns (objects, err) ->
  let key := objectKey (Amazon.Prefix b) prefix in
  let answers :=
    flat_map s3v1.answered
      (drop (length (AmazonListObjects.exchanges st))
            (AmazonListObjects.exchanges (AmazonListObjects.ListObjects fuel b prefix st).2)) in
  objects = omap (listedObject key) answers /\
  (forall o : Object,
     o ∈ objects -> objectPathIsInvalid (Path o) = false /\ Content o = []) /\
  (forall (obj : s3.Object) (k : string) (t : time.Time),
     obj ∈ answers -> s3.Key obj = Some k -> s3.LastModified obj = Some t ->
     k <> "" -> strings.Contains k "/" = false ->
     {| Object_Metadata := {| Path := k; LastModified := t |}; Content := [] |} ∈ objects).
Proof.
  intros Hret key answers. unfold AmazonListObjects.ListObjects in *. fold key in Hret.
  fold key in answers.
  apply listLoop_returns in Hret as (new & Hex & Hobj & _).
  subst answers. rewrite Hex, drop_app_length. simpl in Hobj.
  split; [done |]. split.
  - intros o Ho. rewrite Hobj in Ho. apply list_elem_of_omap in Ho as (obj & _ & Ho).
    by eapply listedObject_valid.
  - intros obj k t Hin Hk Ht Hne Hc. rewrite Hobj. apply list_elem_of_omap.
    exists obj. split; [done |]. unfold listedObject. rewrite Hk, Ht.
    rewrite removePrefix_top; [| apply cleanPrefix_tail | done].
    unfold objectPathIsInvalid. rewrite Hc. simpl.
    by destruct (String.eqb_spec k "").
Qed.

(** When ListObjects returns, it has sent at least one request; the first
    names the bucket and the cleaned join of the root prefix and the prefix,
    without marker; every later one follows a truncated answer and carries
    the key of that answer's last object as its marker. The call returns the
    error of the last request, if it failed, and no error after an answer
    that is not truncated. *)
Theorem ListObjects_requests (fuel : nat) b (prefix : string) st objects (err : option error) :
  (AmazonListObjects.ListObjects fuel b prefix st).1 = Returns (objects, err) ->
  exists new : list s3v1.Exchange,
    AmazonListObjects.exchanges (AmazonListObjects.ListObjects fuel b prefix st).2
      = AmazonListObjects.exchanges st ++ new /\
    s3v1.paged {| s3v1.Bucket := Amazon.Bucket b;
                  s3v1.Prefix := objectKey (Amazon.Prefix b) prefix;
                  s3v1.Marker := None |} new /\
    exists request : s3v1.ListObjectsInput,
      match err with
      | Some e => last new = Some (request, inr e)
      | None => exists output, last new = Some (request, inl output) /\
                               s3v1.IsTruncated output = Some false
      end.
Proof.
  intros Hret. unfold AmazonListObjects.ListObjects in *.
  apply listLoop_returns in Hret as (new & Hex & _ & Hpaged & Hend).
  exists new. done.
Qed.

End ListObjects.

(** The theorem at a listing of "charts" answered in two pages: "a.tgz" is
    returned, "charts/sub/b.tgz" is skipped, and "charts-old.tgz", which is
    beside "charts" and not below it, is returned. *)
Lemma ListObjects_objects_witness :
  let st := {| AmazonListObjects.world := chartsListing; AmazonListObjects.exchanges := [] |} in
  let objects := [obj "a.tgz" 1; obj "charts-old.tgz" 3] in
  (AmazonListObjects.ListObjects 4 chartsBackend "" st).1 = Returns (objects, None) /\
  (forall o : Object,
     o ∈ objects -> objectPathIsInvalid (Path o) = false /\ Content o = []).
Proof.
  intros st objects.
  assert ((AmazonListObjects.ListObjects 4 chartsBackend "" st).1 = Returns (objects, None))
    as Hrun by (vm_compute; reflexivity).
  split; [exact Hrun |].
  destruct (ListObjects_objects 4 chartsBackend "" st objects None Hrun) as (_ & Hvalid & _).
  exact Hvalid.
Defined.

(** The theorem at the same listing: two requests, the second after
    "charts/sub/b.tgz". *)
Lemma ListObjects_requests_witness :
  let st := {| AmazonListObjects.world := chartsListing; AmazonListObjects.exchanges := [] |} in
  exists new : list s3v1.Exchange,
    AmazonListObjects.exchanges (AmazonListObjects.ListObjects 4 chartsBackend "" st).2
      = AmazonListObjects.exchanges st ++ new /\
    s3v1.paged {| s3v1.Bucket := "bkt"; s3v1.Prefix := "charts"; s3v1.Marker := None |} new /\
    exists (request : s3v1.ListObjectsInput) (output : s3v1.ListObjectsOutput),
      last new = Some (request, inl output) /\ s3v1.IsTruncated output = Some false.
Proof.
  intros st.
  apply (ListObjects_requests 4 chartsBackend "" st
           [obj "a.tgz" 1; obj "charts-old.tgz" 3] None).
  vm_compute. reflexivity.
Defined.

(* ===================================================================== *)
(** * The S3 backend: GetObject                                            *)
(* ===================================================================== *)

Section AmazonGetObject.

Context {W : Type} `{s3.API W}.

Implicit Types (b : Amazon.AmazonS3Backend) (st : Amazon.State W).


End AmazonGetObject.


(* ===================================================================== *)
(** * The S3 backend: what a download sends and writes                     *)
(* ===================================================================== *)

Section DownloadMore.

Context {W : Type} `{s3.API W}.
Variable http_ParseTime : string -> option time.Time.
Variable http_TimeFormat : time.Time -> string.

Implicit Types (w : http.ResponseWriter) (out : s3.GetObjectOutput) (r : http.Request).
Implicit Types (b : Amazon.AmazonS3Backend) (st : Amazon.State W).

Lemma dateHeader_None r key :
  Amazon.dateHeader http_ParseTime r key = None <-> malformedDate http_ParseTime r key.
Proof.
  unfold Amazon.dateHeader, malformedDate.
  destruct (String.eqb_spec (http.Get (http.Header r) key) "") as [-> | Hne]; simpl.
  - split; [done | by intros [? _]].
  - destruct (http_ParseTime _); split; try done. by intros [_ ?].
Qed.

Lemma downloadInput_None b r path :
  Amazon.downloadInput http_ParseTime b r path = None <->
  malformedDate http_ParseTime r "If-Modified-Since" \/ malformedDate http_ParseTime r "If-Unmodified-Since".
Proof.
  unfold Amazon.downloadInput. rewrite <- !dateHeader_None.
  destruct (Amazon.dateHeader http_ParseTime r "If-Modified-Since");
    destruct (Amazon.dateHeader http_ParseTime r "If-Unmodified-Since"); split;
    first [ done | by intros [? | ?] | by left | by right ].
Qed.

Lemma Write_addHeader w key v data :
  http.Write data ∈ http.events (Amazon.addHeader w key v) <-> http.Write data ∈ http.events w.
Proof.
  destruct v as [value|]; simpl; [| done].
  rewrite elem_of_app, list_elem_of_singleton. split; [by intros [? | ?] | by left].
Qed.

Lemma Write_setHeaders w out data :
  http.Write data ∈ http.events (Amazon.setHeaders http_TimeFormat w out).1
  <-> http.Write data ∈ http.events w.
Proof. unfold Amazon.setHeaders. simpl. by rewrite !Write_addHeader. Qed.

Lemma writeErr_addHeader w key v : http.writeErr (Amazon.addHeader w key v) = http.writeErr w.
Proof. by destruct v. Qed.

Lemma writeErr_setHeaders w out :
  http.writeErr (Amazon.setHeaders http_TimeFormat w out).1 = http.writeErr w.
Proof. unfold Amazon.setHeaders. simpl. by rewrite !writeErr_addHeader. Qed.

(** A request whose If-Modified-Since or If-Unmodified-Since is present and
    is no HTTP date is answered by WriteHeader(400) alone; nothing is sent to
    the service. *)
Theorem HandleHttpFileDownload_malformed_date b w r (path : string) st :
  malformedDate http_ParseTime r "If-Modified-Since" \/
    malformedDate http_ParseTime r "If-Unmodified-Since" ->
  Amazon.HandleHttpFileDownload http_ParseTime http_TimeFormat b w r path st
  = (http.record w (http.WriteHeader http.StatusBadRequest), st).
Proof.
  intros Hd. apply (downloadInput_None b r path) in Hd.
  unfold Amazon.HandleHttpFileDownload. by rewrite Hd.
Qed.

(** A request whose date headers are absent or parse makes the handler send
    one request and no other: a GetObject of the key of the path under the
    root prefix, with the dates and the entity tags of the four conditional
    headers of the request that are not empty. The method and every other
    header of the request, Range among them, play no part in it. *)
Theorem HandleHttpFileDownload_request b w r (path : string) st :
  ~ malformedDate http_ParseTime r "If-Modified-Since" ->
  ~ malformedDate http_ParseTime r "If-Unmodified-Since" ->
  let get := http.Get (http.Header r) in
  let date key := if String.eqb (get key) "" then None else http_ParseTime (get key) in
  let text key := if String.eqb (get key) "" then None else Some (get key) in
  let input := {| s3.get_Bucket := Amazon.Bucket b;
                  s3.get_Key := objectKey (Amazon.Prefix b) path;
                  s3.IfModifiedSince := date "If-Modified-Since";
                  s3.IfUnmodifiedSince := date "If-Unmodified-Since";
                  s3.IfMatch := text "If-Match";
                  s3.IfNoneMatch := text "If-None-Match" |} in
  let run := Amazon.HandleHttpFileDownload http_ParseTime http_TimeFormat b w r path st in
  Amazon.calls run.2 = Amazon.calls st ++ [s3.CallGetObject input] /\
  Amazon.world run.2 = (s3.GetObject input (Amazon.world st)).2 /\
  Amazon.pages run.2 = Amazon.pages st.
Proof.
  intros Hm Hu get date text input run.
  assert (Amazon.downloadInput http_ParseTime b r path = Some input) as Hin.
  { unfold Amazon.downloadInput, Amazon.dateHeader, Amazon.nonEmpty, malformedDate in *.
    subst input date text get. cbv beta.
    assert (forall s : string,
              (if negb (String.eqb s "") then Some s else None)
              = (if String.eqb s "" then None else Some s)) as Hne
      by (intros s; by destruct (String.eqb s "")).
    rewrite !Hne.
    destruct (String.eqb_spec (http.Get (http.Header r) "If-Modified-Since") "") as [E1 | N1];
      destruct (String.eqb_spec (http.Get (http.Header r) "If-Unmodified-Since") "")
        as [E2 | N2]; cbn [negb].
    - done.
    - destruct (http_ParseTime (http.Get (http.Header r) "If-Unmodified-Since")); [done |].
      by destruct Hu.
    - destruct (http_ParseTime (http.Get (http.Header r) "If-Modified-Since")); [done |].
      by destruct Hm.
    - destruct (http_ParseTime (http.Get (http.Header r) "If-Modified-Since"));
        [| by destruct Hm].
      destruct (http_ParseTime (http.Get (http.Header r) "If-Unmodified-Since")); [done |].
      by destruct Hu. }
  subst run. unfold Amazon.HandleHttpFileDownload. rewrite Hin.
  unfold bind, Amazon.Client_GetObject. cbn [fst snd].
  destruct (s3.GetObject input (Amazon.world st)).1 as [s3Result | err]; [| done].
  destruct (negb _); [| done].
  by destruct (io_Copy _ _).2.
Qed.

Ltac status_cases message :=
  repeat split;
  first [ done
        | congruence
        | by eexists
        | by intros [? ?]
        | by (intros [? ?]; congruence)
        | by (intros _ ?; repeat split; congruence)
        | by (let Hall := fresh in
              intros Hall; destruct (Hall message) as (? & ? & ?); congruence) ].

(** When GetObject fails, the handler calls WriteHeader once and does nothing
    else to the ResponseWriter: no header, no body. The status is 404 for the
    code NoSuchKey, 304 for NotModified, 412 for PreconditionFailed, and 400
    for every other error, those without a code included. *)
Theorem HandleHttpFileDownload_failure b w r (path : string) st
    (input : s3.GetObjectInput) (err : error) :
  Amazon.downloadInput http_ParseTime b r path = Some input ->
  (s3.GetObject input (Amazon.world st)).1 = inr err ->
  let w' := (Amazon.HandleHttpFileDownload http_ParseTime http_TimeFormat b w r path st).1 in
  exists status : Z,
    http.events w' = http.events w ++ [http.WriteHeader status] /\
    (status = http.StatusNotFound <-> exists m, err = awserr_Error "NoSuchKey" m) /\
    (status = http.StatusNotModified <-> exists m, err = awserr_Error "NotModified" m) /\
    (status = http.StatusPreconditionFailed
     <-> exists m, err = awserr_Error "PreconditionFailed" m) /\
    (status = http.StatusBadRequest
     <-> forall m, err <> awserr_Error "NoSuchKey" m /\
                   err <> awserr_Error "NotModified" m /\
                   err <> awserr_Error "PreconditionFailed" m).
Proof.
  intros Hin Hget w'. subst w'. exists (Amazon.errorStatus err).
  unfold Amazon.HandleHttpFileDownload. rewrite Hin.
  unfold bind, Amazon.Client_GetObject. cbn [fst snd]. rewrite Hget. cbn [fst snd ret].
  split; [done |].
  unfold Amazon.errorStatus, s3.ErrCodeNoSuchKey, http.StatusNotFound, http.StatusNotModified,
    http.StatusPreconditionFailed, http.StatusBadRequest.
  destruct err as [| | | | text | code message | op name errno | | text inner];
    try (status_cases "").
  destruct (String.eqb_spec code "NoSuchKey") as [-> | N1]; [status_cases message |].
  destruct (String.eqb_spec code "NotModified") as [-> | N2]; [status_cases message |].
  destruct (String.eqb_spec code "PreconditionFailed") as [-> | N3]; status_cases message.
Qed.

(** A HEAD request that GetObject answers gets no body: the handler writes
    nothing but headers and the status. The status it passes to WriteHeader
    is then the one sent, 206 for partial content and 200 otherwise. *)
Theorem HandleHttpFileDownload_head b w r (path : string) st
    (input : s3.GetObjectInput) out :
  Amazon.downloadInput http_ParseTime b r path = Some input ->
  (s3.GetObject input (Amazon.world st)).1 = inl out ->
  http.Method r = http.MethodHead ->
  let w' := (Amazon.HandleHttpFileDownload http_ParseTime http_TimeFormat b w r path st).1 in
  (forall data : string, http.Write data ∈ http.events w' -> http.Write data ∈ http.events w) /\
  (http.events w = [] ->
   exists status : Z,
     http.sentStatus w' = Some status /\
     (status = http.StatusPartialContent <-> partialContent out) /\
     (status = http.StatusOK <-> ~ partialContent out)).
Proof.
  intros Hin Hget Hm w'. subst w'.
  unfold Amazon.HandleHttpFileDownload. rewrite Hin.
  unfold bind, Amazon.Client_GetObject. cbn [fst snd]. rewrite Hget. cbn [fst snd].
  rewrite Hm, String.eqb_refl. cbn [negb ret fst].
  pose proof (setHeaders_status http_TimeFormat w out) as Hstatus.
  pose proof (statusDecisions_setHeaders http_TimeFormat w out) as Hdec.
  pose proof (Write_setHeaders w out) as Hw.
  set (wh := Amazon.setHeaders http_TimeFormat w out) in *.
  split.
  - intros data. unfold http.record. cbn [http.events].
    rewrite elem_of_app, list_elem_of_singleton. intros [Hd | Hd]; [by apply Hw | done].
  - intros Hev. exists wh.2. split; [| exact Hstatus].
    unfold http.sentStatus. rewrite statusDecisions_record, Hdec.
    unfold http.statusDecisions. by rewrite Hev.
Qed.

(** When the copy of the body fails (the writer fails on a body that is not
    empty, or reading the body ends with an error), the handler calls
    WriteHeader with 500. On a ResponseWriter nothing was done to, that is
    the status sent only for an empty body: once a byte of the body was
    written, the status sent is the implicit 200 of the first Write. *)
Theorem HandleHttpFileDownload_copy_failed b w r (path : string) st
    (input : s3.GetObjectInput) out (e : error) :
  Amazon.downloadInput http_ParseTime b r path = Some input ->
  (s3.GetObject input (Amazon.world st)).1 = inl out ->
  http.Method r <> http.MethodHead ->
  let body := s3.ResponseBody out in
  (s3.bodyData body <> "" /\ http.writeErr w = Some e) \/
  ((s3.bodyData body = "" \/ http.writeErr w = None) /\ s3.bodyErr body = Some e) ->
  let w' := (Amazon.HandleHttpFileDownload http_ParseTime http_TimeFormat b w r path st).1 in
  http.statusCalls w' = http.statusCalls w ++ [http.StatusInternalServerError] /\
  (http.events w = [] ->
   http.sentStatus w'
   = Some (if String.eqb (s3.bodyData body) "" then http.StatusInternalServerError
           else http.StatusOK)).
Proof.
  intros Hin Hget Hm body Hfail w'. subst w'.
  unfold Amazon.HandleHttpFileDownload. rewrite Hin.
  unfold bind, Amazon.Client_GetObject. cbn [fst snd]. rewrite Hget. cbn [fst snd].
  apply String.eqb_neq in Hm. rewrite Hm. cbn [negb].
  pose proof (statusCalls_setHeaders http_TimeFormat w out) as Hcalls.
  pose proof (statusDecisions_setHeaders http_TimeFormat w out) as Hdec.
  pose proof (writeErr_setHeaders w out) as Herr.
  set (wh := Amazon.setHeaders http_TimeFormat w out) in *.
  fold body. unfold io_Copy. rewrite Herr.
  destruct (String.eqb_spec (s3.bodyData body) "") as [Hd | Hd].
  - destruct Hfail as [[? _] | [_ Hb]]; [done |]. rewrite Hb. cbn [fst snd ret].
    split; [by rewrite statusCalls_record, Hcalls |].
    intros Hev. unfold http.sentStatus. rewrite statusDecisions_record, Hdec.
    unfold http.statusDecisions. by rewrite Hev.
  - assert (forall data, http.sentStatus
                           (http.record (http.record wh.1 (http.Write data))
                              (http.WriteHeader http.StatusInternalServerError))
                         = Some http.StatusOK \/ http.events w <> []) as Hsent.
    { intros data. destruct (http.events w) eqn:Hev; [left | by right].
      unfold http.sentStatus. rewrite !statusDecisions_record, Hdec.
      unfold http.statusDecisions. by rewrite Hev. }
    destruct Hfail as [[_ Hw] | [[? | Hw] Hb]]; [| done |]; rewrite Hw; cbn [fst snd ret];
      rewrite ?Hb; cbn [fst snd ret];
      (split; [by rewrite !statusCalls_record, Hcalls, app_nil_r |]);
      intros Hev; by destruct (Hsent "") as [? | ?]; destruct (Hsent (s3.bodyData body)).
Qed.

End DownloadMore.

(** The theorem at a GET with the If-Modified-Since "yesterday". *)
Lemma HandleHttpFileDownload_malformed_date_witness :
  Amazon.HandleHttpFileDownload noDate noFormat rootBackend freshWriter badDateRequest
    "chart.tgz" (startS3 partialTape)
  = (http.record freshWriter (http.WriteHeader http.StatusBadRequest), startS3 partialTape).
Proof.
  apply (HandleHttpFileDownload_malformed_date noDate noFormat rootBackend freshWriter
           badDateRequest "chart.tgz" (startS3 partialTape)).
  left. split; [vm_compute; discriminate | reflexivity].
Defined.

(** The theorem at a GET of a range: the request to the service carries the
    entity tag and no range. *)
Lemma HandleHttpFileDownload_request_witness :
  Amazon.calls
    (Amazon.HandleHttpFileDownload noDate noFormat rootBackend freshWriter rangeRequest
       "chart.tgz" (startS3 partialTape)).2
  = [s3.CallGetObject {| s3.get_Bucket := "bkt";
                         s3.get_Key := "chart.tgz";
                         s3.IfModifiedSince := None;
                         s3.IfUnmodifiedSince := None;
                         s3.IfMatch := None;
                         s3.IfNoneMatch := Some "etag" |}].
Proof.
  destruct (HandleHttpFileDownload_request noDate noFormat rootBackend freshWriter
              rangeRequest "chart.tgz" (startS3 partialTape)) as [Hcalls _].
  - intros [Hne _]. apply Hne. reflexivity.
  - intros [Hne _]. apply Hne. reflexivity.
  - exact Hcalls.
Defined.

(** The theorem at a download of a key the bucket does not hold. *)
Lemma HandleHttpFileDownload_failure_witness :
  http.events
    (Amazon.HandleHttpFileDownload noDate noFormat chartsBackend freshWriter getRequest
       "missing.tgz" (startS3 (threeKeys []))).1
  = [http.WriteHeader http.StatusNotFound].
Proof.
  destruct (HandleHttpFileDownload_failure noDate noFormat chartsBackend freshWriter
              getRequest "missing.tgz" (startS3 (threeKeys []))
              {| s3.get_Bucket := "bkt"; s3.get_Key := "charts/missing.tgz";
                 s3.IfModifiedSince := None; s3.IfUnmodifiedSince := None;
                 s3.IfMatch := None; s3.IfNoneMatch := None |}
              S3Service.NoSuchKey)
    as (status & Hev & Hnf & _).
  - reflexivity.
  - vm_compute. reflexivity.
  - assert (status = http.StatusNotFound) as -> by (apply Hnf; by eexists).
    exact Hev.
Defined.

Lemma partialContent_partialAnswer : partialContent partialAnswer.
Proof.
  exists "bytes 0-9/500", 10%Z, 500%Z.
  split; [reflexivity |]. split; [reflexivity |].
  split; [vm_compute; reflexivity | discriminate].
Qed.

(** The theorem at a HEAD answered with the bytes 0-9 of 500: the status sent
    is 206. *)
Lemma HandleHttpFileDownload_head_witness :
  http.sentStatus
    (Amazon.HandleHttpFileDownload noDate noFormat rootBackend freshWriter headRequest
       "chart.tgz" (startS3 partialTape)).1
  = Some http.StatusPartialContent.
Proof.
  destruct (HandleHttpFileDownload_head noDate noFormat rootBackend freshWriter headRequest
              "chart.tgz" (startS3 partialTape)
              {| s3.get_Bucket := "bkt"; s3.get_Key := "chart.tgz";
                 s3.IfModifiedSince := None; s3.IfUnmodifiedSince := None;
                 s3.IfMatch := None; s3.IfNoneMatch := None |}
              partialAnswer)
    as [_ Hsent].
  - reflexivity.
  - reflexivity.
  - reflexivity.
  - destruct Hsent as (status & Hsent & Hpartial & _); [reflexivity |].
    rewrite Hsent. f_equal. apply Hpartial, partialContent_partialAnswer.
Defined.

(** The theorem at a GET on a connection that is gone: WriteHeader is called
    with 500, and the status sent is 200. *)
Lemma HandleHttpFileDownload_copy_failed_witness :
  let w' := (Amazon.HandleHttpFileDownload noDate noFormat rootBackend brokenWriter getRequest
               "chart.tgz" (startS3 partialTape)).1 in
  http.statusCalls w' = [http.StatusInternalServerError] /\
  http.sentStatus w' = Some http.StatusOK.
Proof.
  intros w'.
  destruct (HandleHttpFileDownload_copy_failed noDate noFormat rootBackend brokenWriter
              getRequest "chart.tgz" (startS3 partialTape)
              {| s3.get_Bucket := "bkt"; s3.get_Key := "chart.tgz";
                 s3.IfModifiedSince := None; s3.IfUnmodifiedSince := None;
                 s3.IfMatch := None; s3.IfNoneMatch := None |}
              partialAnswer (errors_New "broken pipe"))
    as [Hcalls Hsent].
  - reflexivity.
  - reflexivity.
  - discriminate.
  - left. split; [discriminate | reflexivity].
  - split; [exact Hcalls | by apply Hsent].
Defined.

(* ===================================================================== *)
(** * The S3 backend: the status of a partial delivery                     *)
(* ===================================================================== *)

Section PartialSent.

Context {W : Type} `{s3.API W}.
Variable http_ParseTime : string -> option time.Time.
Variable http_TimeFormat : time.Time -> string.


End PartialSent.


(* ===================================================================== *)
(** * The S3 backend: probes that fail, and the rename of a prefix         *)
(* ===================================================================== *)

Section Probes.

Context {W : Type} `{s3.API W}.

Implicit Types (b : Amazon.AmazonS3Backend) (st : Amazon.State W).

(** The state ListObjectsFromDirectory calls NextPage in: the probe is sent
    and the first page, empty, is on the heap. *)
Lemma ListObjectsFromDirectory_lists b (prefix : string) (limit : Z) st (e : error) :
  let headIn := {| s3.head_Bucket := Amazon.Bucket b;
                   s3.head_Key := objectKey (Amazon.Prefix b) prefix |} in
  let head := s3.HeadObject headIn (Amazon.world st) in
  head.1 = Some e ->
  Amazon.isNotFound e = true \/ (forall code message, e <> awserr_Error code message) ->
  Amazon.ListObjectsFromDirectory b prefix limit st
  = Amazon.NextPage (length (Amazon.pages st))
      {| Amazon.world := head.2;
         Amazon.calls := Amazon.calls st ++ [s3.CallHeadObject headIn];
         Amazon.pages := Amazon.pages st ++ [Amazon.newPage b prefix limit] |}.
Proof.
  intros headIn head Hh He.
  unfold Amazon.ListObjectsFromDirectory, bind, Amazon.Client_HeadObject. cbn [fst snd].
  fold headIn. fold head. rewrite Hh.
  destruct e; try done.
  destruct He as [He | He]; [| by destruct (He code message)].
  simpl in He. by rewrite He.
Qed.

Lemma first_page_lookup b (prefix : string) (limit : Z)
    (pages : list Amazon.s3ListObjectsFromDirectoryOutput) :
  default Amazon.zeroPage ((pages ++ [Amazon.newPage b prefix limit]) !! length pages)
  = Amazon.newPage b prefix limit.
Proof. by rewrite list_lookup_middle. Qed.

(** When the probe of ListObjectsFromDirectory fails with an error that
    carries a code (an awserr.Error, as the client returns them; a request
    that could not be sent fails with the code "RequestError"), the code
    decides. With a code other than "NotFound" the error is returned as it
    is, nothing else is sent and no page is made. With "NotFound" the listing
    of the first page is requested, and the call returns what that listing
    gives. *)
Theorem ListObjectsFromDirectory_head_failed b (prefix : string) (limit : Z) st
    (code message : string) :
  let headIn := {| s3.head_Bucket := Amazon.Bucket b;
                   s3.head_Key := objectKey (Amazon.Prefix b) prefix |} in
  let head := s3.HeadObject headIn (Amazon.world st) in
  head.1 = Some (awserr_Error code message) ->
  let listed := Amazon.ListObjectsFromDirectory b prefix limit st in
  let request := Amazon.nextPageRequest (Amazon.newPage b prefix limit) in
  (code <> "NotFound" ->
   listed.1 = (None, Some (awserr_Error code message)) /\
   Amazon.calls listed.2 = Amazon.calls st ++ [s3.CallHeadObject headIn] /\
   Amazon.pages listed.2 = Amazon.pages st /\
   Amazon.world listed.2 = head.2)
  /\
  (code = "NotFound" ->
   Amazon.calls listed.2
     = Amazon.calls st ++ [s3.CallHeadObject headIn; s3.CallListObjectsV2 request] /\
   listed.1.2 = match (s3.ListObjectsV2 request head.2).1 with
                | inr err => Some err
                | inl output => match s3.IsTruncated output with
                                | Some true => None
                                | _ => Some io_EOF
                                end
                end).
Proof.
  intros headIn head Hh listed request. split.
  - intros Hcode%String.eqb_neq. subst listed.
    unfold Amazon.ListObjectsFromDirectory, bind, Amazon.Client_HeadObject. cbn [fst snd].
    fold headIn. fold head. rewrite Hh, Hcode. done.
  - intros ->. subst listed.
    rewrite (ListObjectsFromDirectory_lists b prefix limit st _ Hh) by (by left).
    fold headIn. fold head.
    set (st1 := {| Amazon.world := head.2;
                   Amazon.calls := Amazon.calls st ++ [s3.CallHeadObject headIn];
                   Amazon.pages := Amazon.pages st ++ [Amazon.newPage b prefix limit] |}).
    pose proof (first_page_lookup b prefix limit (Amazon.pages st)) as Hl.
    destruct (s3.ListObjectsV2 request head.2).1 as [output | err] eqn:Hr.
    + rewrite (Amazon_NextPage_fetched (length (Amazon.pages st)) st1 _ output Hl); try done.
      cbn [fst snd Amazon.calls st1]. split; [by rewrite <- app_assoc |].
      rewrite pageOfOutput_isEOF. by destruct (s3.IsTruncated output) as [[|]|].
    + rewrite (Amazon_NextPage_failed (length (Amazon.pages st)) st1 _ err Hl); try done.
      cbn [fst snd Amazon.calls st1]. by rewrite <- app_assoc.
Qed.

End Probes.

(** The theorem at a probe that could not be sent: the error is returned,
    the listing is not requested and nothing is on the heap. *)
Lemma ListObjectsFromDirectory_head_failed_witness :
  let st := startS3 (threeKeys [Some RequestError]) in
  let listed := Amazon.ListObjectsFromDirectory chartsBackend "dir" 10 st in
  listed.1 = (None, Some RequestError) /\
  Amazon.calls listed.2
    = [s3.CallHeadObject {| s3.head_Bucket := "bkt"; s3.head_Key := "charts/dir" |}] /\
  Amazon.pages listed.2 = [].
Proof.
  intros st listed.
  destruct (ListObjectsFromDirectory_head_failed chartsBackend "dir" 10 st
              "RequestError" "send request failed") as [Hreturned _].
  - reflexivity.
  - destruct Hreturned as (Hr & Hcalls & Hpages & _); [discriminate |].
    fold listed in Hr, Hcalls, Hpages. split; [exact Hr |].
    split; [exact Hcalls | exact Hpages].
Defined.

Section RenameMore.

Context {W : Type} `{s3.Model W}.

Implicit Types (b : Amazon.AmazonS3Backend) (st : Amazon.State W).

(** A probe of RenamePrefixOrObject that fails ends the rename with its
    error, before anything is copied or deleted: the probe of the destination
    with an error other than "NotFound", the listing below the destination
    with any error, or, the destination being free, the probe of the source
    with an error other than "NotFound". Every bucket holds what it held. *)
Theorem RenamePrefixOrObject_probe_failed
    (fuel : nat) b (path newPath : string) st (e : error) :
  let headNew := s3.HeadObject (Amazon.newPathHead b newPath) (Amazon.world st) in
  let probe := s3.ListObjectsV2 (Amazon.newPathList b newPath) headNew.2 in
  let headIn := {| s3.head_Bucket := Amazon.Bucket b;
                   s3.head_Key := objectKey (Amazon.Prefix b) path |} in
  let headOld := s3.HeadObject headIn probe.2 in
  let notFound := exists e', headNew.1 = Some e' /\ Amazon.isNotFound e' = true in
  let free := exists out, probe.1 = inl out /\
                          match s3.KeyCount out with Some n => (n <= 0)%Z | None => True end in
  (headNew.1 = Some e /\ Amazon.isNotFound e = false) \/
  (notFound /\ probe.1 = inr e) \/
  (notFound /\ free /\ headOld.1 = Some e /\ Amazon.isNotFound e = false) ->
  let r := Amazon.RenamePrefixOrObject fuel b path newPath st in
  r.1 = Some (Some e) /\
  (forall c, c ∈ drop (length (Amazon.calls st)) (Amazon.calls r.2) -> s3.mutating c = false) /\
  (forall bucket,
     s3.objects (Amazon.world r.2) bucket = s3.objects (Amazon.world st) bucket).
Proof.
  intros headNew probe headIn headOld notFound free Hfail r. subst r.
  unfold Amazon.RenamePrefixOrObject, bind, Amazon.Client_HeadObject,
    Amazon.Client_ListObjectsV2. simpl.
  fold headNew.
  destruct Hfail as [[Hh He] | [[(e' & Hh & He') Hp] | ((e' & Hh & He') & Hfree & Ho & He)]].
  - rewrite Hh, He. simpl. rewrite drop_app_length. split; [done |]. split.
    + intros c ->%list_elem_of_singleton. done.
    + intros bucket. apply s3.HeadObject_objects.
  - rewrite Hh, He'. simpl. fold headNew. fold probe. rewrite Hp. simpl.
    rewrite <- app_assoc, drop_app_length. split; [done |]. split.
    + intros c [-> | ->%list_elem_of_singleton]%elem_of_cons; done.
    + intros bucket. subst probe. rewrite s3.ListObjectsV2_objects.
      apply s3.HeadObject_objects.
  - destruct Hfree as (out & Hp & Hk).
    rewrite Hh, He'. simpl. fold headNew. fold probe. rewrite Hp.
    assert (match s3.KeyCount out with Some n => (n >? 0)%Z | None => false end = false)
      as Hocc.
    { destruct (s3.KeyCount out) as [n|]; [| done].
      destruct (Z.gtb_spec n 0); [lia | done]. }
    rewrite Hocc. simpl. fold headIn. fold headOld. rewrite Ho, He. simpl.
    rewrite <- !app_assoc, drop_app_length. split; [done |]. split.
    + intros c Hc. repeat (apply elem_of_cons in Hc as [-> | Hc]; [done |]).
      by apply elem_of_nil in Hc.
    + intros bucket. subst headOld. rewrite s3.HeadObject_objects.
      subst probe. rewrite s3.ListObjectsV2_objects. apply s3.HeadObject_objects.
Qed.

Lemma moveContents_cons b (prefix newPath : string) (obj : s3.Object)
    (rest : list s3.Object) :
  Amazon.moveContents b prefix newPath (obj :: rest)
  = match movedKey prefix obj with
    | None => Amazon.moveContents b prefix newPath rest
    | Some m =>
        bind (Amazon.moveObject b m.1 (cleanPrefix (path.Join [Amazon.Prefix b; newPath; m.2])))
             (fun err => match err with
                         | Some e => ret (Some e)
                         | None => Amazon.moveContents b prefix newPath rest
                         end)
    end.
Proof.
  simpl. unfold movedKey. destruct (s3.Key obj) as [key|]; [| done].
  destruct (String.eqb key ""); [done |].
  by destruct (String.eqb (removePrefixFromObjectPath prefix key) ""
               || String.eqb (removePrefixFromObjectPath prefix key) "/").
Qed.

Lemma moveContents_sent b (prefix newPath : string) (contents : list s3.Object) st :
  let r := Amazon.moveContents b prefix newPath contents st in
  let full := flat_map (moveRequests b newPath) (omap (movedKey prefix) contents) in
  (exists n : nat, Amazon.calls r.2 = Amazon.calls st ++ take n full) /\
  (r.1 = None -> Amazon.calls r.2 = Amazon.calls st ++ full) /\
  Amazon.pages r.2 = Amazon.pages st.
Proof.
  revert st. induction contents as [|obj rest IH]; intros st.
  - simpl. split; [exists 0%nat |]; by rewrite ?app_nil_r.
  - rewrite moveContents_cons. cbn [omap list_omap].
    destruct (movedKey prefix obj) as [[key rel]|]; [| apply IH].
    cbn [flat_map moveRequests fst snd app].
    unfold bind, Amazon.moveObject, bind, Amazon.Client_CopyObject, Amazon.copyInput.
    cbn [fst snd].
    set (copyIn := {| s3.copy_Bucket := Amazon.Bucket b;
                      s3.copy_CopySource := url.PathEscape (Amazon.Bucket b +:+ "/" +:+ key);
                      s3.copy_Key := cleanPrefix (path.Join [Amazon.Prefix b; newPath; rel]) |}).
    destruct (s3.CopyObject copyIn (Amazon.world st)).1 as [e|] eqn:Hcopy.
    { cbn [ret fst snd Amazon.calls Amazon.pages Amazon.called].
      split; [by exists 1%nat |]. done. }
    unfold Amazon.DeleteObject, Amazon.Client_DeleteObject, objectKey.
    cbn [fst snd Amazon.world Amazon.called].
    set (deleteIn := {| s3.delete_Bucket := Amazon.Bucket b;
                        s3.delete_Key := cleanPrefix (path.Join [Amazon.Prefix b; key]) |}).
    set (w1 := (s3.CopyObject copyIn (Amazon.world st)).2).
    set (st1 := Amazon.called (s3.CallCopyObject copyIn) w1 st).
    destruct (s3.DeleteObject deleteIn w1).1 as [e|] eqn:Hdel.
    { cbn [ret fst snd Amazon.calls Amazon.pages Amazon.called st1].
      split; [exists 2%nat; by rewrite <- app_assoc |]. done. }
    set (st2 := Amazon.called (s3.CallDeleteObject deleteIn) _ st1).
    destruct (IH st2) as ((n & Hn) & Hfull & Hpages).
    split; [exists (S (S n)) |]; [| split].
    + rewrite Hn. subst st2 st1. cbn [Amazon.calls Amazon.called take].
      by rewrite <- !app_assoc.
    + intros Hnone. rewrite (Hfull Hnone). subst st2 st1. cbn [Amazon.calls Amazon.called].
      by rewrite <- !app_assoc.
    + by rewrite Hpages.
Qed.


Lemma moveRequests_mutating b (newPath : string) (ms : list (string * string)) (n : nat)
    (c : s3.Call) :
  c ∈ take n (flat_map (moveRequests b newPath) ms) -> s3.mutating c = true.
Proof.
  intros Hc. apply (subseteq_take n) in Hc.
  apply list_elem_of_In, in_flat_map in Hc as (m & _ & Hc).
  apply list_elem_of_In in Hc. unfold moveRequests in Hc.
  apply elem_of_cons in Hc as [-> | Hc]; [done |].
  by apply list_elem_of_singleton in Hc as ->.
Qed.

Lemma moveContents_skips b (prefix newPath : string) (contents : list s3.Object) st :
  omap (movedKey prefix) contents = [] ->
  Amazon.moveContents b prefix newPath contents st = (None, st).
Proof.
  induction contents as [|obj rest IH]; [done |].
  rewrite moveContents_cons. cbn [omap list_omap].
  destruct (movedKey prefix obj); [done | apply IH].
Qed.

(** The loop of a rename, started without a token against a service that
    returns the token of the request in its answer, sends the same listing
    request in every round. *)
Lemma movePrefix_requests (fuel : nat) b (prefix newPath : string) :
  (forall i w out, (s3.ListObjectsV2 i w).1 = inl out ->
                   s3.ContinuationToken out = s3.list_ContinuationToken i) ->
  forall st,
  exists new : list s3.Call,
    Amazon.calls (Amazon.movePrefix fuel b prefix newPath "" st).2 = Amazon.calls st ++ new /\
    forall i, s3.CallListObjectsV2 i ∈ new ->
              i = {| s3.list_Bucket := Amazon.Bucket b;
                     s3.list_Prefix := prefix;
                     s3.list_Delimiter := None;
                     s3.list_MaxKeys := None;
                     s3.list_ContinuationToken := None |}.
Proof.
  intros Hecho. induction fuel as [|fuel IH]; intros st.
  { exists []. split; [by rewrite app_nil_r | by intros i ?%elem_of_nil]. }
  cbn [Amazon.movePrefix]. unfold bind, Amazon.Client_ListObjectsV2.
  cbn [String.eqb negb fst snd].
  set (request := {| s3.list_Bucket := Amazon.Bucket b;
                     s3.list_Prefix := prefix;
                     s3.list_Delimiter := None;
                     s3.list_MaxKeys := None;
                     s3.list_ContinuationToken := None |}).
  set (st1 := Amazon.called (s3.CallListObjectsV2 request) _ st).
  destruct (s3.ListObjectsV2 request (Amazon.world st)).1 as [output | err] eqn:Hl.
  2: { exists [s3.CallListObjectsV2 request]. split; [done |].
       by intros i [= ->]%list_elem_of_singleton. }
  rewrite (Hecho _ _ _ Hl). cbn [s3.list_ContinuationToken request].
  destruct (moveContents_sent b prefix newPath (s3.Contents output) st1)
    as ((n & Hn) & _ & _).
  set (moved := Amazon.moveContents b prefix newPath (s3.Contents output) st1) in *.
  assert (forall new' (i : s3.ListObjectsV2Input),
            (forall i, s3.CallListObjectsV2 i ∈ new' -> i = request) ->
            s3.CallListObjectsV2 i
              ∈ s3.CallListObjectsV2 request
                :: take n (flat_map (moveRequests b newPath)
                             (omap (movedKey prefix) (s3.Contents output))) ++ new' ->
            i = request) as Hin.
  { intros new' i Hnew [[= ->] | [Hi | Hi]%elem_of_app]%elem_of_cons; [done | | by apply Hnew].
    by apply moveRequests_mutating in Hi. }
  assert (Amazon.calls moved.2
          = Amazon.calls st
            ++ s3.CallListObjectsV2 request
               :: take n (flat_map (moveRequests b newPath)
                            (omap (movedKey prefix) (s3.Contents output)))) as Hcalls.
  { rewrite Hn. subst st1. cbn [Amazon.calls Amazon.called]. by rewrite <- app_assoc. }
  destruct moved.1 as [e|].
  { eexists. split; [exact Hcalls |]. intros i Hi. apply (Hin [] i); [by intros ? ?%elem_of_nil |].
    by rewrite app_nil_r. }
  destruct (match s3.IsTruncated output with Some truncated => negb truncated | None => true end).
  { eexists. split; [exact Hcalls |]. intros i Hi. apply (Hin [] i); [by intros ? ?%elem_of_nil |].
    by rewrite app_nil_r. }
  destruct (IH moved.2) as (new' & Hex & Hnew).
  eexists. split.
  - rewrite Hex, Hcalls, <- app_assoc. reflexivity.
  - intros i Hi. by apply (Hin new' i).
Qed.

(** Against a service that returns the continuation token of a request in
    its answer, as S3 does, RenamePrefixOrObject never sends a continuation
    token: the loop over a prefix reads the answer's ContinuationToken, not
    its NextContinuationToken, so every round sends the first request again.
    Its listing requests are the probe below the destination and that one
    request for the source. *)
Theorem RenamePrefixOrObject_never_continues (fuel : nat) b (path newPath : string) st :
  (forall i w out, (s3.ListObjectsV2 i w).1 = inl out ->
                   s3.ContinuationToken out = s3.list_ContinuationToken i) ->
  let r := Amazon.RenamePrefixOrObject fuel b path newPath st in
  forall i : s3.ListObjectsV2Input,
    s3.CallListObjectsV2 i ∈ drop (length (Amazon.calls st)) (Amazon.calls r.2) ->
    i = Amazon.newPathList b newPath \/ i = sourceList b path.
Proof.
  intros Hecho r i. subst r.
  unfold Amazon.RenamePrefixOrObject, bind, Amazon.Client_HeadObject,
    Amazon.Client_ListObjectsV2. cbn [fst snd].
  set (headNew := s3.HeadObject (Amazon.newPathHead b newPath) (Amazon.world st)).
  set (st1 := Amazon.called (s3.CallHeadObject (Amazon.newPathHead b newPath)) headNew.2 st).
  assert (forall new, Amazon.calls st ++ new = Amazon.calls st ++ new) as _ by done.
  destruct headNew.1 as [e|].
  2: { cbn [ret fst snd Amazon.calls st1 Amazon.called]. rewrite drop_app_length.
       by intros [=]%list_elem_of_singleton. }
  destruct (Amazon.isNotFound e); cbn [negb].
  2: { cbn [ret fst snd Amazon.calls st1 Amazon.called]. rewrite drop_app_length.
       by intros [=]%list_elem_of_singleton. }
  set (probe := s3.ListObjectsV2 (Amazon.newPathList b newPath) (Amazon.world st1)).
  set (st2 := Amazon.called (s3.CallListObjectsV2 (Amazon.newPathList b newPath)) probe.2 st1).
  assert (Amazon.calls st2
          = Amazon.calls st ++ [s3.CallHeadObject (Amazon.newPathHead b newPath);
                                s3.CallListObjectsV2 (Amazon.newPathList b newPath)]) as Hst2.
  { subst st2 st1. cbn [Amazon.calls Amazon.called]. by rewrite <- app_assoc. }
  destruct probe.1 as [out | err].
  2: { cbn [ret fst snd]. rewrite Hst2, drop_app_length.
       intros [[=] | [= ->]%list_elem_of_singleton]%elem_of_cons. by left. }
  destruct (match s3.KeyCount out with Some n => (n >? 0)%Z | None => false end).
  { cbn [ret fst snd]. rewrite Hst2, drop_app_length.
    intros [[=] | [= ->]%list_elem_of_singleton]%elem_of_cons. by left. }
  cbn [fst snd].
  set (headIn := {| s3.head_Bucket := Amazon.Bucket b;
                    s3.head_Key := objectKey (Amazon.Prefix b) path |}).
  set (headOld := s3.HeadObject headIn (Amazon.world st2)).
  set (st3 := Amazon.called (s3.CallHeadObject headIn) headOld.2 st2).
  assert (Amazon.calls st3
          = Amazon.calls st ++ [s3.CallHeadObject (Amazon.newPathHead b newPath);
                                s3.CallListObjectsV2 (Amazon.newPathList b newPath);
                                s3.CallHeadObject headIn]) as Hst3.
  { subst st3. cbn [Amazon.calls Amazon.called]. rewrite Hst2. by rewrite <- app_assoc. }
  destruct headOld.1 as [e'|].
  - destruct (Amazon.isNotFound e'); cbn [negb].
    + destruct (movePrefix_requests fuel b (objectKey (Amazon.Prefix b) path +:+ "/")
                  newPath Hecho st3) as (new & Hex & Hnew).
      rewrite Hex, Hst3, <- app_assoc, drop_app_length.
      intros [[=] | [[= ->] | [[=] | Hi]%elem_of_cons]%elem_of_cons]%elem_of_cons;
        [by left |]. right. by apply Hnew.
    + cbn [ret fst snd]. rewrite Hst3, drop_app_length.
      intros [[=] | [[= ->] | [=]%list_elem_of_singleton]%elem_of_cons]%elem_of_cons.
      by left.
  - cbn [ret fst snd].
    unfold Amazon.moveObject, bind, Amazon.Client_CopyObject, Amazon.DeleteObject,
      Amazon.Client_DeleteObject. cbn [fst snd].
    destruct (s3.CopyObject _ _).1; cbn [ret fst snd Amazon.calls Amazon.called];
      rewrite Hst3, <- ?app_assoc, drop_app_length; intros Hi;
      repeat (apply elem_of_cons in Hi as [Hi | Hi];
              [first [discriminate Hi | injection Hi as ->; by left] |]);
      by apply elem_of_nil in Hi.
Qed.

(** Renaming a path that holds nothing succeeds: when the destination is
    free, the probe of the source finds no object, and the listing below the
    source holds nothing to move and is not truncated, RenamePrefixOrObject
    returns nil after these four requests, and every bucket holds what it
    held. It does not tell a missing source from a moved one. *)
Theorem RenamePrefixOrObject_nothing_to_move (fuel : nat) b (path newPath : string) st :
  let headNew := s3.HeadObject (Amazon.newPathHead b newPath) (Amazon.world st) in
  let probe := s3.ListObjectsV2 (Amazon.newPathList b newPath) headNew.2 in
  let headIn := {| s3.head_Bucket := Amazon.Bucket b;
                   s3.head_Key := objectKey (Amazon.Prefix b) path |} in
  let headOld := s3.HeadObject headIn probe.2 in
  let listing := s3.ListObjectsV2 (sourceList b path) headOld.2 in
  (exists e, headNew.1 = Some e /\ Amazon.isNotFound e = true) ->
  (exists out, probe.1 = inl out /\
               match s3.KeyCount out with Some n => (n <= 0)%Z | None => True end) ->
  (exists e, headOld.1 = Some e /\ Amazon.isNotFound e = true) ->
  (exists out, listing.1 = inl out /\
               omap (movedKey (objectKey (Amazon.Prefix b) path +:+ "/")) (s3.Contents out) = [] /\
               s3.IsTruncated out <> Some true) ->
  let r := Amazon.RenamePrefixOrObject (S fuel) b path newPath st in
  r.1 = Some None /\
  Amazon.calls r.2
  = Amazon.calls st ++ [s3.CallHeadObject (Amazon.newPathHead b newPath);
                        s3.CallListObjectsV2 (Amazon.newPathList b newPath);
                        s3.CallHeadObject headIn;
                        s3.CallListObjectsV2 (sourceList b path)] /\
  (forall bucket,
     s3.objects (Amazon.world r.2) bucket = s3.objects (Amazon.world st) bucket).
Proof.
  intros headNew probe headIn headOld listing (e & Hh & He) (out & Hp & Hk)
    (e' & Ho & He') (out' & Hl & Hmoved & Htr) r. subst r.
  unfold Amazon.RenamePrefixOrObject, bind, Amazon.Client_HeadObject,
    Amazon.Client_ListObjectsV2. simpl.
  fold headNew. rewrite Hh, He. simpl. fold headNew. fold probe. rewrite Hp.
  assert (match s3.KeyCount out with Some n => (n >? 0)%Z | None => false end = false)
    as Hocc.
  { destruct (s3.KeyCount out) as [n|]; [| done].
    destruct (Z.gtb_spec n 0); [lia | done]. }
  rewrite Hocc. simpl. fold headIn. fold headOld. rewrite Ho, He'. simpl.
  unfold bind, Amazon.Client_ListObjectsV2. simpl.
  fold headIn. fold headOld. change (s3.ListObjectsV2 _ headOld.2) with listing.
  rewrite Hl. rewrite moveContents_skips by done. simpl.
  assert (match s3.IsTruncated out' with Some truncated => negb truncated | None => true end
          = true) as Heof by (by destruct (s3.IsTruncated out') as [[|]|]).
  rewrite Heof. simpl. split; [done |]. split; [by rewrite <- !app_assoc |].
  intros bucket. subst listing. rewrite s3.ListObjectsV2_objects.
  subst headOld. rewrite s3.HeadObject_objects.
  subst probe. rewrite s3.ListObjectsV2_objects. apply s3.HeadObject_objects.
Qed.

End RenameMore.

(** The reference service returns the continuation token of a request in its
    answer. *)
Lemma S3Service_echo (i : s3.ListObjectsV2Input) (w : S3Service.Service)
    (out : s3.ListObjectsV2Output) :
  (s3.ListObjectsV2 i w).1 = inl out ->
  s3.ContinuationToken out = s3.list_ContinuationToken i.
Proof.
  unfold s3.ListObjectsV2, S3Service.api, S3Service.listObjectsV2.
  destruct (S3Service.arrive w).1; [done |].
  destruct (negb _); [done |].
  destruct (_ <? 0)%Z; [done |].
  by intros [= <-].
Qed.

(** The theorem at a rename whose first request fails. *)
Lemma RenamePrefixOrObject_probe_failed_witness :
  let st := startS3 (threeKeys [Some SlowDown]) in
  let r := Amazon.RenamePrefixOrObject 8 chartsBackend "a.tgz" "z.tgz" st in
  r.1 = Some (Some SlowDown) /\
  (forall c, c ∈ drop (length (Amazon.calls st)) (Amazon.calls r.2) -> s3.mutating c = false) /\
  (forall bucket,
     s3.objects (Amazon.world r.2) bucket = s3.objects (Amazon.world st) bucket).
Proof.
  intros st.
  apply (RenamePrefixOrObject_probe_failed 8 chartsBackend "a.tgz" "z.tgz" st SlowDown).
  left. split; reflexivity.
Defined.

(** The theorem at the rename of the directory "dir" against the reference
    service. *)
Lemma RenamePrefixOrObject_never_continues_witness :
  let r := Amazon.RenamePrefixOrObject 8 chartsBackend "dir" "moved"
             (startS3 (threeKeys [])) in
  Forall (fun c => match c with
                   | s3.CallListObjectsV2 i => s3.list_ContinuationToken i = None
                   | _ => True
                   end) (Amazon.calls r.2).
Proof.
  intros r. apply Forall_forall. intros c Hc.
  destruct c as [| i | | |]; try exact I.
  destruct (RenamePrefixOrObject_never_continues 8 chartsBackend "dir" "moved"
              (startS3 (threeKeys [])) S3Service_echo i Hc) as [-> | ->]; reflexivity.
Defined.

(** The theorem at the rename of "missing", which the bucket does not hold. *)
Lemma RenamePrefixOrObject_nothing_to_move_witness :
  let st := startS3 (threeKeys []) in
  let r := Amazon.RenamePrefixOrObject 1 chartsBackend "missing" "elsewhere" st in
  r.1 = Some None /\
  length (Amazon.calls r.2) = 4%nat /\
  (forall bucket,
     s3.objects (Amazon.world r.2) bucket = s3.objects (Amazon.world st) bucket).
Proof.
  intros st r.
  destruct (RenamePrefixOrObject_nothing_to_move 0 chartsBackend "missing" "elsewhere" st)
    as (Hr & Hcalls & Hobjects).
  - exists S3Service.NotFound. split; vm_compute; reflexivity.
  - eexists. split; [vm_compute; reflexivity |]. vm_compute. discriminate.
  - exists S3Service.NotFound. split; vm_compute; reflexivity.
  - eexists. split; [vm_compute; reflexivity |]. split; [reflexivity | discriminate].
  - fold r in Hr, Hcalls, Hobjects. split; [exact Hr |].
    split; [by rewrite Hcalls | exact Hobjects].
Defined.

(* ===================================================================== *)
(** * Pages: how one page leads to the next                                *)
(* ===================================================================== *)

Section AmazonChain.

Context {W : Type} `{s3.API W}.

Implicit Types (st : Amazon.State W) (l : Amazon.loc).
Implicit Types (pg : Amazon.s3ListObjectsFromDirectoryOutput).

Lemma fold_directoryStep_cursor bp cps : forall r,
  let r' := fold_left (Amazon.directoryStep bp) cps r in
  Amazon.backend r' = Amazon.backend r /\ Amazon.prefix r' = Amazon.prefix r /\
  Amazon.limit r' = Amazon.limit r /\ Amazon.nextPageCalled r' = Amazon.nextPageCalled r /\
  Amazon.continuationToken r' = Amazon.continuationToken r.
Proof.
  induction cps as [|d cps IH]; intros r; [done |].
  simpl. destruct (IH (Amazon.directoryStep bp r d)) as (-> & -> & -> & -> & ->).
  unfold Amazon.directoryStep. destruct (s3.Prefix d) as [p|]; [| done].
  destruct (negb (String.eqb p "")); [| done].
  by destruct (negb _ && negb _).
Qed.

Lemma fold_fileStep_cursor bp fs : forall r,
  let r' := fold_left (Amazon.fileStep bp) fs r in
  Amazon.backend r' = Amazon.backend r /\ Amazon.prefix r' = Amazon.prefix r /\
  Amazon.limit r' = Amazon.limit r /\ Amazon.nextPageCalled r' = Amazon.nextPageCalled r /\
  Amazon.continuationToken r' = Amazon.continuationToken r.
Proof.
  induction fs as [|f fs IH]; intros r; [done |].
  simpl. destruct (IH (Amazon.fileStep bp r f)) as (-> & -> & -> & -> & ->).
  unfold Amazon.fileStep. destruct (s3.Key f) as [k|]; [| done].
  destruct (negb (String.eqb k "")); [| done].
  by destruct (negb _ && negb _).
Qed.

(** The cursor of the page built from an answer. *)
Lemma pageOfOutput_cursor pg out :
  let page := Amazon.pageOfOutput pg out in
  Amazon.backend page = Amazon.backend pg /\ Amazon.prefix page = Amazon.prefix pg /\
  Amazon.limit page = Amazon.limit pg /\ Amazon.nextPageCalled page = false /\
  Amazon.continuationToken page
  = match s3.NextContinuationToken out with Some token => token | None => "" end.
Proof.
  unfold Amazon.pageOfOutput. cbn zeta.
  set (r0 := match s3.NextContinuationToken out with
             | Some token => Amazon.withToken _ token
             | None => _
             end).
  destruct (fold_fileStep_cursor (Amazon.Prefix (Amazon.backend pg)) (s3.Contents out)
              (fold_left (Amazon.directoryStep (Amazon.Prefix (Amazon.backend pg)))
                 (s3.CommonPrefixes out) r0)) as (Hb & Hp & Hl & Hc & Ht).
  destruct (fold_directoryStep_cursor (Amazon.Prefix (Amazon.backend pg))
              (s3.CommonPrefixes out) r0) as (Hb' & Hp' & Hl' & Hc' & Ht').
  cbn zeta in *. cbn [Amazon.withEOF Amazon.backend Amazon.prefix Amazon.limit
                      Amazon.nextPageCalled Amazon.continuationToken].
  rewrite Hb, Hp, Hl, Hc, Ht, Hb', Hp', Hl', Hc', Ht'.
  subst r0. by destruct (s3.NextContinuationToken out).
Qed.

(** NextPage on a page that is neither marked nor exhausted sends the page's
    request, whatever the answer. *)
Lemma Amazon_NextPage_calls l st pg :
  default Amazon.zeroPage (Amazon.pages st !! l) = pg ->
  Amazon.nextPageCalled pg = false -> Amazon.isEOF pg = false ->
  Amazon.calls (Amazon.NextPage l st).2
  = Amazon.calls st ++ [s3.CallListObjectsV2 (Amazon.nextPageRequest pg)].
Proof.
  intros Hl Hc He.
  destruct (s3.ListObjectsV2 (Amazon.nextPageRequest pg) (Amazon.world st)).1
    as [out | err] eqn:Hr.
  - by rewrite (Amazon_NextPage_fetched l st pg out).
  - by rewrite (Amazon_NextPage_failed l st pg err).
Qed.

(** The pages of a listing are linked by the answer's NextContinuationToken:
    after a page was fetched with a truncated answer, NextPage on the page it
    returned sends the same request again (bucket, prefix, delimiter, limit)
    with that token, and without a token when the answer gave none or an
    empty one. *)
Theorem NextPage_continues l st pg (out : s3.ListObjectsV2Output) :
  Amazon.pages st !! l = Some pg ->
  Amazon.nextPageCalled pg = false -> Amazon.isEOF pg = false ->
  (s3.ListObjectsV2 (Amazon.nextPageRequest pg) (Amazon.world st)).1 = inl out ->
  s3.IsTruncated out = Some true ->
  let first := Amazon.NextPage l st in
  let r := length (Amazon.pages st) in
  let request := Amazon.nextPageRequest pg in
  let next := {| s3.list_Bucket := s3.list_Bucket request;
                 s3.list_Prefix := s3.list_Prefix request;
                 s3.list_Delimiter := Some "/";
                 s3.list_MaxKeys := Some (Amazon.limit pg);
                 s3.list_ContinuationToken :=
                   match s3.NextContinuationToken out with
                   | Some token => if String.eqb token "" then None else Some token
                   | None => None
                   end |} in
  first.1 = (Some r, None) /\
  Amazon.calls (Amazon.NextPage r first.2).2
  = Amazon.calls st ++ [s3.CallListObjectsV2 request; s3.CallListObjectsV2 next].
Proof.
  intros Hl Hc He Hr Ht first r request next.
  assert (default Amazon.zeroPage (Amazon.pages st !! l) = pg) as Hl' by (by rewrite Hl).
  assert (Amazon.isEOF (Amazon.pageOfOutput pg out) = false) as Heof
    by (by rewrite pageOfOutput_isEOF, Ht).
  destruct (pageOfOutput_cursor pg out) as (Hb & Hp & Hlim & Hcalled & Htoken).
  cbn zeta in Hb, Hp, Hlim, Hcalled, Htoken.
  subst first. rewrite (Amazon_NextPage_fetched l st pg out Hl' Hc He Hr), Heof.
  cbn [fst snd]. split; [done |].
  rewrite (Amazon_NextPage_calls r _ (Amazon.pageOfOutput pg out)); [| | done | done].
  - cbn [Amazon.calls]. rewrite <- app_assoc. do 3 f_equal.
    unfold Amazon.nextPageRequest at 1. rewrite Hb, Hp, Hlim, Htoken.
    subst next request. unfold Amazon.nextPageRequest. cbn [s3.list_Bucket s3.list_Prefix].
    f_equal. destruct (s3.NextContinuationToken out) as [token|]; [| done].
    by destruct (String.eqb token "").
  - cbn [Amazon.pages]. subst r.
    rewrite <- (length_insert (Amazon.pages st) l (Amazon.withNextPageCalled pg true)).
    by rewrite list_lookup_middle.
Qed.

End AmazonChain.

(** The theorem at a listing of "charts" by pages of one entry: the second
    request carries the token of the first answer. *)
Lemma NextPage_continues_witness :
  let st := (Amazon.alloc (Amazon.newPage chartsBackend "" 1) (startS3 (threeKeys []))).2 in
  let first := Amazon.NextPage 0 st in
  first.1 = (Some 1%nat, None) /\
  last (Amazon.calls (Amazon.NextPage 1 first.2).2)
  = Some (s3.CallListObjectsV2 {| s3.list_Bucket := "bkt";
                                  s3.list_Prefix := "charts/";
                                  s3.list_Delimiter := Some "/";
                                  s3.list_MaxKeys := Some 1%Z;
                                  s3.list_ContinuationToken := Some "charts/a.tgz" |}).
Proof.
  intros st first.
  edestruct (NextPage_continues 0 st (Amazon.newPage chartsBackend "" 1)) as [Hfirst Hcalls].
  - reflexivity.
  - reflexivity.
  - reflexivity.
  - vm_compute. reflexivity.
  - reflexivity.
  - fold first in Hfirst, Hcalls. split; [exact Hfirst |].
    change (length (Amazon.pages st)) with 1%nat in Hcalls.
    rewrite Hcalls. vm_compute. reflexivity.
Defined.

Section LocalLast.

Context {W : Type} `{os.API W}.

Implicit Types (st : Local.State W) (l : Local.loc).
Implicit Types (pg : Local.localListObjectsFromDirectoryOutput).

(** With a limit above zero, the last page of the local backend is empty.
    ReadDir with n > 0 reports the end of a directory by io.EOF together with
    no entry; NextPage takes a page for the last one only when it sees that
    error, so the page that holds the last entries of a directory is reported
    as truncated, and one more NextPage is needed to learn the end. *)
Theorem Local_NextPage_last_empty l st pg :
  (forall (f : os.File) (n : Z) (w : W) (e : error),
     (0 < n)%Z -> (os.ReadDir f n w).1.2 = Some e -> errors_Is e io_EOF = true ->
     (os.ReadDir f n w).1.1 = []) ->
  Local.pages st !! l = Some pg ->
  Local.nextPageCalled pg = false ->
  (0 < Local.limit pg)%Z ->
  let next := Local.NextPage l st in
  forall (r : Local.loc) (page : Local.localListObjectsFromDirectoryOutput),
    next.1.1 = Some r -> Local.pages next.2 !! r = Some page ->
    Local.IsTruncated page = false ->
    Local.GetFiles page = [] /\ Local.GetDirectories page = [].
Proof.
  intros Hlaw Hl Hc Hlimit next r page. subst next.
  assert (default Local.zeroPage (Local.pages st !! l) = pg) as Hl' by (by rewrite Hl).
  destruct (Local.isEOF pg) eqn:He.
  - rewrite (Local_NextPage_exhausted l st pg Hl' Hc He). cbn [fst snd Local.pages].
    intros [= <-]. rewrite list_lookup_middle by done. by intros [= <-].
  - rewrite (Local_NextPage_read l st pg Hl' Hc He). cbn [fst snd Local.pages].
    intros [= <-].
    rewrite <- (length_insert (Local.pages st) l (Local.withNextPageCalled pg true)).
    rewrite list_lookup_middle by done. intros [= <-].
    unfold Local.IsTruncated, Local.pageOfEntries. cbn [fst Local.isEOF Local.withEOF].
    set (read := Local.File_ReadDir (Local.directory pg) (Local.limit pg) st).
    intros Heof%negb_false_iff.
    assert ((0 <? Local.limit pg)%Z = true) as Hpos by (by apply Z.ltb_lt).
    assert ((Local.limit pg <=? 0)%Z = false) as Hneg by (apply Z.leb_gt; lia).
    rewrite Hpos, Hneg in Heof. cbn [andb orb] in Heof. rewrite orb_false_r in Heof.
    destruct read.1.2 as [e|] eqn:Herr; [| done].
    assert (read.1.1 = []) as Hentries.
    { subst read. unfold Local.File_ReadDir in *. destruct (Local.directory pg) as [f|].
      - cbn [fst snd] in *. by apply (Hlaw f (Local.limit pg) (Local.world st) e).
      - done. }
    rewrite Hentries. done.
Qed.

End LocalLast.

(** The in-memory file system reports the end of a directory as ReadDir
    does: with n > 0, io.EOF comes with no entry. *)
Lemma FileSystem_readDir_EOF (f : os.File) (n : Z) (w : FileSystem.FS) (e : error) :
  (0 < n)%Z -> (os.ReadDir f n w).1.2 = Some e -> errors_Is e io_EOF = true ->
  (os.ReadDir f n w).1.1 = [].
Proof.
  intros Hn. unfold os.ReadDir, FileSystem.api, FileSystem.readDir.
  destruct (FileSystem.opened w !! f) as [[name pending]|]; [| done].
  destruct (FileSystem.nodes w !! name) as [[t c | t es]|]; [done | | done].
  apply Z.ltb_lt in Hn. rewrite Hn. cbn [fst snd].
  destruct pending; [intros _ _; apply take_nil | done].
Qed.

(** The theorem at "/data", read by pages of ten: the first page holds both
    entries and is reported as truncated; the page after it is the last, and
    empty. *)
Lemma Local_NextPage_last_empty_witness :
  let listed := Local.ListObjectsFromDirectory dataBackend "" 10 (startLocal dataFS) in
  let next := Local.NextPage 1 listed.2 in
  listed.1 = (Some 1%nat, None) /\
  next.1 = (Some 2%nat, Some io_EOF) /\
  forall page, Local.pages next.2 !! 2%nat = Some page ->
               Local.IsTruncated page = false ->
               Local.GetFiles page = [] /\ Local.GetDirectories page = [].
Proof.
  intros listed next. split; [vm_compute; reflexivity |]. split; [vm_compute; reflexivity |].
  intros page Hpage Hlast.
  eapply (Local_NextPage_last_empty 1 listed.2 _ FileSystem_readDir_EOF).
  - vm_compute. reflexivity.
  - reflexivity.
  - vm_compute. reflexivity.
  - vm_compute. reflexivity.
  - exact Hpage.
  - exact Hlast.
Defined.

(* ===================================================================== *)
(** * The local backend: objects                                           *)
(* ===================================================================== *)

(** The examples of the documentation of path.Dir. *)
Example Dir_table :
  map path_Dir ["/a/b/c"; "a/b/c"; "/a/"; "a/"; "/"; ""; "a"; "/data/new.bin"]
  = ["/a/b"; "a/b"; "/a"; "a"; "/"; "."; "."; "/data"].
Proof. vm_compute. reflexivity. Qed.

Section Chunks.

Context {A : Type}.

Implicit Types (l : list A) (n fuel : nat).

Lemma chunksOf_concat fuel : forall n l,
  (0 < n)%nat -> (length l <= fuel)%nat -> concat (files.chunksOf fuel n l) = l.
Proof.
  induction fuel as [|fuel IH]; intros n l Hn Hl.
  - destruct l; [done | simpl in Hl; lia].
  - destruct l as [|a l]; [done |].
    cbn [files.chunksOf concat]. rewrite IH; [apply take_drop | done |].
    rewrite length_drop. simpl in *. lia.
Qed.

Lemma chunks_concat n l : (0 < n)%nat -> concat (files.chunks n l) = l.
Proof. intros Hn. by apply chunksOf_concat. Qed.

End Chunks.

Lemma accepted_chunksOf fuel : forall (n : nat) (l : list Byte.byte),
  (0 < n)%nat ->
  accepted (map (fun piece => (piece, None)) (files.chunksOf fuel n l)) = files.chunksOf fuel n l.
Proof.
  induction fuel as [|fuel IH]; intros n l Hn; [done |].
  destruct l as [|a l]; [done |].
  cbn [files.chunksOf map accepted]. rewrite IH by done.
  destruct n as [|n]; [lia |]. done.
Qed.

(** What is taken from a buffer is the buffer, piece by piece. *)
Lemma accepted_buffer (n : nat) (content : list Byte.byte) :
  (0 < n)%nat -> concat (accepted (files.bytes_NewBuffer n content)) = content.
Proof.
  intros Hn. unfold files.bytes_NewBuffer, files.chunks.
  rewrite accepted_chunksOf by done. by apply chunksOf_concat.
Qed.

Section LocalObjects.

Context {W : Type} `{files.API W}.

Implicit Types (b : Local.LocalFilesystemBackend) (st : LocalObjects.State W).
Implicit Types (fp f : os.File) (content : files.Reader).

Lemma written_app (c1 c2 : list files.Call) :
  files.written (c1 ++ c2) = files.written c1 ++ files.written c2.
Proof. apply omap_app. Qed.

(** What the loop of PutObjectStream sends: the writes of what it takes from
    the reader, up to the first that fails, and the Close. *)
Lemma copyChunks_sent fp content : forall st,
  let r := LocalObjects.copyChunks fp content st in
  exists new : list files.Call,
    LocalObjects.calls r.2 = LocalObjects.calls st ++ new /\
    (exists k : nat, files.written new = take k (accepted content)) /\
    (r.1 = None -> files.written new = accepted content).
Proof.
  induction content as [|[data err] rest IH]; intros st.
  - exists [files.CallClose fp]. split; [done |]. split; [by exists 0%nat | done].
  - cbn [LocalObjects.copyChunks accepted].
    destruct (match err with Some e => negb (bool_decide (e = io_EOF)) | None => false end)
      eqn:Herr.
    { exists [files.CallClose fp]. unfold bind, LocalObjects.File_Close. cbn [fst snd ret].
      split; [done |]. split; [by exists 0%nat | done]. }
    destruct (length data =? 0)%nat.
    { exists [files.CallClose fp]. split; [done |]. split; [by exists 0%nat | done]. }
    unfold bind, LocalObjects.File_Write. cbn [fst snd].
    set (w1 := (files.Write fp data (LocalObjects.world st)).2).
    set (st1 := LocalObjects.called (files.CallWrite fp data) w1 st).
    destruct (files.Write fp data (LocalObjects.world st)).1 as [e|].
    { exists [files.CallWrite fp data; files.CallClose fp].
      unfold LocalObjects.File_Close. subst st1.
      cbn [fst snd ret LocalObjects.calls LocalObjects.called].
      split; [by rewrite <- app_assoc |]. split; [by exists 1%nat | done]. }
    destruct (IH st1) as (new & Hcalls & (k & Hk) & Hall).
    exists (files.CallWrite fp data :: new). split.
    + rewrite Hcalls. subst st1. cbn [LocalObjects.calls LocalObjects.called].
      by rewrite <- app_assoc.
    + cbn [files.written omap list_omap]. fold (files.written new). split.
      * exists (S k). by rewrite Hk.
      * intros Hnone. by rewrite (Hall Hnone).
Qed.

Lemma PutObjectStream_sent b (path : string) content st :
  let r := LocalObjects.PutObjectStream b path content st in
  let new := drop (length (LocalObjects.calls st)) (LocalObjects.calls r.2) in
  (exists k : nat, files.written new = take k (accepted content)) /\
  (r.1 = None -> files.written new = accepted content).
Proof.
  intros r new. subst new r.
  unfold LocalObjects.PutObjectStream, bind, LocalObjects.os_Stat. cbn [fst snd].
  set (fullpath := path.Join [Local.RootDirectory b; path]).
  set (folderPath := path_Dir fullpath).
  set (stat := files.Stat folderPath (LocalObjects.world st)).
  set (st1 := LocalObjects.called (files.CallStat folderPath) stat.2 st).
  assert (forall (made : option error * LocalObjects.State W) (pre : list files.Call),
            LocalObjects.calls made.2 = LocalObjects.calls st ++ pre ->
            files.written pre = [] ->
            let r := match made.1 with
                     | Some err => ret (Some err)
                     | None =>
                         fun s =>
                           match (LocalObjects.os_Create fullpath s).1 with
                           | inr err => ret (Some err)
                           | inl fp => LocalObjects.copyChunks fp content
                           end (LocalObjects.os_Create fullpath s).2
                     end made.2 in
            (exists k : nat,
               files.written (drop (length (LocalObjects.calls st)) (LocalObjects.calls r.2))
               = take k (accepted content)) /\
            (r.1 = None ->
             files.written (drop (length (LocalObjects.calls st)) (LocalObjects.calls r.2))
             = accepted content)) as Hrest.
  { intros made pre Hpre Hw r. subst r. destruct made.1 as [err|].
    { cbn [ret fst snd]. rewrite Hpre, drop_app_length, Hw.
      split; [by exists 0%nat | done]. }
    unfold LocalObjects.os_Create. cbn [fst snd].
    set (st2 := LocalObjects.called (files.CallCreate fullpath) _ made.2).
    destruct (files.Create fullpath (LocalObjects.world made.2)).1 as [fp | err].
    2: { cbn [ret fst snd]. subst st2. cbn [LocalObjects.calls LocalObjects.called].
         rewrite Hpre, <- app_assoc, drop_app_length, written_app, Hw.
         split; [by exists 0%nat | done]. }
    destruct (copyChunks_sent fp content st2) as (new & Hcalls & Hk & Hall).
    rewrite Hcalls. subst st2. cbn [LocalObjects.calls LocalObjects.called].
    rewrite Hpre, <- !app_assoc, drop_app_length, !written_app, Hw.
    done. }
  destruct stat.1 as [info | err].
  - apply (Hrest (None, st1) [files.CallStat folderPath]); done.
  - destruct (os_IsNotExist err).
    + unfold LocalObjects.os_MkdirAll. cbn [fst snd].
      set (mk := files.MkdirAll folderPath (LocalObjects.world st1)).
      apply (Hrest (mk.1, LocalObjects.called (files.CallMkdirAll folderPath) mk.2 st1)
               [files.CallStat folderPath; files.CallMkdirAll folderPath]); [| done].
      subst st1. cbn [snd LocalObjects.calls LocalObjects.called]. by rewrite <- app_assoc.
    + apply (Hrest (Some err, st1) [files.CallStat folderPath]); done.
Qed.


(** When PutObject returns no error, the bytes it wrote, taken together, are
    the content it was given. *)
Theorem PutObject_complete b (path : string) (content : list Byte.byte) st :
  let r := LocalObjects.PutObject b path content st in
  r.1 = None ->
  concat (files.written (drop (length (LocalObjects.calls st)) (LocalObjects.calls r.2)))
  = content.
Proof.
  intros r Hr. subst r. unfold LocalObjects.PutObject in *.
  destruct (PutObjectStream_sent b path (files.bytes_NewBuffer 4096 content) st) as [_ Hall].
  rewrite (Hall Hr). apply accepted_buffer. lia.
Qed.

(** What GetObjectStream does, by what Open and Stat answer. *)
Lemma GetObjectStream_cases b (path : string) st :
  let fullpath := path.Join [Local.RootDirectory b; path] in
  let opened := os.Open fullpath (LocalObjects.world st) in
  let got := LocalObjects.GetObjectStream b path st in
  match opened.1 with
  | inr e =>
      got = ((LocalObjects.streamAt path, Some e),
             LocalObjects.called (files.CallOpen fullpath) opened.2 st)
  | inl f =>
      let stat := os.Stat f opened.2 in
      let st2 := LocalObjects.called (files.CallFileStat f) stat.2
                   (LocalObjects.called (files.CallOpen fullpath) opened.2 st) in
      match stat.1 with
      | inr e => got = ((LocalObjects.streamAt path, Some e), st2)
      | inl info =>
          if os.info_IsDir info then
            got = ((LocalObjects.streamAt path,
                    Some (errors_New "path must lead to a file, found directory")), st2)
          else
            got = (({| LocalObjects.Stream_Metadata :=
                         {| Path := path; LastModified := os.ModTime info |};
                       LocalObjects.Stream_Content := Some f |}, None), st2)
      end
  end.
Proof.
  intros fullpath opened got. subst got.
  unfold LocalObjects.GetObjectStream, bind, LocalObjects.os_Open. cbn [fst snd].
  fold fullpath. fold opened. destruct opened.1 as [f | e]; [| done].
  unfold LocalObjects.File_Stat. cbn [fst snd LocalObjects.world LocalObjects.called].
  destruct (os.Stat f opened.2).1 as [info | e]; [| done].
  by destruct (os.info_IsDir info).
Qed.

(** GetObject never panics, returns its object under the path it was given,
    and closes the file it opened exactly when the path leads to a file: when
    Stat fails on the open file, or the path leads to a directory, the file
    stays open. *)
Theorem GetObject_closes b (path : string) st (f : os.File) :
  let fullpath := path.Join [Local.RootDirectory b; path] in
  let opened := os.Open fullpath (LocalObjects.world st) in
  let stat := os.Stat f opened.2 in
  opened.1 = inl f ->
  let r := LocalObjects.GetObject b path st in
  let new := drop (length (LocalObjects.calls st)) (LocalObjects.calls r.2) in
  (exists (object : Object) (err : option error),
     r.1 = Returns (object, err) /\ Path object = path) /\
  (files.CallClose f ∈ new <-> exists info, stat.1 = inl info /\ os.info_IsDir info = false).
Proof.
  intros fullpath opened stat Ho r new. subst new r.
  unfold LocalObjects.GetObject, bind.
  pose proof (GetObjectStream_cases b path st) as Hgot. cbn zeta in Hgot.
  fold fullpath in Hgot. fold opened in Hgot. rewrite Ho in Hgot. fold stat in Hgot.
  destruct stat.1 as [info | e] eqn:Hs.
  - destruct (os.info_IsDir info) eqn:Hd; rewrite Hgot; cbn [fst snd].
    + cbn [ret fst snd LocalObjects.calls LocalObjects.called].
      rewrite <- app_assoc, drop_app_length. split; [by eexists _, _ |].
      split.
      * intros [[=] | [=]%list_elem_of_singleton]%elem_of_cons.
      * intros (info' & [= <-] & Hd'). congruence.
    + cbn [LocalObjects.Stream_Content]. unfold LocalObjects.ioutil_ReadAll,
        LocalObjects.File_Close. cbn [ret fst snd LocalObjects.calls LocalObjects.called].
      rewrite <- !app_assoc, drop_app_length. split.
      * destruct (files.ReadAll f _).1.2; by eexists _, _.
      * split; [by exists info |]. intros _.
        cbn [app]. rewrite !elem_of_cons. by do 3 right; left.
  - rewrite Hgot. cbn [ret fst snd LocalObjects.calls LocalObjects.called].
    rewrite <- app_assoc, drop_app_length. split; [by eexists _, _ |].
    split.
    + intros [[=] | [=]%list_elem_of_singleton]%elem_of_cons.
    + by intros (info' & [=] & _).
Qed.

(** HandleHttpFileDownload of the local backend answers a path that cannot
    be opened, or whose open file cannot be examined, with 404 when the error
    says that the file does not exist and with 500 otherwise, and a path that
    leads to a directory with 500. It serves a file under the name after the
    last "/" of the path, with the file's time of modification, and closes
    it after that; it never panics. *)
Theorem Local_HandleHttpFileDownload_serves b (w : http.ResponseWriter) (r : http.Request)
    (path : string) st :
  let fullpath := path.Join [Local.RootDirectory b; path] in
  let opened := os.Open fullpath (LocalObjects.world st) in
  let run := LocalObjects.HandleHttpFileDownload b w r path st in
  let new := drop (length (LocalObjects.calls st)) (LocalObjects.calls run.2) in
  let failed (e : error) :=
    http.record w (http.WriteHeader (if os_IsNotExist e then http.StatusNotFound
                                     else http.StatusInternalServerError)) in
  match opened.1 with
  | inr e => run.1 = Returns (failed e) /\ new = [files.CallOpen fullpath]
  | inl f =>
      let stat := os.Stat f opened.2 in
      match stat.1 with
      | inr e =>
          run.1 = Returns (failed e) /\ new = [files.CallOpen fullpath; files.CallFileStat f]
      | inl info =>
          if os.info_IsDir info then
            run.1 = Returns (http.record w (http.WriteHeader http.StatusInternalServerError)) /\
            new = [files.CallOpen fullpath; files.CallFileStat f]
          else
            let name := default "" (last (strings.Split path "/")) in
            run.1 = Returns (files.ServeContent w r name (os.ModTime info) f stat.2).1 /\
            new = [files.CallOpen fullpath; files.CallFileStat f;
                   files.CallServeContent name (os.ModTime info) f; files.CallClose f]
      end
  end.
Proof.
  intros fullpath opened run new failed. subst new run.
  unfold LocalObjects.HandleHttpFileDownload, bind.
  pose proof (GetObjectStream_cases b path st) as Hgot. cbn zeta in Hgot.
  fold fullpath in Hgot. fold opened in Hgot.
  destruct opened.1 as [f | e].
  - destruct (os.Stat f opened.2).1 as [info | e].
    + destruct (os.info_IsDir info); rewrite Hgot; cbn [fst snd].
      * cbn [os_IsNotExist ret fst snd LocalObjects.calls LocalObjects.called].
        by rewrite <- app_assoc, drop_app_length.
      * cbn [LocalObjects.Stream_Content LocalObjects.Stream_Metadata Path LastModified].
        unfold LocalObjects.http_ServeContent, LocalObjects.File_Close.
        cbn [ret fst snd LocalObjects.calls LocalObjects.called LocalObjects.world].
        by rewrite <- !app_assoc, drop_app_length.
    + rewrite Hgot. cbn [fst snd]. subst failed. cbv beta.
      destruct (os_IsNotExist e); cbn [ret fst snd LocalObjects.calls LocalObjects.called];
        by rewrite <- app_assoc, drop_app_length.
  - rewrite Hgot. cbn [fst snd]. subst failed. cbv beta.
    destruct (os_IsNotExist e); cbn [ret fst snd LocalObjects.calls LocalObjects.called];
      by rewrite drop_app_length.
Qed.

End LocalObjects.


(** The theorem at three bytes put below a directory that does not exist
    yet. *)
Lemma PutObject_complete_witness :
  let r := LocalObjects.PutObject dataBackend "fresh/c.bin" [Byte.x01; Byte.x02; Byte.x03]
             (startFiles dataFS) in
  concat (files.written (LocalObjects.calls r.2)) = [Byte.x01; Byte.x02; Byte.x03].
Proof.
  intros r.
  apply (PutObject_complete dataBackend "fresh/c.bin" [Byte.x01; Byte.x02; Byte.x03]
           (startFiles dataFS)).
  vm_compute. reflexivity.
Defined.

(** The theorem at the directory "sub": GetObject returns an error and leaves
    the file it opened open. *)
Lemma GetObject_closes_witness :
  let r := LocalObjects.GetObject dataBackend "sub" (startFiles dataFS) in
  r.1 = Returns (obj "sub" 0,
                 Some (errors_New "path must lead to a file, found directory")) /\
  ~ files.CallClose 0%nat ∈ LocalObjects.calls r.2.
Proof.
  intros r. split; [vm_compute; reflexivity |].
  destruct (GetObject_closes dataBackend "sub" (startFiles dataFS) 0%nat) as [_ Hclose];
    [reflexivity |].
  intros Hin. apply Hclose in Hin as (info & Hinfo & Hdir).
  vm_compute in Hinfo. injection Hinfo as <-. discriminate Hdir.
Defined.

(** The theorem at the directory "sub": the answer is 500, and the file that
    was opened is not closed. *)
Lemma Local_HandleHttpFileDownload_serves_witness :
  let run := LocalObjects.HandleHttpFileDownload dataBackend freshWriter getRequest "sub"
               (startFiles dataFS) in
  run.1 = Returns (http.record freshWriter (http.WriteHeader http.StatusInternalServerError)) /\
  LocalObjects.calls run.2 = [files.CallOpen "/data/sub"; files.CallFileStat 0%nat].
Proof.
  exact (Local_HandleHttpFileDownload_serves dataBackend freshWriter getRequest "sub"
           (startFiles dataFS)).
Defined.
